(** * Verification of the issue-triage workflow test harness

    Shallow embedding of [.github/test-workflow.py]: the pattern extractors,
    the run correlation loop, the completion validator with its exponential
    backoff, the label validator and the assessment-comment validator, and the
    orchestrator [validate_test_issues].

    Conventions of the embedding.
    - Text is ASCII: a Python [str] is a [string]; the character classes of the
      [re] module ([\d], [\s], [\w]) are given on ASCII characters.
    - The tracker gateway ([get_workflow_runs], [get_issue_labels],
      [get_issue_comments]) is an external collaborator: its answers come from
      a [World], an oracle that may answer differently at every call (it sees
      the whole history of effects so far).
    - [time.sleep] and the gateway calls are recorded, in order, in a trace.
    - [self.fail] and [self.assertEqual] of [unittest.TestCase] raise
      [AssertionError]; a raised failure propagates through every caller, since
      the file has no [try]/[except] and no [subTest] around the validators.
    - Terminal output ([print], [print_colored]) is not modelled. *)

From Stdlib Require Import Ascii DecimalString.
From stdpp Require Import base option list strings sorting gmap.

(* ===================================================================== *)
(** * Character classes and string helpers *)
(* ===================================================================== *)

Definition in_range (lo hi : nat) (c : ascii) : bool :=
  (lo <=? nat_of_ascii c) && (nat_of_ascii c <=? hi).

(** [\d] on ASCII. *)
Definition is_digit (c : ascii) : bool := in_range 48 57 c.

(** [\s] of a [str] pattern on ASCII: tab, newline, vertical tab, form feed,
    carriage return, the separators 0x1c-0x1f and the space. [str.strip]
    removes the same characters. *)
Definition is_space (c : ascii) : bool := in_range 9 13 c || in_range 28 32 c.

(** [\w] on ASCII: letters, digits and the underscore. *)
Definition is_word (c : ascii) : bool :=
  is_digit c || in_range 65 90 c || in_range 97 122 c || Ascii.eqb c "_".

Definition to_lower (c : ascii) : ascii :=
  if in_range 65 90 c then ascii_of_nat (nat_of_ascii c + 32) else c.

(** Equality of characters under [re.IGNORECASE]. *)
Definition eqb_ci (a b : ascii) : bool := Ascii.eqb (to_lower a) (to_lower b).

Fixpoint string_forall (p : ascii → bool) (s : string) : bool :=
  match s with
  | EmptyString => true
  | String c s' => p c && string_forall p s'
  end.

(** [s.startswith(p)], returning the rest of [s] after [p]. *)
Fixpoint strip_prefix (p s : string) : option string :=
  match p, s with
  | EmptyString, _ => Some s
  | String a p', String b s' => if Ascii.eqb a b then strip_prefix p' s' else None
  | String _ _, EmptyString => None
  end.

(** The same, a literal matched under [re.IGNORECASE]. *)
Fixpoint strip_prefix_ci (p s : string) : option string :=
  match p, s with
  | EmptyString, _ => Some s
  | String a p', String b s' => if eqb_ci a b then strip_prefix_ci p' s' else None
  | String _ _, EmptyString => None
  end.

Definition startswith (p s : string) : bool := bool_decide (is_Some (strip_prefix p s)).

(** [needle in s] on strings. *)
Fixpoint contains (needle s : string) : bool :=
  match strip_prefix needle s with
  | Some _ => true
  | None => match s with
            | EmptyString => false
            | String _ s' => contains needle s'
            end
  end.

(** Does the text start with a word character? ([\b] after a digit holds when
    it does not.) *)
Definition starts_with_word (s : string) : bool :=
  match s with
  | EmptyString => false
  | String c _ => is_word c
  end.

(* ===================================================================== *)
(** * Pattern extractors *)
(* ===================================================================== *)

(** ** [_ISSUE_NUMBER_IN_TITLE_PATTERN = re.compile(r"#\s*(\d+)\b")]

    The matcher follows the backtracking engine: every quantifier is greedy
    and gives characters back when what follows fails. *)

(** [(\d+)\b]: the longest run of digits first, then shorter ones. The
    character before [\b] is a digit, a word character, so [\b] holds exactly
    when no word character follows. *)
Fixpoint digits_boundary (s : string) : option string :=
  match s with
  | EmptyString => None
  | String c s' =>
      if is_digit c then
        match digits_boundary s' with
        | Some ds => Some (String c ds)
        | None => if starts_with_word s' then None else Some (String c EmptyString)
        end
      else None
  end.

(** [\s*(\d+)\b] *)
Fixpoint spaces_digits_boundary (s : string) : option string :=
  match s with
  | EmptyString => None
  | String c s' =>
      if is_space c then
        match spaces_digits_boundary s' with
        | Some ds => Some ds
        | None => digits_boundary s
        end
      else digits_boundary s
  end.

(** [_ISSUE_NUMBER_IN_TITLE_PATTERN.search(title)], then [match.group(1)]:
    the leftmost position at which the pattern matches. *)
Fixpoint issue_number_in_title (title : string) : option string :=
  match title with
  | EmptyString => None
  | String c rest =>
      match (if Ascii.eqb c "#" then spaces_digits_boundary rest else None) with
      | Some ds => Some ds
      | None => issue_number_in_title rest
      end
  end.

(** ** [_ISSUE_NUMBER_PATTERN = re.compile(r"/issues/(\d+)")] *)

(** [(\d+)]: the longest non-empty run of digits. *)
Fixpoint digits1 (s : string) : option string :=
  match s with
  | EmptyString => None
  | String c s' =>
      if is_digit c then
        match digits1 s' with
        | Some ds => Some (String c ds)
        | None => Some (String c EmptyString)
        end
      else None
  end.

(** [extract_issue_number_from_url] (lines 45-48). *)
Fixpoint extract_issue_number_from_url (url : string) : option string :=
  match (match strip_prefix "/issues/" url with
         | Some rest => digits1 rest
         | None => None
         end) with
  | Some ds => Some ds
  | None => match url with
            | EmptyString => None
            | String _ url' => extract_issue_number_from_url url'
            end
  end.

(* ===================================================================== *)
(** * Automation runs and run correlation *)
(* ===================================================================== *)

(** One element of the JSON list printed by
    [gh run list --json databaseId,displayTitle,status,conclusion,createdAt,updatedAt].
    [None] is an absent key. *)
Record Run : Type := mkRun {
  databaseId : option Z;
  displayTitle : option string;
  status : option string;
  conclusion : option string;
  createdAt : option string;
  updatedAt : option string
}.

(** The search loop of [_validate_issue_with_retry] (lines 354-363): the first
    run, in the order of the list, whose title carries the issue number. *)
Fixpoint find_run (issue_number : string) (runs : list Run) : option Run :=
  match runs with
  | [] => None
  | workflow_run :: rest =>
      let title := default "" (displayTitle workflow_run) in
      match issue_number_in_title title with
      | Some issue_num =>
          if String.eqb issue_num issue_number then Some workflow_run
          else find_run issue_number rest
      | None => find_run issue_number rest
      end
  end.

(** The issue number a run is compared by. *)
Definition run_issue_number (r : Run) : option string :=
  issue_number_in_title (default "" (displayTitle r)).


(* ===================================================================== *)
(** * Effects: the trace, the tracker gateway and raised failures *)
(* ===================================================================== *)

Inductive event : Type :=
| Sleep (seconds : nat)                          (* time.sleep(seconds) *)
| GetWorkflowRuns (repo : string)                (* get_workflow_runs(repo) *)
| GetIssueLabels (repo issue_number : string)    (* get_issue_labels(repo, n) *)
| GetIssueComments (repo issue_number : string). (* get_issue_comments(repo, n) *)

Definition trace : Type := list event.

(** One element of the list returned by [get_issue_comments]. *)
Record Comment : Type := mkComment { body : string }.

(** The tracker as seen through the gateway. Every answer may depend on all
    that happened before the call. *)
Record World : Type := mkWorld {
  workflow_runs : trace → string → list Run;
  issue_labels : trace → string → string → list string;
  issue_comments : trace → string → string → list Comment
}.

(** The [AssertionError]s of [unittest.TestCase]. *)
Inductive failure : Type :=
| Fail (msg : string)                       (* self.fail(msg) *)
| NotEqual (first second msg : string).     (* self.assertEqual(first, second, msg) *)

Inductive outcome (A : Type) : Type :=
| Ok (a : A)
| Raise (f : failure).
Arguments Ok {A} a.
Arguments Raise {A} f.

(** Computations: the trace so far in, the outcome and the extended trace
    out. A raised failure skips the rest of the computation. *)
Definition M (A : Type) : Type := trace → outcome A * trace.

#[global] Instance M_ret : MRet M := λ A a t, (Ok a, t).
#[global] Instance M_bind : MBind M := λ A B f m t,
  match m t with
  | (Ok a, t') => f a t'
  | (Raise e, t') => (Raise e, t')
  end.
#[global] Instance M_throw : MThrow failure M := λ A e t, (Raise e, t).

Definition sleep (seconds : nat) : M unit := λ t, (Ok tt, t ++ [Sleep seconds]).

Definition get_workflow_runs (w : World) (repo : string) : M (list Run) :=
  λ t, (Ok (workflow_runs w t repo), t ++ [GetWorkflowRuns repo]).

Definition get_issue_labels (w : World) (repo issue_number : string) : M (list string) :=
  λ t, (Ok (issue_labels w t repo issue_number), t ++ [GetIssueLabels repo issue_number]).

Definition get_issue_comments (w : World) (repo issue_number : string) : M (list Comment) :=
  λ t, (Ok (issue_comments w t repo issue_number), t ++ [GetIssueComments repo issue_number]).

Definition fail {A} (msg : string) : M A := mthrow (Fail msg).

Definition assertEqual (first second msg : string) : M unit :=
  if String.eqb first second then mret tt else mthrow (NotEqual first second msg).

(** How one pass through the body of a [for] loop ends: [continue] (or the
    end of the body), or [return]. *)
Inductive loop_ctl : Type := Continue | Return.

(** [for attempt in attempts: body], in a function that returns [None] after
    the loop. *)
Fixpoint for_attempts (body : nat → M loop_ctl) (attempts : list nat) : M unit :=
  match attempts with
  | [] => mret tt
  | attempt :: rest =>
      c ← body attempt;
      match c with
      | Continue => for_attempts body rest
      | Return => mret tt
      end
  end.

(** [for x in l: body], a body without [break] or [return]. *)
Fixpoint for_each {A} (body : A → M unit) (l : list A) : M unit :=
  match l with
  | [] => mret tt
  | x :: rest => body x;; for_each body rest
  end.

(* ===================================================================== *)
(** * Rendering of values inside f-strings *)
(* ===================================================================== *)

(** [str(n)] of a natural number. *)
Definition str_of_nat (n : nat) : string := NilEmpty.string_of_uint (Nat.to_uint n).

Definition hex_digit (n : nat) : ascii :=
  if n <? 10 then ascii_of_nat (48 + n) else ascii_of_nat (87 + n).

(** One character inside [repr] of a [str] delimited by [quote]. *)
Definition repr_char (quote c : ascii) : string :=
  if Ascii.eqb c quote || Ascii.eqb c "\" then String "\" (String c "")
  else if Ascii.eqb c "009" then "\t"
  else if Ascii.eqb c "010" then "\n"
  else if Ascii.eqb c "013" then "\r"
  else if (nat_of_ascii c <? 32) || (nat_of_ascii c =? 127) then
    String "\" (String "x" (String (hex_digit (nat_of_ascii c / 16))
                              (String (hex_digit (nat_of_ascii c mod 16)) "")))
  else String c "".

Fixpoint repr_chars (quote : ascii) (s : string) : string :=
  match s with
  | EmptyString => ""
  | String c s' => repr_char quote c +:+ repr_chars quote s'
  end.

(** [repr(s)]: single quotes, unless the text has a single quote and no
    double quote (character 34). *)
Definition repr_str (s : string) : string :=
  let quote : ascii :=
    if contains "'" s && negb (contains (String "034" "") s) then "034"%char else "'"%char in
  String quote (repr_chars quote s) +:+ String quote "".

(** [sep.join(l)] *)
Fixpoint join (sep : string) (l : list string) : string :=
  match l with
  | [] => ""
  | [x] => x
  | x :: rest => x +:+ sep +:+ join sep rest
  end.

(** [repr] of a list of strings. *)
Definition repr_list (l : list string) : string :=
  "[" +:+ join ", " (repr_str <$> l) +:+ "]".

(** [sorted(l)] on strings, compared by code point. *)
Definition sorted (l : list string) : list string := merge_sort String.le l.


(* ===================================================================== *)
(** * Label validator *)
(* ===================================================================== *)

(** [s.replace(old, "")] for a non-empty [old]: every occurrence, left to
    right, without overlap. [skip] counts the characters of an occurrence
    still to be dropped. *)
Fixpoint remove_all_from (old : string) (skip : nat) (s : string) : string :=
  match s with
  | EmptyString => ""
  | String c s' =>
      match skip with
      | S k => remove_all_from old k s'
      | O =>
          if startswith old s then remove_all_from old (String.length old - 1) s'
          else String c (remove_all_from old 0 s')
      end
  end.

Definition remove_all (old s : string) : string := remove_all_from old 0 s.

(** [s.split(sep, 1)]: [parts[0]], and [parts[1]] when [sep] occurs. *)
Fixpoint split1 (sep : ascii) (s : string) : string * option string :=
  match s with
  | EmptyString => ("", None)
  | String c s' =>
      if Ascii.eqb c sep then ("", Some s')
      else let '(h, t) := split1 sep s' in (String c h, t)
  end.

(** [parts = label.replace("ai:bug-triage:", "").split("-", 1)], then
    [parts[1]] when [len(parts) >= 2] (lines 500-510 and 518-519). *)
Definition label_component (label : string) : option string :=
  (split1 "-" (remove_all "ai:bug-triage:" label)).2.

(** [set(l)], iterated in the order of first occurrence. (The order in which
    Python iterates a set is not specified; it decides only which of several
    failing labels is reported.) *)
Definition py_set (l : list string) : list string := remove_dups l.

Definition mem (x : string) (l : list string) : bool := bool_decide (x ∈ l).

(** The common head of all failure messages: [Issue {issue_number} ({scenario})]. *)
Definition issue_tag (issue_number scenario : string) : string :=
  "Issue " +:+ issue_number +:+ " (" +:+ scenario +:+ ")".

Definition msg_kind_bug_missing (issue_number scenario : string) (actual_labels : list string) : string :=
  issue_tag issue_number scenario
  +:+ ": Expected 'kind/bug' label to be preserved, but it's missing. "
  +:+ "Actual labels: " +:+ repr_list (sorted actual_labels).

Definition msg_ai_label_not_found (issue_number scenario expected_ai_label : string)
    (actual_labels : list string) : string :=
  issue_tag issue_number scenario
  +:+ ": Expected AI label '" +:+ expected_ai_label +:+ "' not found. "
  +:+ "Actual labels: " +:+ repr_list (sorted actual_labels).

Definition msg_component_not_found (issue_number scenario expected_component : string)
    (actual_labels : list string) : string :=
  issue_tag issue_number scenario
  +:+ ": Expected AI label with component '" +:+ expected_component +:+ "' not found. "
  +:+ "Expected format: ai:bug-triage:*" +:+ expected_component +:+ ". "
  +:+ "Actual labels: " +:+ repr_list (sorted actual_labels).

(** Does an actual label carry the expected component (lines 516-519)? *)
Definition component_matches (expected_component actual_label : string) : bool :=
  startswith "ai:bug-triage:" actual_label
  && bool_decide (label_component actual_label = Some expected_component).

(** The body of [for expected_ai_label in ai_labels] (lines 481-534). *)
Definition validate_ai_label (issue_number scenario : string) (actual_labels : list string)
    (expected_ai_label : string) : M unit :=
  if negb (startswith "ai:bug-triage:" expected_ai_label) then
    if negb (mem expected_ai_label actual_labels) then
      fail (msg_ai_label_not_found issue_number scenario expected_ai_label actual_labels)
    else mret tt
  else
    match label_component expected_ai_label with
    | None =>
        if negb (mem expected_ai_label actual_labels) then
          fail (msg_ai_label_not_found issue_number scenario expected_ai_label actual_labels)
        else mret tt
    | Some expected_component =>
        let found_match := existsb (component_matches expected_component) actual_labels in
        if negb found_match then
          fail (msg_component_not_found issue_number scenario expected_component actual_labels)
        else mret tt
    end.

(** [_validate_issue_labels] (lines 454-534). *)
Definition _validate_issue_labels (w : World) (repo issue_number : string)
    (expected_labels : list string) (scenario : string) : M unit :=
  sleep 2;;
  actual_labels ← get_issue_labels w repo issue_number;
  let expected_labels_set := py_set expected_labels in
  (if mem "kind/bug" expected_labels_set then
     if negb (mem "kind/bug" actual_labels) then
       fail (msg_kind_bug_missing issue_number scenario actual_labels)
     else mret tt
   else mret tt);;
  let ai_labels := filter (λ label, startswith "ai:" label = true) expected_labels_set in
  for_each (validate_ai_label issue_number scenario actual_labels) ai_labels.

(* ===================================================================== *)
(** * Assessment validator *)
(* ===================================================================== *)

(** [([^\n\s]+)]: the longest non-empty run of characters that are not
    white space. Nothing follows it in the pattern. *)
Fixpoint nonspaces1 (s : string) : option string :=
  match s with
  | EmptyString => None
  | String c s' =>
      if is_space c then None
      else match nonspaces1 s' with
           | Some tok => Some (String c tok)
           | None => Some (String c EmptyString)
           end
  end.

(** [\s*([^\n\s]+)] *)
Fixpoint spaces_token (s : string) : option string :=
  match s with
  | EmptyString => None
  | String c s' =>
      if is_space c then
        match spaces_token s' with
        | Some tok => Some tok
        | None => nonspaces1 s
        end
      else nonspaces1 s
  end.

(** [re.search(r"AI Assessment:\s*([^\n\s]+)", body, re.IGNORECASE)], then
    [match.group(1)]. *)
Fixpoint search_assessment (body : string) : option string :=
  match (match strip_prefix_ci "AI Assessment:" body with
         | Some rest => spaces_token rest
         | None => None
         end) with
  | Some tok => Some tok
  | None => match body with
            | EmptyString => None
            | String _ body' => search_assessment body'
            end
  end.

Fixpoint lstrip (s : string) : string :=
  match s with
  | EmptyString => ""
  | String c s' => if is_space c then lstrip s' else s
  end.

Fixpoint rstrip (s : string) : string :=
  match s with
  | EmptyString => ""
  | String c s' =>
      match rstrip s' with
      | EmptyString => if is_space c then "" else String c ""
      | r => String c r
      end
  end.

(** [s.strip()] *)
Definition strip (s : string) : string := lstrip (rstrip s).

Definition severities : list string := ["critical"; "high"; "medium"; "low"].
Definition components : list string :=
  ["coreapi"; "networking"; "installation"; "storage"; "webconsole"; "documentation"].

(** [$] without [re.MULTILINE]: the end of the text, or just before a final
    newline. *)
Definition at_end (s : string) : bool := String.eqb s "" || String.eqb s (String "010" "").

(** [re.match(r"^(critical|high|medium|low)-(coreapi|networking|installation|storage|webconsole|documentation)$",
    found_assessment, re.IGNORECASE)]: the alternatives are tried in order. *)
Definition matches_vocabulary (found_assessment : string) : bool :=
  existsb (λ severity,
    match strip_prefix_ci severity found_assessment with
    | Some rest =>
        match strip_prefix "-" rest with
        | Some rest' =>
            existsb (λ component,
              match strip_prefix_ci component rest' with
              | Some e => at_end e
              | None => false
              end) components
        | None => false
        end
    | None => false
    end) severities.

(** The token of one comment: the marker tested with [in], case-sensitive,
    then the case-insensitive search (lines 568-573 and 603-607). *)
Definition comment_assessment (comment : Comment) : option string :=
  if contains "AI Assessment:" (body comment) then strip <$> search_assessment (body comment)
  else None.

(** The first scan (lines 567-581): does the loop reach its [return]? *)
Definition valid_assessment_found (comments : list Comment) : bool :=
  existsb (λ comment,
    match comment_assessment comment with
    | Some found_assessment => matches_vocabulary found_assessment
    | None => false
    end) comments.

Definition max_comment_retries : nat := 3.
Definition comment_base_wait_seconds : nat := 3.

Definition msg_no_comments (issue_number scenario : string) : string :=
  issue_tag issue_number scenario
  +:+ ": No comments found (expected AI Assessment comment after "
  +:+ str_of_nat (max_comment_retries + 1) +:+ " attempts)".

Definition msg_assessment_invalid (issue_number scenario : string)
    (actual_assessments : list string) : string :=
  issue_tag issue_number scenario
  +:+ ": AI Assessment comment found but format is invalid. "
  +:+ "Expected format: severity-component (e.g., critical-CoreAPI). "
  +:+ "Found: " +:+ join ", " actual_assessments.

Definition msg_assessment_not_found (issue_number scenario : string) : string :=
  issue_tag issue_number scenario
  +:+ ": AI Assessment comment not found in issue comments after "
  +:+ str_of_nat (max_comment_retries + 1) +:+ " attempts".

(** The body of [for attempt in range(max_comment_retries + 1)] (lines
    547-619). [assessment_found] is still [False] wherever it is read: the
    scan returns from the function as soon as it would set it. *)
Definition _validate_ai_assessment_comment_body (w : World) (repo issue_number : string)
    (scenario : string) (attempt : nat) : M loop_ctl :=
  comments ← get_issue_comments w repo issue_number;
  if valid_assessment_found comments then mret Return
  else
    let assessment_found := false in
    if negb assessment_found && (attempt <? max_comment_retries) then
      let wait_time := comment_base_wait_seconds * 2 ^ attempt in
      sleep wait_time;; mret Continue
    else
      (if negb assessment_found then
         match comments with
         | [] => fail (msg_no_comments issue_number scenario)
         | _ =>
             let actual_assessments := omap comment_assessment comments in
             match actual_assessments with
             | _ :: _ => fail (msg_assessment_invalid issue_number scenario actual_assessments)
             | [] => fail (msg_assessment_not_found issue_number scenario)
             end
         end
       else mret tt);;
      mret Return.

(** The failure raised once the attempts are used up (lines 594-618), by the
    comments of the last fetch. *)
Definition msg_assessment_exhausted (issue_number scenario : string)
    (comments : list Comment) : string :=
  match comments with
  | [] => msg_no_comments issue_number scenario
  | _ =>
      match omap comment_assessment comments with
      | _ :: _ =>
          msg_assessment_invalid issue_number scenario (omap comment_assessment comments)
      | [] => msg_assessment_not_found issue_number scenario
      end
  end.

(** [_validate_ai_assessment_comment] (lines 536-619). The parameter
    [expected_assessment] is not read by the function. *)
Definition _validate_ai_assessment_comment (w : World) (repo issue_number : string)
    (expected_assessment : option string) (scenario : string) : M unit :=
  sleep 2;;
  for_attempts (_validate_ai_assessment_comment_body w repo issue_number scenario)
    (seq 0 (max_comment_retries + 1)).

(* ===================================================================== *)
(** * Completion validator and orchestrator *)
(* ===================================================================== *)

(** The metadata recorded for a created issue (lines 302-307); [None] is an
    absent key or Python's [None]. The dictionary is empty for an issue
    without an entry. *)
Record Metadata : Type := mkMetadata {
  is_positive : option bool;
  expected_assessment : option string;
  expected_labels : option (list string);
  scenario : option string
}.

Definition no_metadata : Metadata := mkMetadata None None None None.

Definition max_retries : nat := 3.
Definition base_wait_seconds : nat := 10.

Definition msg_no_run (issue_number scenario : string) : string :=
  issue_tag issue_number scenario +:+ ": No workflow run found".
Definition msg_no_run_id (issue_number scenario : string) : string :=
  issue_tag issue_number scenario +:+ ": No run_id found".
Definition msg_no_created (issue_number scenario : string) : string :=
  issue_tag issue_number scenario +:+ ": No createdAt timestamp".
Definition msg_no_updated (issue_number scenario : string) : string :=
  issue_tag issue_number scenario +:+ ": No updatedAt timestamp".
Definition msg_not_in_time (issue_number scenario : string) : string :=
  issue_tag issue_number scenario +:+ " did not complete after "
  +:+ str_of_nat max_retries +:+ " retries with exponential backoff".
Definition msg_not_completed (issue_number scenario : string) : string :=
  issue_tag issue_number scenario +:+ " did not complete".
Definition msg_not_successful (issue_number scenario : string) : string :=
  issue_tag issue_number scenario +:+ " did not complete successfully".

(** Truth value of [run.get("databaseId")]: [None] and [0] are false. *)
Definition run_id_truthy (run_id : option Z) : bool :=
  match run_id with
  | Some z => negb (Z.eqb z 0)
  | None => false
  end.

Definition nonempty (s : string) : bool := negb (String.eqb s "").

(** Lines 442-450: what follows a validated completion. *)
Definition validate_side_effects (w : World) (repo issue_number : string)
    (metadata : Metadata) (scenario : string) : M unit :=
  (match expected_labels metadata with
   | Some (l :: ls) => _validate_issue_labels w repo issue_number (l :: ls) scenario
   | _ => mret tt
   end);;
  (if from_option id false (is_positive metadata)
      || from_option nonempty false (expected_assessment metadata) then
     _validate_ai_assessment_comment w repo issue_number (expected_assessment metadata) scenario
   else mret tt).

(** The body of [for attempt in range(max_retries + 1)] (lines 349-452). *)
Definition _validate_issue_with_retry_body (w : World) (repo issue_number : string)
    (metadata : Metadata) (attempt : nat) : M loop_ctl :=
  let scenario := default "Unknown" (scenario metadata) in
  runs ← get_workflow_runs w repo;
  match find_run issue_number runs with
  | None =>
      if attempt <? max_retries then
        let wait_time := base_wait_seconds * 2 ^ attempt in
        sleep wait_time;; mret Continue
      else fail (msg_no_run issue_number scenario)
  | Some run =>
      let status := default "unknown" (status run) in
      let conclusion := default "unknown" (conclusion run) in
      let run_id := databaseId run in
      let created := default "" (createdAt run) in
      let updated := default "" (updatedAt run) in
      if negb (run_id_truthy run_id) then fail (msg_no_run_id issue_number scenario)
      else if negb (nonempty created) then fail (msg_no_created issue_number scenario)
      else if negb (nonempty updated) then fail (msg_no_updated issue_number scenario)
      else if String.eqb status "in_progress" && (attempt <? max_retries) then
        let wait_time := base_wait_seconds * 2 ^ attempt in
        sleep wait_time;; mret Continue
      else if String.eqb status "in_progress" then
        fail (msg_not_in_time issue_number scenario)
      else
        assertEqual status "completed" (msg_not_completed issue_number scenario);;
        assertEqual conclusion "success" (msg_not_successful issue_number scenario);;
        validate_side_effects w repo issue_number metadata scenario;;
        mret Return
  end.

(** [_validate_issue_with_retry] (lines 340-452). *)
Definition _validate_issue_with_retry (w : World) (repo issue_number : string)
    (metadata : Metadata) : M unit :=
  for_attempts (_validate_issue_with_retry_body w repo issue_number metadata)
    (seq 0 (max_retries + 1)).

(** The first loop of [validate_test_issues] (lines 329-333). *)
Fixpoint issue_numbers_of (created_issues : list string) : list string :=
  match created_issues with
  | [] => []
  | issue :: rest =>
      match extract_issue_number_from_url issue with
      | Some issue_number =>
          if nonempty issue_number then issue_number :: issue_numbers_of rest
          else issue_numbers_of rest
      | None => issue_numbers_of rest
      end
  end.

(** [validate_test_issues] (lines 324-338). *)
Definition validate_test_issues (w : World) (repo : string) (created_issues : list string)
    (scenario_metadata : gmap string Metadata) : M unit :=
  let issue_numbers := issue_numbers_of created_issues in
  for_each (λ issue_number,
      let metadata := default no_metadata (scenario_metadata !! issue_number) in
      _validate_issue_with_retry w repo issue_number metadata)
    issue_numbers.

(** The fields every correlated snapshot has to carry (lines 388-397). *)
Definition has_required_fields (run : Run) : bool :=
  run_id_truthy (databaseId run)
  && nonempty (default "" (createdAt run))
  && nonempty (default "" (updatedAt run)).

(** The message of the first failing required-field check (lines 389-397). *)
Definition msg_missing_field (issue_number scenario : string) (run : Run) : string :=
  if negb (run_id_truthy (databaseId run)) then msg_no_run_id issue_number scenario
  else if negb (nonempty (default "" (createdAt run))) then msg_no_created issue_number scenario
  else msg_no_updated issue_number scenario.


(* ===================================================================== *)
(** * Sample data *)
(* ===================================================================== *)

Definition sample_run (title status conclusion : string) : Run :=
  mkRun (Some 4711%Z) (Some title) (Some status) (Some conclusion)
        (Some "2024-06-10T08:15:00Z") (Some "2024-06-10T08:16:30Z").

Definition run_1 : Run := sample_run "AI Triage for Issue #1" "completed" "success".
Definition run_1_older : Run := sample_run "AI Triage for Issue #1" "completed" "failure".
Definition run_11 : Run := sample_run "AI Triage for Issue #11" "completed" "success".
Definition run_re_2_for_1 : Run := sample_run "re #2 for #1" "completed" "success".

(** A tracker that gives the same answers at every call. *)
Definition constant_world (runs : list Run) (labels : list string)
    (comments : list Comment) : World :=
  mkWorld (λ _ _, runs) (λ _ _ _, labels) (λ _ _ _, comments).

Definition run_7_success : Run :=
  sample_run "AI Triage for Issue #7" "completed" "success".
(** Still in progress, and the creation timestamp is empty. *)
Definition run_7_no_created : Run :=
  mkRun (Some 4711%Z) (Some "AI Triage for Issue #7") (Some "in_progress") (Some "")
        (Some "") (Some "2024-06-10T08:16:30Z").

Definition body_critical : string :=
  "AI Assessment: critical-CoreAPI" +:+ String "010" "more text".
Definition body_lower_case : string := "ai assessment: critical-coreapi".

Definition labels_coreapi : list string := ["ai:bug-triage:high-coreapi"; "kind/bug"].
Definition labels_networking : list string := ["ai:bug-triage:high-networking"; "kind/bug"].


(** A fixture that expects labels and no assessment comment. *)
Definition metadata_labels_only : Metadata :=
  mkMetadata None None (Some ["kind/bug"; "ai:bug-triage:critical-coreapi"]) (Some "S2").


(** Issue 7 never gets a run; issue 11 has a successful run and the right
    labels. *)
Definition world_only_11 : World := constant_world [run_11] labels_coreapi [].

Definition created_7_and_11 : list string :=
  ["https://github.com/okd-project/okd/issues/7";
   "https://github.com/okd-project/okd/issues/11"].

Definition metadata_for_11 : gmap string Metadata := {[ "11" := metadata_labels_only ]}.

(* ===================================================================== *)
(** * More pattern extractors *)
(* ===================================================================== *)

(** [extract_url_from_output] (lines 51-54):
    [_GITHUB_URL_PATTERN = re.compile(r"https://github\.com/[^\s]+")], the
    whole match of the leftmost position. *)
Fixpoint extract_url_from_output (output : string) : option string :=
  match (match strip_prefix "https://github.com/" output with
         | Some rest => String.app "https://github.com/" <$> nonspaces1 rest
         | None => None
         end) with
  | Some url => Some url
  | None => match output with
            | EmptyString => None
            | String _ output' => extract_url_from_output output'
            end
  end.

(** ** [_REPO_PATTERN = re.compile(r"github\.com[:/]([^/]+/[^/]+?)(?:\.git)?$")] *)

(** [(?:\.git)?$]: the optional group is tried with the suffix first, then
    without it. *)
Definition opt_git_end (s : string) : bool :=
  match strip_prefix ".git" s with
  | Some r => at_end r || at_end s
  | None => at_end s
  end.

(** [[^/]+?(?:\.git)?$]: the lazy quantifier takes one character and grows
    only when what follows does not match. *)
Fixpoint repo_name_lazy (s : string) : option string :=
  match s with
  | EmptyString => None
  | String c s' =>
      if Ascii.eqb c "/" then None
      else if opt_git_end s' then Some (String c "")
      else String c <$> repo_name_lazy s'
  end.

(** [([^/]+/[^/]+?)(?:\.git)?$]: the first [[^/]+] is greedy, the longest
    run is tried first. *)
Fixpoint owner_and_name (s : string) : option string :=
  match s with
  | EmptyString => None
  | String c s' =>
      if Ascii.eqb c "/" then None
      else match owner_and_name s' with
           | Some r => Some (String c r)
           | None =>
               match strip_prefix "/" s' with
               | Some s'' => (λ name, String c (String "/" name)) <$> repo_name_lazy s''
               | None => None
               end
           end
  end.

(** The pattern tried at the start of [s]. *)
Definition repo_here (s : string) : option string :=
  match strip_prefix "github.com" s with
  | Some (String c rest) =>
      if Ascii.eqb c ":" || Ascii.eqb c "/" then owner_and_name rest else None
  | _ => None
  end.

(** [_REPO_PATTERN.search(s)], then [match.group(1)]. *)
Fixpoint search_repo (s : string) : option string :=
  match repo_here s with
  | Some r => Some r
  | None => match s with
            | EmptyString => None
            | String _ s' => search_repo s'
            end
  end.

(** [extract_repo_from_git_url] (lines 37-42). *)
Definition extract_repo_from_git_url (git_url : string) : option string :=
  if String.eqb git_url "" then None
  else search_repo (strip git_url).

(* ===================================================================== *)
(** * The shell: [run_command] and what is built on it *)
(* ===================================================================== *)

(** The command lines run so far, oldest first. *)
Definition history : Type := list (list string).

(** [run_command] (lines 63-69) as seen by its callers: exit code, stdout
    and stderr of a command line; the answer may depend on everything run
    before. *)
Record Shell : Type := mkShell {
  command_result : history → list string → Z * string * string
}.

Definition run_command (sh : Shell) (cmd : list string) (h : history)
    : (Z * string * string) * history :=
  (command_result sh h cmd, h ++ [cmd]).

(** Truth value of an [Optional[str]]: [None] and the empty string are
    false. *)
Definition truthy (o : option string) : bool := from_option nonempty false o.

(** [check_gh_cli] (lines 72-75). *)
Definition check_gh_cli (sh : Shell) (h : history) : bool * history :=
  let '((exit_code, _, _), h1) := run_command sh ["gh"; "--version"] h in
  (Z.eqb exit_code 0, h1).

(** [check_gh_auth] (lines 78-81). *)
Definition check_gh_auth (sh : Shell) (h : history) : bool * history :=
  let '((exit_code, _, _), h1) := run_command sh ["gh"; "auth"; "status"] h in
  (Z.eqb exit_code 0, h1).

Definition cmd_git_remote : list string := ["git"; "remote"; "get-url"; "origin"].
Definition cmd_gh_repo_view : list string :=
  ["gh"; "repo"; "view"; "--json"; "nameWithOwner"; "-q"; ".nameWithOwner"].

(** [get_repository] (lines 84-100). *)
Definition get_repository (sh : Shell) (h : history) : option string * history :=
  let '((exit_code, stdout, _), h1) := run_command sh cmd_git_remote h in
  let from_git :=
    if Z.eqb exit_code 0 && nonempty stdout then
      let repo := extract_repo_from_git_url stdout in
      if truthy repo then repo else None
    else None in
  match from_git with
  | Some repo => (Some repo, h1)
  | None =>
      let '((exit_code, stdout, _), h2) := run_command sh cmd_gh_repo_view h1 in
      if Z.eqb exit_code 0 && nonempty stdout then (Some (strip stdout), h2)
      else (None, h2)
  end.

(** The JSON object printed by [gh issue view --json title,body,labels];
    [None] is an absent key, and the labels are given by their names. *)
Record Issue : Type := mkIssue {
  issue_title : option string;
  issue_body : option string;
  issue_label_names : option (list string)
}.

(** The empty dictionary [{}]. *)
Definition no_issue : Issue := mkIssue None None None.

Definition is_no_issue (issue : Issue) : bool :=
  bool_decide (issue_title issue = None) && bool_decide (issue_body issue = None)
  && bool_decide (issue_label_names issue = None).

Definition cmd_issue_view (repo issue_number : string) : list string :=
  ["gh"; "issue"; "view"; issue_number; "--repo"; repo; "--json"; "title,body,labels"].

(** [get_issue] (lines 154-177). [json_loads] stands for [json.loads] on the
    output of [gh]; [None] is its [JSONDecodeError]. *)
Definition get_issue (sh : Shell) (json_loads : string → option Issue)
    (repo issue_number : string) (h : history) : Issue * history :=
  let '((exit_code, stdout, _), h1) := run_command sh (cmd_issue_view repo issue_number) h in
  if negb (Z.eqb exit_code 0) then (no_issue, h1)
  else if nonempty stdout then (default no_issue (json_loads stdout), h1)
  else (no_issue, h1).

(** The comparison made by [verify_issue] on the issue it fetched (lines
    633-671); [issues_found] collects the mismatches. *)
Definition verify_fetched_issue (issue : Issue) (expected_title expected_body : string)
    (expected_labels : list string) : bool :=
  if is_no_issue issue then false
  else
    let issues_found : list string := [] in
    let issues_found :=
      if bool_decide (issue_title issue ≠ Some expected_title)
      then issues_found ++ ["title"] else issues_found in
    let issues_found :=
      if negb (String.eqb (rstrip (default "" (issue_body issue))) (rstrip expected_body))
      then issues_found ++ ["body"] else issues_found in
    let actual_labels : gset string := list_to_set (default [] (issue_label_names issue)) in
    let expected_labels_set : gset string := list_to_set expected_labels in
    let issues_found :=
      if bool_decide (actual_labels ≠ expected_labels_set)
      then issues_found ++ ["labels"] else issues_found in
    match issues_found with
    | _ :: _ => false
    | [] => true
    end.

(** [verify_issue] (lines 622-675). *)
Definition verify_issue (sh : Shell) (json_loads : string → option Issue)
    (repo issue_number expected_title expected_body : string)
    (expected_labels : list string) (h : history) : bool * history :=
  let '(issue, h1) := get_issue sh json_loads repo issue_number h in
  (verify_fetched_issue issue expected_title expected_body expected_labels, h1).

Definition WORKFLOW_WAIT_SECONDS : nat := 10.

(** The command line built by [create_test_issue] (lines 120-122). *)
Definition cmd_issue_create (repo title body : string) (labels : list string) : list string :=
  ["gh"; "issue"; "create"; "--repo"; repo; "--title"; title; "--body"; body]
  ++ flat_map (λ label, ["--label"; label]) labels.

(** [create_test_issue] (lines 111-151): the URL of the new issue, or
    [None]. The verification only logs. *)
Definition create_test_issue (sh : Shell) (json_loads : string → option Issue)
    (repo title body : string) (labels : list string) (scenario : string)
    (h : history) : M (option string * history) :=
  let '((exit_code, stdout, stderr), h1) :=
    run_command sh (cmd_issue_create repo title body labels) h in
  if negb (Z.eqb exit_code 0) then mret (None, h1)
  else
    let issue_url := extract_url_from_output stdout in
    let issue_url :=
      if negb (truthy issue_url) then extract_url_from_output stderr else issue_url in
    if negb (truthy issue_url) then mret (None, h1)
    else
      let issue_number := extract_issue_number_from_url (default "" issue_url) in
      let h2 :=
        if truthy issue_number then
          (verify_issue sh json_loads repo (default "" issue_number) title body labels h1).2
        else h1 in
      sleep WORKFLOW_WAIT_SECONDS;;
      mret (issue_url, h2).

(** One element of the scenario catalogue ([get_test_scenarios]); the last
    three keys are read with [get]. *)
Record Test : Type := mkTest {
  test_title : string;
  test_body : string;
  test_labels : list string;
  test_scenario : string;
  test_is_positive : option bool;
  test_expected_assessment : option string;
  test_expected_labels : option (list string)
}.

(** The metadata stored for a created issue (lines 302-307). *)
Definition metadata_of_test (test : Test) : Metadata :=
  mkMetadata (Some (default false (test_is_positive test)))
             (test_expected_assessment test)
             (Some (default (test_labels test) (test_expected_labels test)))
             (Some (test_scenario test)).

(** The creation loop of [test_workflow] (lines 286-307). *)
Fixpoint create_issues (sh : Shell) (json_loads : string → option Issue) (repo : string)
    (test_scenarios : list Test) (created_issues : list string)
    (scenario_metadata : gmap string Metadata) (h : history)
    : M (list string * gmap string Metadata * history) :=
  match test_scenarios with
  | [] => mret (created_issues, scenario_metadata, h)
  | test :: rest =>
      '(issue_url, h1) ← create_test_issue sh json_loads repo (test_title test)
                           (test_body test) (test_labels test) (test_scenario test) h;
      if truthy issue_url then
        let created_issues := created_issues ++ [default "" issue_url] in
        let issue_number := extract_issue_number_from_url (default "" issue_url) in
        let scenario_metadata :=
          if truthy issue_number
          then <[default "" issue_number := metadata_of_test test]> scenario_metadata
          else scenario_metadata in
        create_issues sh json_loads repo rest created_issues scenario_metadata h1
      else create_issues sh json_loads repo rest created_issues scenario_metadata h1
  end.

(** [test_workflow] (lines 282-322), for the repository found by
    [setUpClass] and a catalogue of scenarios. *)
Definition test_workflow (sh : Shell) (json_loads : string → option Issue) (w : World)
    (repo : string) (test_scenarios : list Test) (h : history) : M history :=
  '(created_issues, scenario_metadata, h1) ←
    create_issues sh json_loads repo test_scenarios [] ∅ h;
  validate_test_issues w repo created_issues scenario_metadata;;
  mret h1.

(** Sample shells: git knows the remote and [gh] is missing; git fails and
    [gh] knows the repository. *)
Definition shell_git_ok : Shell :=
  mkShell (λ _ cmd, if bool_decide (cmd = cmd_git_remote)
                    then (0%Z, "git@github.com:okd-project/okd.git" +:+ String "010" "", "")
                    else (1%Z, "", "gh: not found")).

Definition shell_git_fails : Shell :=
  mkShell (λ _ cmd, if bool_decide (cmd = cmd_git_remote)
                    then (128%Z, "", "fatal: not a git repository")
                    else (0%Z, "okd-project/okd" +:+ String "010" "", "")).

(** An issue as fetched back: labels in another order and one repeated, a
    newline after the body. *)
Definition fetched_issue_sample : Issue :=
  mkIssue (Some "[TEST] Scenario 5: Incomplete Bug Report")
          (Some ("My cluster doesn't work. Help!" +:+ String "010" ""))
          (Some ["ai:bug-triage:medium-coreapi"; "kind/bug"; "kind/bug"]).

Definition test_scenario_5 : Test :=
  mkTest "[TEST] Scenario 5: Incomplete Bug Report" "My cluster doesn't work. Help!"
         ["kind/bug"] "Scenario 5: Incomplete Bug Report - Missing Details"
         (Some true) (Some "Missing Details")
         (Some ["kind/bug"; "ai:bug-triage:medium-coreapi"]).

(** [gh issue create] prints the URL of issue 17 on stdout; every other
    command fails. *)
Definition shell_creates_17 : Shell :=
  mkShell (λ _ cmd,
    if bool_decide (take 3 cmd = ["gh"; "issue"; "create"])
    then (0%Z, "https://github.com/okd-project/okd/issues/17" +:+ String "010" "", "")
    else (1%Z, "", "not found")).

(** Every command fails. *)
Definition shell_down : Shell := mkShell (λ _ _, (1%Z, "", "gh: command not found")).

(* ===================================================================== *)
(** * Measures and reference points used in the statements *)
(* ===================================================================== *)

(** Seconds slept in a stretch of trace. *)
Fixpoint total_sleep (k : trace) : nat :=
  match k with
  | [] => 0
  | Sleep seconds :: k' => seconds + total_sleep k'
  | _ :: k' => total_sleep k'
  end.

(** Calls to the tracker gateway in a stretch of trace. *)
Fixpoint gateway_calls (k : trace) : nat :=
  match k with
  | [] => 0
  | Sleep _ :: k' => gateway_calls k'
  | _ :: k' => S (gateway_calls k')
  end.

(** The trace just before probe number [k] (from 0) of the completion
    validator started at [t]: [k] probes, each followed by its wait. *)
Definition before_probe (repo : string) (t : trace) (k : nat) : trace :=
  t ++ flat_map (λ attempt, [GetWorkflowRuns repo; Sleep (base_wait_seconds * 2 ^ attempt)])
         (seq 0 k).

(** The trace just before fetch number [k] (from 0) of the assessment
    validator started at [t]. *)
Definition before_fetch (repo issue_number : string) (t : trace) (k : nat) : trace :=
  t ++ [Sleep 2]
    ++ flat_map (λ attempt, [GetIssueComments repo issue_number;
                             Sleep (comment_base_wait_seconds * 2 ^ attempt)])
         (seq 0 k).

(** What the label validator asks of one expected [ai:] label (lines
    481-534): a label of the shape [ai:bug-triage:severity-component] is
    matched by any [ai:bug-triage:] label of the issue with that component,
    any other label by itself. *)
Definition label_satisfied (actual_labels : list string) (expected_ai_label : string) : Prop :=
  match (if startswith "ai:bug-triage:" expected_ai_label
         then label_component expected_ai_label else None) with
  | Some expected_component =>
      ∃ actual_label, actual_label ∈ actual_labels
                      ∧ startswith "ai:bug-triage:" actual_label = true
                      ∧ label_component actual_label = Some expected_component
  | None => expected_ai_label ∈ actual_labels
  end.

(** A text in lower case, letter by letter. *)
Fixpoint lower (s : string) : string :=
  match s with
  | EmptyString => ""
  | String c s' => String (to_lower c) (lower s')
  end.

(** A probe that leaves the completion validator waiting: no run for the
    issue yet, or a run with its required fields that is still in
    progress. *)
Definition probe_pending (w : World) (repo issue_number : string) (t : trace) : Prop :=
  find_run issue_number (workflow_runs w t repo) = None
  ∨ ∃ run, find_run issue_number (workflow_runs w t repo) = Some run
           ∧ has_required_fields run = true ∧ status run = Some "in_progress".

(** [t'] extends [t] by at most [s] seconds of sleep and [c] gateway calls. *)
Definition within (t t' : trace) (s c : nat) : Prop :=
  ∃ k, t' = t ++ k ∧ total_sleep k ≤ s ∧ gateway_calls k ≤ c.

Definition run_17_queued : Run := sample_run "AI Triage for Issue #17" "queued" "".
Definition run_17_success : Run := sample_run "AI Triage for Issue #17" "completed" "success".

(** The run of issue 17 shows up only at the third probe. *)
Definition world_late_run : World :=
  mkWorld (λ t _, if decide (length t < 4) then [run_11] else [run_17_success; run_11])
          (λ _ _ _, []) (λ _ _ _, []).

(** The assessment comment shows up only at the second fetch. *)
Definition world_late_comment : World :=
  mkWorld (λ _ _, []) (λ _ _ _, [])
          (λ t _ _, if decide (length t < 3) then [mkComment "Thanks for the report"]
                    else [mkComment "Thanks for the report"; mkComment body_critical]).

(** [setUpClass] (lines 256-280): the repository stored in the class, or
    [None] where the method ends the process with [sys.exit(1)]. *)
Definition setUpClass (sh : Shell) (h : history) : option string * history :=
  let '(cli, h1) := check_gh_cli sh h in
  if negb cli then (None, h1)
  else
    let '(auth, h2) := check_gh_auth sh h1 in
    if negb auth then (None, h2)
    else
      let '(repo, h3) := get_repository sh h2 in
      if negb (truthy repo) then (None, h3) else (repo, h3).

(** [gh] is installed and authenticated, git has no remote, and
    [gh repo view] prints an empty line. *)
Definition shell_blank_repo : Shell :=
  mkShell (λ _ cmd,
    if bool_decide (cmd = cmd_git_remote) then (128%Z, "", "fatal: not a git repository")
    else if bool_decide (cmd = cmd_gh_repo_view) then (0%Z, String "010" "", "")
    else (0%Z, "ok", "")).

(* ===================================================================== *)
(** * The model on sample inputs *)
(* ===================================================================== *)

Example title_1 : issue_number_in_title "AI Triage for Issue #1" = Some "1".
Proof. reflexivity. Qed.
Example title_11 : issue_number_in_title "AI Triage for Issue #11" = Some "11".
Proof. reflexivity. Qed.
Example title_sp : issue_number_in_title "Issue # 42: x" = Some "42".
Proof. reflexivity. Qed.
Example title_nb : issue_number_in_title "#12ab then #7" = Some "7".
Proof. reflexivity. Qed.
Example url_1 : extract_issue_number_from_url "https://github.com/o/r/issues/17" = Some "17".
Proof. reflexivity. Qed.
Example repr_list_ex :
  repr_list (sorted ["kind/bug"; "ai:bug-triage:high-networking"])
  = "['ai:bug-triage:high-networking', 'kind/bug']".
Proof. vm_compute. reflexivity. Qed.
Example repr_str_single_quote :
  repr_str "it's" = String "034" ("it's" +:+ String "034" "").
Proof. vm_compute. reflexivity. Qed.
Example label_component_ex : label_component "ai:bug-triage:critical-coreapi" = Some "coreapi".
Proof. reflexivity. Qed.
Example label_component_none : label_component "ai:bug-triage:triaged" = None.
Proof. reflexivity. Qed.
Example search_assessment_ex : search_assessment body_critical = Some "critical-CoreAPI".
Proof. reflexivity. Qed.
Example vocabulary_ex :
  matches_vocabulary "critical-CoreAPI" = true ∧ matches_vocabulary "urgent-thing" = false
  ∧ matches_vocabulary "LOW-Documentation" = true ∧ matches_vocabulary "high-storage-x" = false.
Proof. split_and!; reflexivity. Qed.

(* ===================================================================== *)
(** * Properties of the pattern extractors and of run correlation *)
(* ===================================================================== *)


Lemma app_cons (c : ascii) (s1 s2 : string) : String c s1 +:+ s2 = String c (s1 +:+ s2).
Proof. reflexivity. Qed.

Lemma app_empty (s : string) : "" +:+ s = s.
Proof. reflexivity. Qed.

Lemma digit_not_space (c : ascii) : is_digit c = true → is_space c = false.
Proof. destruct c as [[] [] [] [] [] [] [] []]; vm_compute; congruence. Qed.

Lemma digit_is_word (c : ascii) : is_digit c = true → is_word c = true.
Proof. unfold is_word. intros ->. reflexivity. Qed.

Lemma digits_boundary_None_nondigit (s : string) :
  starts_with_word s = false → digits_boundary s = None.
Proof.
  destruct s as [|c s]; simpl; [done|].
  intros Hw. destruct (is_digit c) eqn:Hd; [|done].
  apply digit_is_word in Hd. congruence.
Qed.

(** A maximal run of digits, followed by no word character, is what
    [(\d+)\b] captures. *)
Lemma digits_boundary_run (ds post : string) :
  string_forall is_digit ds = true → ds ≠ "" → starts_with_word post = false →
  digits_boundary (ds +:+ post) = Some ds.
Proof.
  intros Hds Hne Hpost. induction ds as [|c ds IH]; [done|].
  simpl in Hds. apply andb_true_iff in Hds as [Hc Hds].
  rewrite app_cons. simpl. rewrite Hc.
  destruct ds as [|c' ds'].
  - rewrite app_empty, digits_boundary_None_nondigit, Hpost; done.
  - rewrite IH; done.
Qed.

Lemma spaces_digits_boundary_run (ws ds post : string) :
  string_forall is_space ws = true →
  string_forall is_digit ds = true → ds ≠ "" → starts_with_word post = false →
  spaces_digits_boundary (ws +:+ ds +:+ post) = Some ds.
Proof.
  intros Hws Hds Hne Hpost. induction ws as [|c ws IH].
  - rewrite app_empty. destruct ds as [|d ds]; [done|].
    pose proof (digits_boundary_run (String d ds) post Hds Hne Hpost) as Hrun.
    rewrite app_cons in *. simpl in Hds. apply andb_true_iff in Hds as [Hd _].
    cbn [spaces_digits_boundary]. rewrite (digit_not_space _ Hd). exact Hrun.
  - simpl in Hws. apply andb_true_iff in Hws as [Hc Hws].
    rewrite app_cons. cbn [spaces_digits_boundary]. rewrite Hc, IH; done.
Qed.

(** The search stops at the first [#]-token: what follows it is never read. *)
Lemma issue_number_in_title_first (pre ws ds post : string) :
  string_forall (λ c, negb (Ascii.eqb c "#")) pre = true →
  string_forall is_space ws = true →
  string_forall is_digit ds = true → ds ≠ "" → starts_with_word post = false →
  issue_number_in_title (pre +:+ "#" +:+ ws +:+ ds +:+ post) = Some ds.
Proof.
  intros Hpre Hws Hds Hne Hpost. induction pre as [|c pre IH].
  - rewrite app_empty, app_cons, app_empty. cbn [issue_number_in_title].
    rewrite Ascii.eqb_refl, spaces_digits_boundary_run; done.
  - simpl in Hpre. apply andb_true_iff in Hpre as [Hc Hpre].
    rewrite app_cons. cbn [issue_number_in_title].
    apply negb_true_iff in Hc. rewrite Hc. auto.
Qed.

(** [find_run] returns the first run, in input order, whose extracted issue
    number equals the target identifier as a string. *)
Lemma find_run_spec (issue_number : string) (runs : list Run) (r : Run) :
  find_run issue_number runs = Some r ↔
  ∃ pre post, runs = pre ++ r :: post
              ∧ run_issue_number r = Some issue_number
              ∧ Forall (λ r', run_issue_number r' ≠ Some issue_number) pre.
Proof.
  unfold run_issue_number. induction runs as [|x runs IH]; simpl.
  - split; [done|]. intros (pre & post & Heq & _). by destruct pre.
  - destruct (issue_number_in_title (default "" (displayTitle x))) as [k|] eqn:Hx.
    + destruct (String.eqb_spec k issue_number) as [->|Hne].
      * split.
        -- intros [= <-]. exists [], runs. by rewrite Hx.
        -- intros ([|y pre] & post & Heq & Hr & Hpre).
           ++ by injection Heq as ->.
           ++ injection Heq as -> _. apply Forall_cons in Hpre as [Hy _]. congruence.
      * rewrite IH. split.
        -- intros (pre & post & -> & Hr & Hpre). exists (x :: pre), post.
           split_and!; [done..|]. constructor; [congruence|done].
        -- intros ([|y pre] & post & Heq & Hr & Hpre).
           ++ injection Heq as ->. congruence.
           ++ injection Heq as -> ->. apply Forall_cons in Hpre as [_ Hpre]. eauto.
    + rewrite IH. split.
      * intros (pre & post & -> & Hr & Hpre). exists (x :: pre), post.
        split_and!; [done..|]. constructor; [congruence|done].
      * intros ([|y pre] & post & Heq & Hr & Hpre).
        -- injection Heq as ->. congruence.
        -- injection Heq as -> ->. apply Forall_cons in Hpre as [_ Hpre]. eauto.
Qed.

Lemma find_run_Some_iff (issue_number : string) (runs : list Run) :
  is_Some (find_run issue_number runs) ↔
  ∃ r, r ∈ runs ∧ run_issue_number r = Some issue_number.
Proof.
  unfold run_issue_number. induction runs as [|x runs IH]; simpl.
  - split; [by intros [? ?]|]. intros (r & Hr & _). by apply elem_of_nil in Hr.
  - destruct (issue_number_in_title (default "" (displayTitle x))) as [k|] eqn:Hx.
    + destruct (String.eqb_spec k issue_number) as [->|Hne].
      * split; [|by eauto]. intros _. exists x. split; [left|done].
      * rewrite IH. split.
        -- intros (r & Hr & Hk). exists r. split; [by right|done].
        -- intros (r & Hr & Hk). apply elem_of_cons in Hr as [->|Hr]; [congruence|eauto].
    + rewrite IH. split.
      * intros (r & Hr & Hk). exists r. split; [by right|done].
      * intros (r & Hr & Hk). apply elem_of_cons in Hr as [->|Hr]; [congruence|eauto].
Qed.


Example find_run_1_not_11 : find_run "1" [run_11; run_1; run_1_older] = Some run_1.
Proof. reflexivity. Qed.
Example find_run_11_only : find_run "1" [run_11] = None.
Proof. reflexivity. Qed.
Example find_run_second_token : find_run "1" [run_re_2_for_1] = None.
Proof. reflexivity. Qed.

(* ===================================================================== *)
(** * Running computations *)
(* ===================================================================== *)

Lemma bind_run {A B} (m : M A) (f : A → M B) (t : trace) :
  (m ≫= f) t = match m t with
               | (Ok a, t') => f a t'
               | (Raise e, t') => (Raise e, t')
               end.
Proof. reflexivity. Qed.

Lemma for_attempts_cons (body : nat → M loop_ctl) (attempt : nat) (rest : list nat) (t : trace) :
  for_attempts body (attempt :: rest) t =
  match body attempt t with
  | (Ok Continue, t') => for_attempts body rest t'
  | (Ok Return, t') => (Ok tt, t')
  | (Raise e, t') => (Raise e, t')
  end.
Proof.
  cbn [for_attempts]. rewrite bind_run.
  destruct (body attempt t) as [[[]|e] t']; reflexivity.
Qed.

Lemma for_attempts_continue (body : nat → M loop_ctl) (attempt : nat) (rest : list nat)
    (t t' : trace) :
  body attempt t = (Ok Continue, t') →
  for_attempts body (attempt :: rest) t = for_attempts body rest t'.
Proof. intros H. by rewrite for_attempts_cons, H. Qed.

Lemma for_attempts_raise (body : nat → M loop_ctl) (attempt : nat) (rest : list nat)
    (t t' : trace) (e : failure) :
  body attempt t = (Raise e, t') →
  for_attempts body (attempt :: rest) t = (Raise e, t').
Proof. intros H. by rewrite for_attempts_cons, H. Qed.

Lemma for_attempts_return (body : nat → M loop_ctl) (attempt : nat) (rest : list nat)
    (t t' : trace) :
  body attempt t = (Ok Return, t') →
  for_attempts body (attempt :: rest) t = (Ok tt, t').
Proof. intros H. by rewrite for_attempts_cons, H. Qed.

Lemma for_each_cons {A} (body : A → M unit) (x : A) (rest : list A) (t : trace) :
  for_each body (x :: rest) t =
  match body x t with
  | (Ok _, t') => for_each body rest t'
  | (Raise e, t') => (Raise e, t')
  end.
Proof. reflexivity. Qed.

Lemma then_return (m : M unit) (t : trace) :
  (m;; mret Return) t = match m t with
                        | (Ok _, t') => (Ok Return, t')
                        | (Raise e, t') => (Raise e, t')
                        end.
Proof. reflexivity. Qed.

Lemma snoc2 {A} (l : list A) (x y : A) : (l ++ [x]) ++ [y] = l ++ [x; y].
Proof. by rewrite <- app_assoc. Qed.

Lemma snoc_app {A} (l k : list A) (y : A) : (l ++ k) ++ [y] = l ++ (k ++ [y]).
Proof. by rewrite <- app_assoc. Qed.

(** Message texts differ as soon as they differ after the common head. *)
Lemma tagged_neq (issue_number scenario s1 s2 : string) :
  s1 ≠ s2 →
  issue_tag issue_number scenario +:+ s1 ≠ issue_tag issue_number scenario +:+ s2.
Proof. intros Hne Heq. by apply (inj (String.app _)) in Heq. Qed.

(* ===================================================================== *)
(** * One attempt of the completion validator *)
(* ===================================================================== *)

Section Attempt.
Context (w : World) (repo issue_number : string) (metadata : Metadata).

#[local] Abbreviation body := (_validate_issue_with_retry_body w repo issue_number metadata).
#[local] Abbreviation scen := (default "Unknown" (scenario metadata)).

Lemma attempt_no_run (attempt : nat) (t : trace) :
  find_run issue_number (workflow_runs w t repo) = None →
  body attempt t =
  if attempt <? max_retries
  then (Ok Continue, t ++ [GetWorkflowRuns repo; Sleep (base_wait_seconds * 2 ^ attempt)])
  else (Raise (Fail (msg_no_run issue_number scen)), t ++ [GetWorkflowRuns repo]).
Proof.
  intros Hnone. unfold _validate_issue_with_retry_body, get_workflow_runs.
  rewrite bind_run, Hnone.
  destruct (attempt <? max_retries); [|reflexivity].
  unfold sleep. rewrite bind_run, snoc2. reflexivity.
Qed.

Lemma attempt_missing_field (attempt : nat) (t : trace) (run : Run) :
  find_run issue_number (workflow_runs w t repo) = Some run →
  has_required_fields run = false →
  body attempt t =
  (Raise (Fail (msg_missing_field issue_number scen run)), t ++ [GetWorkflowRuns repo]).
Proof.
  intros Hrun Hreq. unfold _validate_issue_with_retry_body, get_workflow_runs.
  rewrite bind_run, Hrun. unfold has_required_fields in Hreq. unfold msg_missing_field.
  destruct (run_id_truthy (databaseId run)); [|reflexivity].
  destruct (nonempty (default "" (createdAt run))); [|reflexivity].
  destruct (nonempty (default "" (updatedAt run))); [discriminate|reflexivity].
Qed.

Lemma attempt_in_progress (attempt : nat) (t : trace) (run : Run) :
  find_run issue_number (workflow_runs w t repo) = Some run →
  has_required_fields run = true →
  status run = Some "in_progress" →
  body attempt t =
  if attempt <? max_retries
  then (Ok Continue, t ++ [GetWorkflowRuns repo; Sleep (base_wait_seconds * 2 ^ attempt)])
  else (Raise (Fail (msg_not_in_time issue_number scen)), t ++ [GetWorkflowRuns repo]).
Proof.
  intros Hrun Hreq Hst. unfold _validate_issue_with_retry_body, get_workflow_runs.
  rewrite bind_run, Hrun, Hst. unfold has_required_fields in Hreq.
  apply andb_true_iff in Hreq as [[-> ->]%andb_true_iff ->]. simpl.
  destruct (attempt <? max_retries); [|reflexivity].
  unfold sleep. rewrite bind_run, snoc2. reflexivity.
Qed.

Lemma attempt_completed (attempt : nat) (t : trace) (run : Run) :
  find_run issue_number (workflow_runs w t repo) = Some run →
  has_required_fields run = true →
  status run = Some "completed" →
  body attempt t =
  (assertEqual (default "unknown" (conclusion run)) "success"
     (msg_not_successful issue_number scen);;
   validate_side_effects w repo issue_number metadata scen;;
   mret Return) (t ++ [GetWorkflowRuns repo]).
Proof.
  intros Hrun Hreq Hst. unfold _validate_issue_with_retry_body, get_workflow_runs.
  rewrite bind_run, Hrun, Hst. unfold has_required_fields in Hreq.
  apply andb_true_iff in Hreq as [[-> ->]%andb_true_iff ->]. reflexivity.
Qed.

Lemma attempt_success (attempt : nat) (t : trace) (run : Run) :
  find_run issue_number (workflow_runs w t repo) = Some run →
  has_required_fields run = true →
  status run = Some "completed" → conclusion run = Some "success" →
  body attempt t =
  (validate_side_effects w repo issue_number metadata scen;; mret Return)
    (t ++ [GetWorkflowRuns repo]).
Proof.
  intros Hrun Hreq Hst Hc. rewrite (attempt_completed _ _ run) by done.
  rewrite Hc. reflexivity.
Qed.


(** A validated completion hands over to the label and assessment checks. *)
Lemma validated_then_side_effects (attempt : nat) (rest : list nat) (t : trace) (run : Run) :
  find_run issue_number (workflow_runs w t repo) = Some run →
  has_required_fields run = true →
  status run = Some "completed" → conclusion run = Some "success" →
  for_attempts body (attempt :: rest) t =
  validate_side_effects w repo issue_number metadata scen (t ++ [GetWorkflowRuns repo]).
Proof.
  intros Hrun Hreq Hst Hc.
  rewrite for_attempts_cons, (attempt_success _ _ run), then_return by done.
  by destruct (validate_side_effects _ _ _ _ _ _) as [[[]|e] t'].
Qed.

End Attempt.

(* ===================================================================== *)
(** * Run correlation: the claims *)
(* ===================================================================== *)

(** C2. Run correlation compares the token extracted from the title with the
    identifier by string equality: in any list of runs holding a run titled
    with [#1] and a run titled with [#11], correlating against ["1"] selects a
    run, that run is titled with [#1] and is not the [#11] run, and it is the
    first run in input order whose title token equals ["1"]. *)
Theorem run_correlation_exact_match (runs : list Run) (r1 r11 : Run) :
  r1 ∈ runs → r11 ∈ runs →
  run_issue_number r1 = Some "1" → run_issue_number r11 = Some "11" →
  ∃ r pre post,
    find_run "1" runs = Some r
    ∧ runs = pre ++ r :: post
    ∧ run_issue_number r = Some "1"
    ∧ r ≠ r11
    ∧ Forall (λ r', run_issue_number r' ≠ Some "1") pre.
Proof.
  intros H1 H11 Hr1 Hr11.
  assert (is_Some (find_run "1" runs)) as [r Hr].
  { apply find_run_Some_iff. eauto. }
  pose proof Hr as Hfound.
  apply find_run_spec in Hr as (pre & post & Heq & Htok & Hpre).
  exists r, pre, post. split_and!; try done.
  intros ->. rewrite Hr11 in Htok. discriminate.
Qed.

Lemma run_correlation_exact_match_witness :
  run_1 ∈ [run_11; run_1; run_1_older] ∧ run_11 ∈ [run_11; run_1; run_1_older]
  ∧ run_issue_number run_1 = Some "1" ∧ run_issue_number run_11 = Some "11"
  ∧ ∃ r pre post,
      find_run "1" [run_11; run_1; run_1_older] = Some r
      ∧ [run_11; run_1; run_1_older] = pre ++ r :: post
      ∧ run_issue_number r = Some "1"
      ∧ r ≠ run_11
      ∧ Forall (λ r', run_issue_number r' ≠ Some "1") pre.
Proof.
  assert (run_1 ∈ [run_11; run_1; run_1_older]) as H1 by (right; left).
  assert (run_11 ∈ [run_11; run_1; run_1_older]) as H11 by left.
  split_and!; [exact H1|exact H11|reflexivity|reflexivity|].
  exact (run_correlation_exact_match _ run_1 run_11 H1 H11 eq_refl eq_refl).
Defined.

(** C10. Only the first [#]-token of a display title is compared. A title
    made of text without [#], then [#], optional white space and digits [ds]
    not followed by a word character, then any text at all (further
    [#]-tokens included), yields [ds]; a run with such a title is never
    selected for an identifier other than [ds]. *)
Theorem correlation_reads_first_token_only
    (pre ws ds post issue_number : string) (r : Run) (runs : list Run) :
  string_forall (λ c, negb (Ascii.eqb c "#")) pre = true →
  string_forall is_space ws = true →
  string_forall is_digit ds = true → ds ≠ "" →
  starts_with_word post = false →
  displayTitle r = Some (pre +:+ "#" +:+ ws +:+ ds +:+ post) →
  issue_number ≠ ds →
  run_issue_number r = Some ds ∧ find_run issue_number runs ≠ Some r.
Proof.
  intros Hpre Hws Hds Hne Hpost Htitle Hother.
  assert (run_issue_number r = Some ds) as Hr.
  { unfold run_issue_number. rewrite Htitle. simpl.
    by apply issue_number_in_title_first. }
  split; [done|].
  intros (_ & _ & _ & Htok & _)%find_run_spec. congruence.
Qed.

Lemma correlation_reads_first_token_only_witness :
  run_issue_number run_re_2_for_1 = Some "2"
  ∧ find_run "1" [run_re_2_for_1; run_11] ≠ Some run_re_2_for_1.
Proof.
  apply (correlation_reads_first_token_only "re " "" "2" " for #1" "1"
           run_re_2_for_1 [run_re_2_for_1; run_11]);
    first [reflexivity | discriminate].
Defined.

(* ===================================================================== *)
(** * The completion validator: the claims *)
(* ===================================================================== *)

Lemma has_required_fields_false (run : Run) :
  databaseId run = None ∨ databaseId run = Some 0%Z
  ∨ createdAt run = None ∨ createdAt run = Some ""
  ∨ updatedAt run = None ∨ updatedAt run = Some "" →
  has_required_fields run = false.
Proof.
  unfold has_required_fields.
  intros [H|[H|[H|[H|[H|H]]]]]; rewrite H; simpl;
    rewrite ?andb_false_r; reflexivity.
Qed.


(** C3. With [max_retries = 3] and [base_wait_seconds = 10], when no run is
    ever correlated the validator probes four times, waits 10, 20 and 40
    seconds between the probes (base * 2^attempt, attempt from 0; nothing
    before the first probe), and then fails with "No workflow run found". *)
Theorem no_run_backoff_schedule (w : World) (repo issue_number : string)
    (metadata : Metadata) (t : trace) :
  (∀ t', find_run issue_number (workflow_runs w t' repo) = None) →
  _validate_issue_with_retry w repo issue_number metadata t =
  (Raise (Fail (issue_tag issue_number (default "Unknown" (scenario metadata))
                +:+ ": No workflow run found")),
   t ++ [GetWorkflowRuns repo; Sleep 10;
         GetWorkflowRuns repo; Sleep 20;
         GetWorkflowRuns repo; Sleep 40;
         GetWorkflowRuns repo])
  ∧ (λ attempt, base_wait_seconds * 2 ^ attempt) <$> seq 0 max_retries = [10; 20; 40].
Proof.
  intros Hnone. split; [|reflexivity].
  unfold _validate_issue_with_retry. change (seq 0 (max_retries + 1)) with [0; 1; 2; 3].
  do 3 (erewrite for_attempts_continue;
          [|rewrite attempt_no_run by apply Hnone; reflexivity]).
  erewrite for_attempts_raise; [|rewrite attempt_no_run by apply Hnone; reflexivity].
  rewrite <- !app_assoc. reflexivity.
Qed.

Lemma no_run_backoff_schedule_witness :
  (∀ t', find_run "7" (workflow_runs (constant_world [run_11] [] []) t' "okd/okd") = None)
  ∧ _validate_issue_with_retry (constant_world [run_11] [] []) "okd/okd" "7" no_metadata [] =
    (Raise (Fail "Issue 7 (Unknown): No workflow run found"),
     [GetWorkflowRuns "okd/okd"; Sleep 10; GetWorkflowRuns "okd/okd"; Sleep 20;
      GetWorkflowRuns "okd/okd"; Sleep 40; GetWorkflowRuns "okd/okd"]).
Proof.
  assert (∀ t', find_run "7" (workflow_runs (constant_world [run_11] [] []) t' "okd/okd") = None)
    as Hnone by (intros t'; reflexivity).
  split; [exact Hnone|].
  exact (proj1 (no_run_backoff_schedule (constant_world [run_11] [] []) "okd/okd" "7"
                  no_metadata [] Hnone)).
Defined.



(** C8. A correlated snapshot whose run identifier, created-at or updated-at
    is missing or empty fails the validator at once, at whatever attempt it
    is fetched and whatever its status (in progress with retries left
    included): nothing is waited for and no further probe is made. *)
Theorem missing_field_fails_without_retry (w : World) (repo issue_number : string)
    (metadata : Metadata) (attempt : nat) (rest : list nat) (t : trace) (run : Run) :
  find_run issue_number (workflow_runs w t repo) = Some run →
  databaseId run = None ∨ databaseId run = Some 0%Z
  ∨ createdAt run = None ∨ createdAt run = Some ""
  ∨ updatedAt run = None ∨ updatedAt run = Some "" →
  for_attempts (_validate_issue_with_retry_body w repo issue_number metadata)
    (attempt :: rest) t =
  (Raise (Fail (msg_missing_field issue_number (default "Unknown" (scenario metadata)) run)),
   t ++ [GetWorkflowRuns repo])
  ∧ _validate_issue_with_retry w repo issue_number metadata t =
    (Raise (Fail (msg_missing_field issue_number (default "Unknown" (scenario metadata)) run)),
     t ++ [GetWorkflowRuns repo])
  ∧ msg_missing_field issue_number (default "Unknown" (scenario metadata)) run
    ∈ [msg_no_run_id issue_number (default "Unknown" (scenario metadata));
       msg_no_created issue_number (default "Unknown" (scenario metadata));
       msg_no_updated issue_number (default "Unknown" (scenario metadata))].
Proof.
  intros Hrun Hmissing%has_required_fields_false. split_and!.
  - by apply for_attempts_raise, attempt_missing_field.
  - by apply for_attempts_raise, attempt_missing_field.
  - unfold msg_missing_field. repeat case_match; set_solver.
Qed.

Lemma missing_field_fails_without_retry_witness :
  status run_7_no_created = Some "in_progress"
  ∧ for_attempts
      (_validate_issue_with_retry_body (constant_world [run_7_no_created] [] [])
         "okd/okd" "7" no_metadata) [1; 2; 3] [GetWorkflowRuns "okd/okd"; Sleep 10] =
    (Raise (Fail "Issue 7 (Unknown): No createdAt timestamp"),
     [GetWorkflowRuns "okd/okd"; Sleep 10; GetWorkflowRuns "okd/okd"])
  ∧ _validate_issue_with_retry (constant_world [run_7_no_created] [] [])
      "okd/okd" "7" no_metadata [] =
    (Raise (Fail "Issue 7 (Unknown): No createdAt timestamp"), [GetWorkflowRuns "okd/okd"]).
Proof.
  split; [reflexivity|]. split.
  - refine (proj1 (missing_field_fails_without_retry (constant_world [run_7_no_created] [] [])
                     "okd/okd" "7" no_metadata 1 [2; 3] [GetWorkflowRuns "okd/okd"; Sleep 10]
                     run_7_no_created eq_refl _)).
    do 3 right. left. reflexivity.
  - refine (proj1 (proj2 (missing_field_fails_without_retry
                     (constant_world [run_7_no_created] [] [])
                     "okd/okd" "7" no_metadata 0 [] [] run_7_no_created eq_refl _))).
    do 3 right. left. reflexivity.
Defined.

(* ===================================================================== *)
(** * The label validator *)
(* ===================================================================== *)

Lemma labels_run (w : World) (repo issue_number : string) (expected : list string)
    (scen : string) (t : trace) :
  _validate_issue_labels w repo issue_number expected scen t =
  let actual := issue_labels w (t ++ [Sleep 2]) repo issue_number in
  let t2 := t ++ [Sleep 2; GetIssueLabels repo issue_number] in
  if mem "kind/bug" (py_set expected) && negb (mem "kind/bug" actual)
  then (Raise (Fail (msg_kind_bug_missing issue_number scen actual)), t2)
  else for_each (validate_ai_label issue_number scen actual)
         (filter (λ label, startswith "ai:" label = true) (py_set expected)) t2.
Proof.
  unfold _validate_issue_labels, sleep, get_issue_labels.
  rewrite !bind_run, snoc2. cbv zeta.
  destruct (mem "kind/bug" (py_set expected)); [|reflexivity].
  destruct (mem "kind/bug" _); reflexivity.
Qed.

(** The check of one expected label leaves the trace as it is. *)
Lemma validate_ai_label_trace (issue_number scen : string) (actual : list string)
    (e : string) (t : trace) :
  (validate_ai_label issue_number scen actual e t).2 = t.
Proof. unfold validate_ai_label. repeat case_match; reflexivity. Qed.

Lemma for_each_ai_label_trace (issue_number scen : string) (actual es : list string)
    (t : trace) :
  (for_each (validate_ai_label issue_number scen actual) es t).2 = t.
Proof.
  induction es as [|e es IH]; [reflexivity|].
  rewrite for_each_cons.
  pose proof (validate_ai_label_trace issue_number scen actual e t) as He.
  destruct (validate_ai_label _ _ _ e t) as [[[]|f] t']; simpl in He; subst t'; auto.
Qed.

(** The label validator sleeps once, reads the labels once, and does nothing
    else that can be observed. *)
Lemma labels_trace (w : World) (repo issue_number : string) (expected : list string)
    (scen : string) (t : trace) :
  (_validate_issue_labels w repo issue_number expected scen t).2
  = t ++ [Sleep 2; GetIssueLabels repo issue_number].
Proof.
  rewrite labels_run. cbv zeta. case_match; [reflexivity|].
  apply for_each_ai_label_trace.
Qed.

(** An expected label outside the [ai:bug-triage:severity-component] shape is
    looked up literally. *)
Lemma validate_ai_label_literal (issue_number scen : string) (actual : list string)
    (e : string) (t : trace) :
  startswith "ai:bug-triage:" e = false ∨ label_component e = None →
  validate_ai_label issue_number scen actual e t =
  if mem e actual then (Ok tt, t)
  else (Raise (Fail (msg_ai_label_not_found issue_number scen e actual)), t).
Proof.
  unfold validate_ai_label. intros [Hp|Hc].
  - rewrite Hp. simpl. by destruct (mem e actual).
  - rewrite Hc. destruct (startswith "ai:bug-triage:" e); simpl; by destruct (mem e actual).
Qed.

(** C6. Expected labels [kind/bug] and [ai:bug-triage:critical-coreapi] (in
    any order): the validator passes when the issue has [kind/bug] and
    [ai:bug-triage:high-coreapi], and fails when it has [kind/bug] and
    [ai:bug-triage:high-networking], with a message that names the expected
    component and lists all the actual labels. An expected [ai:] label that
    is not of the shape [ai:bug-triage:severity-component] passes exactly
    when the issue has that very label, alone in the expected set or as one
    label among others. *)
Theorem label_matching_fuzzy_on_severity (w : World) (repo issue_number scen : string)
    (t : trace) (expected : list string) :
  expected ≡ₚ ["kind/bug"; "ai:bug-triage:critical-coreapi"] →
  (issue_labels w (t ++ [Sleep 2]) repo issue_number
     ≡ₚ ["kind/bug"; "ai:bug-triage:high-coreapi"] →
   _validate_issue_labels w repo issue_number expected scen t =
   (Ok tt, t ++ [Sleep 2; GetIssueLabels repo issue_number]))
  ∧ (issue_labels w (t ++ [Sleep 2]) repo issue_number
       ≡ₚ ["kind/bug"; "ai:bug-triage:high-networking"] →
     _validate_issue_labels w repo issue_number expected scen t =
     (Raise (Fail (issue_tag issue_number scen
                   +:+ ": Expected AI label with component 'coreapi' not found. "
                   +:+ "Expected format: ai:bug-triage:*coreapi. "
                   +:+ "Actual labels: ['ai:bug-triage:high-networking', 'kind/bug']")),
      t ++ [Sleep 2; GetIssueLabels repo issue_number]))
  ∧ (∀ e, startswith "ai:" e = true →
          startswith "ai:bug-triage:" e = false ∨ label_component e = None →
     _validate_issue_labels w repo issue_number [e] scen t =
     if mem e (issue_labels w (t ++ [Sleep 2]) repo issue_number)
     then (Ok tt, t ++ [Sleep 2; GetIssueLabels repo issue_number])
     else (Raise (Fail (issue_tag issue_number scen
                        +:+ ": Expected AI label '" +:+ e +:+ "' not found. "
                        +:+ "Actual labels: "
                        +:+ repr_list (sorted (issue_labels w (t ++ [Sleep 2])
                                                 repo issue_number)))),
           t ++ [Sleep 2; GetIssueLabels repo issue_number]))
  ∧ (∀ e actual t',
       startswith "ai:bug-triage:" e = false ∨ label_component e = None →
       validate_ai_label issue_number scen actual e t' =
       if mem e actual then (Ok tt, t')
       else (Raise (Fail (issue_tag issue_number scen
                          +:+ ": Expected AI label '" +:+ e +:+ "' not found. "
                          +:+ "Actual labels: " +:+ repr_list (sorted actual))), t')).
Proof.
  intros Hexp. symmetry in Hexp. apply Permutation_length_2_inv in Hexp.
  split_and!.
  - intros Hact. symmetry in Hact. apply Permutation_length_2_inv in Hact.
    rewrite labels_run. cbv zeta.
    destruct Hexp as [-> | ->], Hact as [-> | ->]; reflexivity.
  - intros Hact. symmetry in Hact. apply Permutation_length_2_inv in Hact.
    rewrite labels_run. cbv zeta.
    destruct Hexp as [-> | ->], Hact as [-> | ->]; reflexivity.
  - intros e Hai Hshape. rewrite labels_run. cbv zeta.
    assert (e ≠ "kind/bug") as Hne by (intros ->; discriminate Hai).
    assert (py_set [e] = [e]) as -> by reflexivity.
    assert (mem "kind/bug" [e] = false) as ->.
    { apply bool_decide_eq_false. rewrite list_elem_of_singleton. congruence. }
    simpl. rewrite filter_cons, decide_True by done. rewrite filter_nil.
    rewrite for_each_cons, validate_ai_label_literal by done.
    by destruct (mem e _).
  - intros e actual t' Hshape. by apply validate_ai_label_literal.
Qed.

Lemma label_matching_fuzzy_on_severity_witness :
  _validate_issue_labels (constant_world [] labels_coreapi []) "okd/okd" "7"
    ["ai:bug-triage:critical-coreapi"; "kind/bug"] "S1" [] =
  (Ok tt, [Sleep 2; GetIssueLabels "okd/okd" "7"])
  ∧ _validate_issue_labels (constant_world [] labels_networking []) "okd/okd" "7"
      ["ai:bug-triage:critical-coreapi"; "kind/bug"] "S1" [] =
    (Raise (Fail ("Issue 7 (S1): Expected AI label with component 'coreapi' not found. "
                  +:+ "Expected format: ai:bug-triage:*coreapi. "
                  +:+ "Actual labels: ['ai:bug-triage:high-networking', 'kind/bug']")),
     [Sleep 2; GetIssueLabels "okd/okd" "7"])
  ∧ _validate_issue_labels (constant_world [] labels_coreapi []) "okd/okd" "7"
      ["ai:needs-info"] "S1" [] =
    (Raise (Fail ("Issue 7 (S1): Expected AI label 'ai:needs-info' not found. "
                  +:+ "Actual labels: ['ai:bug-triage:high-coreapi', 'kind/bug']")),
     [Sleep 2; GetIssueLabels "okd/okd" "7"]).
Proof.
  assert (["ai:bug-triage:critical-coreapi"; "kind/bug"]
            ≡ₚ ["kind/bug"; "ai:bug-triage:critical-coreapi"]) as Hexp by apply perm_swap.
  split_and!.
  - refine (proj1 (label_matching_fuzzy_on_severity (constant_world [] labels_coreapi [])
                     "okd/okd" "7" "S1" [] _ Hexp) _).
    apply perm_swap.
  - refine (proj1 (proj2 (label_matching_fuzzy_on_severity
                     (constant_world [] labels_networking [])
                     "okd/okd" "7" "S1" [] _ Hexp)) _).
    apply perm_swap.
  - refine (proj1 (proj2 (proj2 (label_matching_fuzzy_on_severity
                     (constant_world [] labels_coreapi [])
                     "okd/okd" "7" "S1" [] _ Hexp))) "ai:needs-info" eq_refl _).
    left. reflexivity.
Defined.

(* ===================================================================== *)
(** * The assessment validator *)
(* ===================================================================== *)

Lemma assessment_attempt (w : World) (repo issue_number scen : string) (attempt : nat)
    (t : trace) :
  _validate_ai_assessment_comment_body w repo issue_number scen attempt t =
  let comments := issue_comments w t repo issue_number in
  if valid_assessment_found comments
  then (Ok Return, t ++ [GetIssueComments repo issue_number])
  else if attempt <? max_comment_retries
  then (Ok Continue, t ++ [GetIssueComments repo issue_number;
                           Sleep (comment_base_wait_seconds * 2 ^ attempt)])
  else (Raise (Fail (msg_assessment_exhausted issue_number scen comments)),
        t ++ [GetIssueComments repo issue_number]).
Proof.
  unfold _validate_ai_assessment_comment_body, get_issue_comments.
  rewrite bind_run. cbv zeta.
  destruct (valid_assessment_found _); [reflexivity|].
  destruct (attempt <? max_comment_retries).
  - simpl. unfold sleep. rewrite bind_run, snoc2. reflexivity.
  - simpl. unfold msg_assessment_exhausted.
    destruct (issue_comments w t repo issue_number) as [|c cs]; [reflexivity|].
    destruct (omap comment_assessment (c :: cs)); reflexivity.
Qed.

Lemma assessment_run (w : World) (repo issue_number : string) (ea : option string)
    (scen : string) (t : trace) :
  _validate_ai_assessment_comment w repo issue_number ea scen t =
  for_attempts (_validate_ai_assessment_comment_body w repo issue_number scen)
    [0; 1; 2; 3] (t ++ [Sleep 2]).
Proof. reflexivity. Qed.


(** Without a valid assessment at any fetch the validator fetches four
    times, waits 3, 6 and 12 seconds in between, and fails by the comments of
    the last fetch. *)
Lemma assessment_exhausted (w : World) (repo issue_number : string)
    (ea : option string) (scen : string) (t : trace) :
  (∀ t', valid_assessment_found (issue_comments w t' repo issue_number) = false) →
  _validate_ai_assessment_comment w repo issue_number ea scen t =
  (Raise (Fail (msg_assessment_exhausted issue_number scen
                  (issue_comments w
                     (t ++ [Sleep 2; GetIssueComments repo issue_number; Sleep 3;
                            GetIssueComments repo issue_number; Sleep 6;
                            GetIssueComments repo issue_number; Sleep 12])
                     repo issue_number))),
   t ++ [Sleep 2; GetIssueComments repo issue_number; Sleep 3;
         GetIssueComments repo issue_number; Sleep 6;
         GetIssueComments repo issue_number; Sleep 12;
         GetIssueComments repo issue_number]).
Proof.
  intros Hnone. rewrite assessment_run.
  do 3 (erewrite for_attempts_continue;
          [|rewrite assessment_attempt; cbv zeta; rewrite Hnone; reflexivity]).
  erewrite for_attempts_raise;
    [|rewrite assessment_attempt; cbv zeta; rewrite Hnone; reflexivity].
  rewrite <- !app_assoc. reflexivity.
Qed.


Lemma no_marker_no_assessment (c : Comment) :
  contains "AI Assessment:" (body c) = false → comment_assessment c = None.
Proof. unfold comment_assessment. by intros ->. Qed.

Lemma no_marker_nothing_found (comments : list Comment) :
  Forall (λ c, contains "AI Assessment:" (body c) = false) comments →
  valid_assessment_found comments = false ∧ omap comment_assessment comments = [].
Proof.
  induction 1 as [|c cs Hc _ [IHv IHo]]; [done|].
  apply no_marker_no_assessment in Hc. unfold valid_assessment_found in *.
  cbn [existsb omap list_omap]. rewrite Hc. done.
Qed.

Lemma msg_assessment_invalid_distinct (issue_number scen : string) (toks : list string) :
  msg_assessment_invalid issue_number scen toks
  ∉ [msg_no_comments issue_number scen; msg_assessment_not_found issue_number scen].
Proof.
  rewrite !not_elem_of_cons. split_and!; try apply not_elem_of_nil;
    apply tagged_neq; intros H; vm_compute in H; discriminate H.
Qed.



(** C9. The marker is looked for with its exact letter case. When no comment
    of the issue contains "AI Assessment:" in that very spelling (other
    spellings, such as "ai assessment:", may be there), every comment counts
    as carrying no assessment, and the validator fails after the fourth fetch
    with "AI Assessment comment not found in issue comments after 4
    attempts", never with the message for a malformed token. *)
Theorem marker_detection_case_sensitive (w : World) (repo issue_number : string)
    (ea : option string) (scen : string) (t : trace) :
  (∀ t', issue_comments w t' repo issue_number ≠ []
         ∧ Forall (λ c, contains "AI Assessment:" (body c) = false)
             (issue_comments w t' repo issue_number)) →
  (∀ t' c, c ∈ issue_comments w t' repo issue_number → comment_assessment c = None)
  ∧ _validate_ai_assessment_comment w repo issue_number ea scen t =
    (Raise (Fail (issue_tag issue_number scen
                  +:+ ": AI Assessment comment not found in issue comments after 4 attempts")),
     t ++ [Sleep 2; GetIssueComments repo issue_number; Sleep 3;
           GetIssueComments repo issue_number; Sleep 6;
           GetIssueComments repo issue_number; Sleep 12;
           GetIssueComments repo issue_number])
  ∧ ∀ toks, msg_assessment_not_found issue_number scen
            ≠ msg_assessment_invalid issue_number scen toks.
Proof.
  intros Hno. split_and!.
  - intros t' c Hc. apply no_marker_no_assessment.
    destruct (Hno t') as [_ Hall]. rewrite Forall_forall in Hall. by apply Hall.
  - rewrite assessment_exhausted.
    + match goal with
      | |- context [issue_comments w ?t0 repo issue_number] =>
          destruct (Hno t0) as [Hne [_ Hnil]%no_marker_nothing_found];
          unfold msg_assessment_exhausted; rewrite Hnil;
          destruct (issue_comments w t0 repo issue_number); [done|reflexivity]
      end.
    + intros t'. destruct (Hno t') as [_ Hall]. by apply no_marker_nothing_found.
  - intros toks Heq.
    pose proof (msg_assessment_invalid_distinct issue_number scen toks) as Hd.
    rewrite <- Heq in Hd. apply Hd. right. left.
Qed.

Lemma marker_detection_case_sensitive_witness :
  contains "AI Assessment:" body_lower_case = false
  ∧ strip <$> search_assessment body_lower_case = Some "critical-coreapi"
  ∧ matches_vocabulary "critical-coreapi" = true
  ∧ _validate_ai_assessment_comment (constant_world [] [] [mkComment body_lower_case])
      "okd/okd" "7" None "S1" [] =
    (Raise (Fail "Issue 7 (S1): AI Assessment comment not found in issue comments after 4 attempts"),
     [Sleep 2; GetIssueComments "okd/okd" "7"; Sleep 3;
      GetIssueComments "okd/okd" "7"; Sleep 6;
      GetIssueComments "okd/okd" "7"; Sleep 12;
      GetIssueComments "okd/okd" "7"]).
Proof.
  split_and!; [reflexivity..|].
  refine (proj1 (proj2 (marker_detection_case_sensitive
            (constant_world [] [] [mkComment body_lower_case])
            "okd/okd" "7" None "S1" [] _))).
  intros t'. split; [discriminate|].
  constructor; [reflexivity|constructor].
Defined.

(* ===================================================================== *)
(** * Failures propagate: labels before assessment, issue after issue *)
(* ===================================================================== *)






Lemma for_each_app {A} (body : A → M unit) (l1 l2 : list A) (t : trace) :
  for_each body (l1 ++ l2) t =
  match for_each body l1 t with
  | (Ok _, t') => for_each body l2 t'
  | (Raise e, t') => (Raise e, t')
  end.
Proof.
  revert t. induction l1 as [|x l1 IH]; intros t; [reflexivity|].
  rewrite <- app_comm_cons, !for_each_cons.
  destruct (body x t) as [[[]|e] t']; [apply IH|reflexivity].
Qed.

(** C1 (as amended). The orchestrator validates the created issues in
    order and stops at the first failure: when the issues before one issue
    pass and that issue fails, the failure of that issue is the outcome of
    [validate_test_issues] and the trace ends where that issue failed, so
    no issue after it is validated. When no issue can fail, the orchestrator
    returns normally. *)
Theorem first_failure_stops_orchestrator (w : World) (repo : string)
    (created_issues : list string) (scenario_metadata : gmap string Metadata) (t : trace) :
  let validate := λ issue_number,
    _validate_issue_with_retry w repo issue_number
      (default no_metadata (scenario_metadata !! issue_number)) in
  (∀ before failing after f t1 t2,
     issue_numbers_of created_issues = before ++ failing :: after →
     for_each validate before t = (Ok tt, t1) →
     validate failing t1 = (Raise f, t2) →
     validate_test_issues w repo created_issues scenario_metadata t = (Raise f, t2))
  ∧ ((∀ issue_number t0, issue_number ∈ issue_numbers_of created_issues →
                         (validate issue_number t0).1 = Ok tt) →
     (validate_test_issues w repo created_issues scenario_metadata t).1 = Ok tt).
Proof.
  intros validate. unfold validate_test_issues. fold validate. cbv zeta. split.
  - intros before failing after f t1 t2 Hnums Hbefore Hfail.
    rewrite Hnums, for_each_app, Hbefore, for_each_cons, Hfail. reflexivity.
  - generalize (issue_numbers_of created_issues) as issue_numbers.
    intros issue_numbers. revert t.
    induction issue_numbers as [|n ns IH]; intros t Hpass; [reflexivity|].
    rewrite for_each_cons.
    pose proof (Hpass n t (list_elem_of_here _ _)) as Hn.
    destruct (validate n t) as [[[]|e] t']; [|discriminate Hn].
    apply IH. intros m t0 Hm. apply Hpass. by right.
Qed.

Lemma first_failure_stops_orchestrator_witness :
  issue_numbers_of created_7_and_11 = ["7"; "11"]
  ∧ validate_test_issues world_only_11 "okd/okd" created_7_and_11 metadata_for_11 [] =
    (Raise (Fail "Issue 7 (Unknown): No workflow run found"),
     [GetWorkflowRuns "okd/okd"; Sleep 10; GetWorkflowRuns "okd/okd"; Sleep 20;
      GetWorkflowRuns "okd/okd"; Sleep 40; GetWorkflowRuns "okd/okd"])
  ∧ (validate_test_issues (constant_world [run_11; run_7_success] labels_coreapi [])
       "okd/okd" created_7_and_11 metadata_for_11 []).1 = Ok tt.
Proof.
  split; [reflexivity|]. split.
  - apply (proj1 (first_failure_stops_orchestrator world_only_11 "okd/okd" created_7_and_11
                    metadata_for_11 []) [] "7" ["11"] _ [] _); reflexivity.
  - apply (proj2 (first_failure_stops_orchestrator
                    (constant_world [run_11; run_7_success] labels_coreapi [])
                    "okd/okd" created_7_and_11 metadata_for_11 [])).
    intros issue_number t0 Hin.
    change (issue_numbers_of created_7_and_11) with ["7"; "11"] in Hin.
    apply elem_of_cons in Hin as [-> | Hin]; [reflexivity|].
    apply list_elem_of_singleton in Hin as ->. reflexivity.
Defined.

(** C1, the claim as stated fails: issue 7 fails (no run is ever found) and
    issue 11, which comes after it and would pass, is not validated: its
    labels are never read and the trace holds the four probes of issue 7
    only. *)
Lemma failure_prevents_later_validation :
  issue_numbers_of created_7_and_11 = ["7"; "11"]
  ∧ validate_test_issues world_only_11 "okd/okd" created_7_and_11 metadata_for_11 [] =
    (Raise (Fail "Issue 7 (Unknown): No workflow run found"),
     [GetWorkflowRuns "okd/okd"; Sleep 10; GetWorkflowRuns "okd/okd"; Sleep 20;
      GetWorkflowRuns "okd/okd"; Sleep 40; GetWorkflowRuns "okd/okd"])
  ∧ _validate_issue_with_retry world_only_11 "okd/okd" "11" metadata_labels_only
      [GetWorkflowRuns "okd/okd"; Sleep 10; GetWorkflowRuns "okd/okd"; Sleep 20;
       GetWorkflowRuns "okd/okd"; Sleep 40; GetWorkflowRuns "okd/okd"] =
    (Ok tt,
     [GetWorkflowRuns "okd/okd"; Sleep 10; GetWorkflowRuns "okd/okd"; Sleep 20;
      GetWorkflowRuns "okd/okd"; Sleep 40; GetWorkflowRuns "okd/okd";
      GetWorkflowRuns "okd/okd"; Sleep 2; GetIssueLabels "okd/okd" "11"]).
Proof. split_and!; vm_compute; reflexivity. Qed.

Example all_issues_pass :
  validate_test_issues (constant_world [run_11; run_7_success] labels_coreapi [])
    "okd/okd" created_7_and_11 metadata_for_11 [] =
  (Ok tt, [GetWorkflowRuns "okd/okd"; GetWorkflowRuns "okd/okd"; Sleep 2;
           GetIssueLabels "okd/okd" "11"]).
Proof. vm_compute. reflexivity. Qed.

(* ===================================================================== *)
(** * The pattern extractors: what they return *)
(* ===================================================================== *)

Example repo_https :
  extract_repo_from_git_url "https://github.com/okd-project/okd.git" = Some "okd-project/okd".
Proof. reflexivity. Qed.
Example repo_second_occurrence :
  extract_repo_from_git_url "https://github.com/github.com/x/y" = Some "x/y".
Proof. reflexivity. Qed.
Example repo_three_segments : extract_repo_from_git_url "https://github.com/a/b/c" = None.
Proof. reflexivity. Qed.
Example url_in_output :
  extract_url_from_output ("Creating issue in o/r" +:+ String "010" "https://github.com/o/r/issues/12"
                           +:+ String "010" "") = Some "https://github.com/o/r/issues/12".
Proof. reflexivity. Qed.

Lemma app_assoc_str (s1 s2 s3 : string) : (s1 +:+ s2) +:+ s3 = s1 +:+ s2 +:+ s3.
Proof. induction s1 as [|c s1 IH]; [reflexivity|]. by rewrite !app_cons, IH. Qed.

Lemma app_empty_r (s : string) : s +:+ "" = s.
Proof. induction s as [|c s IH]; [reflexivity|]. by rewrite app_cons, IH. Qed.

Lemma length_app_str (s1 s2 : string) :
  String.length (s1 +:+ s2) = String.length s1 + String.length s2.
Proof. induction s1 as [|c s1 IH]; [reflexivity|]. rewrite app_cons. simpl. by rewrite IH. Qed.

Lemma string_forall_app (p : ascii → bool) (s1 s2 : string) :
  string_forall p (s1 +:+ s2) = string_forall p s1 && string_forall p s2.
Proof.
  induction s1 as [|c s1 IH]; [reflexivity|].
  rewrite app_cons. simpl. by rewrite IH, andb_assoc.
Qed.

Lemma strip_prefix_app (p s : string) : strip_prefix p (p +:+ s) = Some s.
Proof.
  induction p as [|c p IH]; [by destruct s|].
  rewrite app_cons. simpl. by rewrite Ascii.eqb_refl.
Qed.

Lemma strip_prefix_Some (p s r : string) : strip_prefix p s = Some r → s = p +:+ r.
Proof.
  revert s. induction p as [|c p IH]; intros s.
  - destruct s; by intros [= <-].
  - destruct s as [|d s]; [done|]. simpl.
    destruct (Ascii.eqb_spec c d) as [->|]; [|done].
    intros ->%IH. by rewrite app_cons.
Qed.

(** A failing prefix test keeps failing when text is added at the end,
    unless the text tested was itself a beginning of the prefix. *)
Lemma strip_prefix_None_app (p s x : string) :
  strip_prefix p s = None → strip_prefix s p = None → strip_prefix p (s +:+ x) = None.
Proof.
  revert s. induction p as [|c p IH]; intros s; [by destruct s|].
  destruct s as [|d s]; [done|]. rewrite app_cons. simpl.
  rewrite (Ascii.eqb_sym d c). destruct (Ascii.eqb c d); [|done].
  apply IH.
Qed.

Lemma digits1_digits (s ds : string) :
  digits1 s = Some ds → ds ≠ "" ∧ string_forall is_digit ds = true.
Proof.
  revert ds. induction s as [|c s IH]; intros ds; [done|]. simpl.
  destruct (is_digit c) eqn:Hc; [|done].
  destruct (digits1 s) as [ds'|].
  - intros [= <-]. destruct (IH ds' eq_refl) as [_ Hds]. simpl. by rewrite Hc, Hds.
  - intros [= <-]. simpl. by rewrite Hc.
Qed.

Lemma digits1_run (ds post : string) :
  string_forall is_digit ds = true → ds ≠ "" →
  match post with String c _ => is_digit c | EmptyString => false end = false →
  digits1 (ds +:+ post) = Some ds.
Proof.
  intros Hds Hne Hpost. induction ds as [|c ds IH]; [done|].
  simpl in Hds. apply andb_true_iff in Hds as [Hc Hds].
  rewrite app_cons. simpl. rewrite Hc. destruct ds as [|c' ds'].
  - rewrite app_empty. destruct post as [|d post]; [done|]. simpl. by rewrite Hpost.
  - by rewrite IH.
Qed.

Lemma digits1_None_app (r s : string) :
  digits1 r = None →
  match s with String c _ => is_digit c | EmptyString => false end = false →
  digits1 (r +:+ s) = None.
Proof.
  intros Hr Hs. destruct r as [|c r].
  - rewrite app_empty. destruct s as [|d s]; [done|]. simpl. by rewrite Hs.
  - rewrite app_cons. simpl in *. destruct (is_digit c); [|done].
    by destruct (digits1 r).
Qed.

(** The pattern [/issues/(\d+)] tried at the start of a text. *)
Lemma issue_number_here_None_app (b x : string) :
  b ≠ "" →
  match strip_prefix "/issues/" b with Some rest => digits1 rest | None => None end = None →
  match strip_prefix "/issues/" (b +:+ "/issues/" +:+ x) with
  | Some rest => digits1 rest
  | None => None
  end = None.
Proof.
  intros Hne Hb.
  destruct (strip_prefix "/issues/" b) as [r|] eqn:Hr.
  - apply strip_prefix_Some in Hr as ->.
    rewrite app_assoc_str, strip_prefix_app. by apply digits1_None_app.
  - destruct (strip_prefix b "/issues/") as [r|] eqn:Hrev.
    + apply strip_prefix_Some in Hrev.
      assert (In b ["/"; "/i"; "/is"; "/iss"; "/issu"; "/issue"; "/issues"; "/issues/"])
        as Hin.
      { clear -Hrev Hne.
        destruct b as [|? b]; [done|]. rewrite app_cons in Hrev. injection Hrev as <- Hrev.
        do 7 (destruct b as [|? b]; [simpl; tauto|];
              rewrite app_cons in Hrev; injection Hrev as <- Hrev).
        destruct b; [simpl; tauto|]. rewrite app_cons in Hrev. discriminate Hrev. }
      simpl in Hin.
      repeat (destruct Hin as [<-|Hin]; [first [reflexivity|discriminate Hr]|]).
      destruct Hin.
    + by rewrite strip_prefix_None_app.
Qed.

Lemma extract_issue_number_None (url : string) :
  contains "/issues/" url = false → extract_issue_number_from_url url = None.
Proof.
  induction url as [|c url IH]; [done|].
  cbn [contains extract_issue_number_from_url].
  destruct (strip_prefix "/issues/" (String c url)); [done|]. exact IH.
Qed.

Lemma extract_issue_number_digits (url n : string) :
  extract_issue_number_from_url url = Some n →
  n ≠ "" ∧ string_forall is_digit n = true.
Proof.
  induction url as [|c url IH]; cbn [extract_issue_number_from_url].
  - intros H. vm_compute in H. discriminate H.
  - destruct (strip_prefix "/issues/" (String c url)) as [rest|]; [|exact IH].
    destruct (digits1 rest) as [ds|] eqn:Hds; [|exact IH].
    intros [= <-]. by apply digits1_digits in Hds.
Qed.

Lemma issue_numbers_of_omap (created_issues : list string) :
  issue_numbers_of created_issues = omap extract_issue_number_from_url created_issues.
Proof.
  induction created_issues as [|url urls IH]; [done|].
  cbn [issue_numbers_of omap list_omap].
  destruct (extract_issue_number_from_url url) as [n|] eqn:Hn; [|exact IH].
  destruct (extract_issue_number_digits _ _ Hn) as [Hne _].
  unfold nonempty. apply String.eqb_neq in Hne. rewrite Hne. simpl. by rewrite IH.
Qed.

(** X1. What [validate_test_issues] validates: the issue numbers are read
    off the created URLs in order, a URL without [/issues/] gives none, and
    every number is a non-empty string of digits, so the test
    [if issue_number] never drops one. *)
Theorem issue_numbers_are_numbers (created_issues : list string) :
  issue_numbers_of created_issues = omap extract_issue_number_from_url created_issues
  ∧ Forall (λ n, n ≠ "" ∧ string_forall is_digit n = true) (issue_numbers_of created_issues)
  ∧ (Forall (λ url, contains "/issues/" url = false) created_issues →
     issue_numbers_of created_issues = []).
Proof.
  split_and!; [apply issue_numbers_of_omap| |].
  - rewrite issue_numbers_of_omap. induction created_issues as [|url urls IH]; [constructor|].
    cbn [omap list_omap].
    destruct (extract_issue_number_from_url url) as [n|] eqn:Hn; [|exact IH].
    constructor; [by apply extract_issue_number_digits with url|exact IH].
  - rewrite issue_numbers_of_omap. induction 1 as [|url urls Hurl _ IH]; [done|].
    cbn [omap list_omap]. by rewrite extract_issue_number_None.
Qed.

Lemma issue_number_after_base (base ds post : string) :
  extract_issue_number_from_url base = None →
  string_forall is_digit ds = true → ds ≠ "" →
  match post with String c _ => is_digit c | EmptyString => false end = false →
  extract_issue_number_from_url (base +:+ "/issues/" +:+ ds +:+ post) = Some ds.
Proof.
  intros Hbase Hds Hne Hpost. induction base as [|c base IH].
  - rewrite app_empty. change ("/issues/" +:+ ds +:+ post)
      with (String "/" ("issues/" +:+ ds +:+ post)).
    cbn [extract_issue_number_from_url].
    change (String "/" ("issues/" +:+ ds +:+ post)) with ("/issues/" +:+ ds +:+ post).
    by rewrite strip_prefix_app, digits1_run.
  - cbn [extract_issue_number_from_url] in Hbase.
    destruct (match strip_prefix "/issues/" (String c base) with
              | Some rest => digits1 rest
              | None => None
              end) eqn:Hhere; [done|].
    apply (issue_number_here_None_app _ (ds +:+ post)) in Hhere; [|done].
    rewrite app_cons in *. cbn [extract_issue_number_from_url].
    rewrite Hhere. by apply IH.
Qed.


(** X2. Round trip of the issue number: for a text without any
    [/issues/<digits>] of its own, followed by [/issues/], a number and
    anything that does not start with a digit, the extractor returns that
    number. (The number taken is always that of the first [/issues/<digits>],
    so a repository path that contains one hides the issue's own.) *)
Theorem extract_issue_number_round_trip (base ds post : string) :
  extract_issue_number_from_url base = None →
  string_forall is_digit ds = true → ds ≠ "" →
  match post with String c _ => is_digit c | EmptyString => false end = false →
  extract_issue_number_from_url (base +:+ "/issues/" +:+ ds +:+ post) = Some ds.
Proof. apply issue_number_after_base. Qed.

Lemma extract_issue_number_round_trip_witness :
  extract_issue_number_from_url "https://github.com/okd-project/okd" = None
  ∧ extract_issue_number_from_url
      ("https://github.com/okd-project/okd" +:+ "/issues/" +:+ "17" +:+ "#issuecomment-5")
    = Some "17".
Proof.
  split; [reflexivity|].
  apply (extract_issue_number_round_trip "https://github.com/okd-project/okd" "17"
           "#issuecomment-5"); first [reflexivity|discriminate].
Defined.

Example issue_number_hidden_by_path :
  extract_issue_number_from_url "https://github.com/issues/12/issues/5" = Some "12".
Proof. reflexivity. Qed.

Lemma digits_boundary_digits (s ds : string) :
  digits_boundary s = Some ds → ds ≠ "" ∧ string_forall is_digit ds = true.
Proof.
  revert ds. induction s as [|c s IH]; intros ds; [done|]. simpl.
  destruct (is_digit c) eqn:Hc; [|done].
  destruct (digits_boundary s) as [ds'|].
  - intros [= <-]. destruct (IH ds' eq_refl) as [_ Hds]. simpl. by rewrite Hc, Hds.
  - destruct (starts_with_word s); [done|]. intros [= <-]. simpl. by rewrite Hc.
Qed.

Lemma spaces_digits_boundary_digits (s ds : string) :
  spaces_digits_boundary s = Some ds → ds ≠ "" ∧ string_forall is_digit ds = true.
Proof.
  induction s as [|c s IH]; [done|]. cbn [spaces_digits_boundary].
  destruct (is_space c).
  - destruct (spaces_digits_boundary s) as [ds'|].
    + intros [= <-]. by apply IH.
    + apply digits_boundary_digits.
  - apply digits_boundary_digits.
Qed.

(** X3. The identifier read from a display title is always a non-empty
    string of digits; a title without [#] has none, so a run with such a
    title, or without a title, is never correlated with any issue. *)
Theorem title_identifier_is_number (title : string) :
  (∀ n, issue_number_in_title title = Some n → n ≠ "" ∧ string_forall is_digit n = true)
  ∧ (string_forall (λ c, negb (Ascii.eqb c "#")) title = true →
     issue_number_in_title title = None
     ∧ ∀ run issue_number runs, displayTitle run = Some title ∨ displayTitle run = None →
         find_run issue_number runs ≠ Some run).
Proof.
  split.
  - induction title as [|c title IH]; intros n; [done|].
    cbn [issue_number_in_title]. destruct (Ascii.eqb c "#").
    + destruct (spaces_digits_boundary title) as [ds|] eqn:Hds; [|apply IH].
      intros [= <-]. by apply spaces_digits_boundary_digits in Hds.
    + apply IH.
  - intros Hno.
    assert (issue_number_in_title title = None) as Hnone.
    { induction title as [|c title IH]; [done|].
      simpl in Hno. apply andb_true_iff in Hno as [Hc Hno].
      cbn [issue_number_in_title]. apply negb_true_iff in Hc. rewrite Hc. auto. }
    split; [done|].
    intros run issue_number runs Htitle (_ & _ & _ & Htok & _)%find_run_spec.
    unfold run_issue_number in Htok. destruct Htitle as [Ht|Ht]; rewrite Ht in Htok;
      simpl in Htok; congruence.
Qed.

Lemma issue_numbers_are_numbers_witness :
  Forall (λ url, contains "/issues/" url = false)
    ["https://github.com/okd-project/okd/pull/3"; ""]
  ∧ issue_numbers_of ["https://github.com/okd-project/okd/pull/3"; ""] = [].
Proof.
  assert (Forall (λ url, contains "/issues/" url = false)
            ["https://github.com/okd-project/okd/pull/3"; ""]) as Hno
    by (repeat constructor).
  split; [exact Hno|].
  exact (proj2 (proj2 (issue_numbers_are_numbers _)) Hno).
Defined.

Lemma title_identifier_is_number_witness :
  issue_number_in_title "AI Triage for a new issue" = None
  ∧ find_run "7" [sample_run "AI Triage for a new issue" "completed" "success"]
    ≠ Some (sample_run "AI Triage for a new issue" "completed" "success").
Proof.
  destruct (proj2 (title_identifier_is_number "AI Triage for a new issue") eq_refl)
    as [Hnone Hnever].
  split; [exact Hnone|].
  apply Hnever. left. reflexivity.
Defined.

Lemma nonspaces1_shape (s tok : string) :
  nonspaces1 s = Some tok →
  tok ≠ "" ∧ string_forall (λ c, negb (is_space c)) tok = true.
Proof.
  revert tok. induction s as [|c s IH]; intros tok; [done|]. simpl.
  destruct (is_space c) eqn:Hc; [done|].
  destruct (nonspaces1 s) as [tok'|].
  - intros [= <-]. destruct (IH tok' eq_refl) as [_ Htok]. simpl. by rewrite Hc, Htok.
  - intros [= <-]. simpl. by rewrite Hc.
Qed.

Lemma nonspaces1_run (tok rest : string) :
  string_forall (λ c, negb (is_space c)) tok = true → tok ≠ "" →
  match rest with String c _ => is_space c | EmptyString => true end = true →
  nonspaces1 (tok +:+ rest) = Some tok.
Proof.
  intros Htok Hne Hrest. induction tok as [|c tok IH]; [done|].
  simpl in Htok. apply andb_true_iff in Htok as [Hc Htok]. apply negb_true_iff in Hc.
  rewrite app_cons. simpl. rewrite Hc. destruct tok as [|c' tok'].
  - rewrite app_empty. destruct rest as [|d rest]; [done|]. simpl. by rewrite Hrest.
  - by rewrite IH.
Qed.

Lemma extract_url_shape (output url : string) :
  extract_url_from_output output = Some url →
  ∃ path, url = "https://github.com/" +:+ path ∧ path ≠ ""
          ∧ string_forall (λ c, negb (is_space c)) path = true.
Proof.
  induction output as [|c output IH].
  - intros H. vm_compute in H. discriminate H.
  - cbn [extract_url_from_output].
    destruct (strip_prefix "https://github.com/" (String c output)) as [r|]; [|apply IH].
    destruct (nonspaces1 r) as [tok|] eqn:Htok; [|apply IH].
    intros [= <-]. exists tok. by apply nonspaces1_shape in Htok.
Qed.

Lemma extract_url_found (pre path rest : string) :
  string_forall (λ c, negb (Ascii.eqb c "h")) pre = true →
  string_forall (λ c, negb (is_space c)) path = true → path ≠ "" →
  match rest with String c _ => is_space c | EmptyString => true end = true →
  extract_url_from_output (pre +:+ "https://github.com/" +:+ path +:+ rest)
  = Some ("https://github.com/" +:+ path).
Proof.
  intros Hpre Hpath Hne Hrest. induction pre as [|c pre IH].
  - rewrite app_empty.
    change ("https://github.com/" +:+ path +:+ rest)
      with (String "h" ("ttps://github.com/" +:+ path +:+ rest)).
    cbn [extract_url_from_output].
    change (String "h" ("ttps://github.com/" +:+ path +:+ rest))
      with ("https://github.com/" +:+ path +:+ rest).
    by rewrite strip_prefix_app, nonspaces1_run.
  - simpl in Hpre. apply andb_true_iff in Hpre as [Hc Hpre].
    rewrite app_cons. cbn [extract_url_from_output strip_prefix].
    rewrite Ascii.eqb_sym. apply negb_true_iff in Hc. rewrite Hc. by apply IH.
Qed.

(** X4. The URL taken from the output of [gh issue create]: whatever is
    returned starts with [https://github.com/] and goes on with at least one
    character and no white space. After text without the letter h, such a
    URL that ends at white space or at the end of the output is returned
    whole. *)
Theorem extract_url_from_output_spec (output : string) :
  (∀ url, extract_url_from_output output = Some url →
     ∃ path, url = "https://github.com/" +:+ path ∧ path ≠ ""
             ∧ string_forall (λ c, negb (is_space c)) path = true)
  ∧ (∀ pre path rest,
       output = pre +:+ "https://github.com/" +:+ path +:+ rest →
       string_forall (λ c, negb (Ascii.eqb c "h")) pre = true →
       string_forall (λ c, negb (is_space c)) path = true → path ≠ "" →
       match rest with String c _ => is_space c | EmptyString => true end = true →
       extract_url_from_output output = Some ("https://github.com/" +:+ path)).
Proof.
  split.
  - intros url. apply extract_url_shape.
  - intros pre path rest ->. apply extract_url_found.
Qed.

Lemma extract_url_from_output_spec_witness :
  extract_url_from_output
    ("Creating issue in okd-project/okd" +:+ String "010" (String "010" "")
     +:+ "https://github.com/" +:+ "okd-project/okd/issues/17" +:+ String "010" "")
  = Some ("https://github.com/" +:+ "okd-project/okd/issues/17").
Proof.
  apply (proj2 (extract_url_from_output_spec _)
           ("Creating issue in okd-project/okd" +:+ String "010" (String "010" ""))
           "okd-project/okd/issues/17" (String "010" ""));
    first [reflexivity|discriminate].
Defined.

(** X5. From the output of [gh issue create] to the issue number: when the
    output is the URL of the new issue followed by a newline, and the
    repository path holds no [/issues/<digits>] of its own, the two
    extractors of [create_test_issue] in a row give the number of the
    issue. *)
Theorem created_issue_number_from_output (repo ds : string) :
  string_forall (λ c, negb (is_space c)) repo = true →
  extract_issue_number_from_url ("https://github.com/" +:+ repo) = None →
  string_forall is_digit ds = true → ds ≠ "" →
  extract_url_from_output
    ("https://github.com/" +:+ repo +:+ "/issues/" +:+ ds +:+ String "010" "")
  ≫= extract_issue_number_from_url = Some ds.
Proof.
  intros Hrepo Hbase Hds Hne.
  assert (string_forall (λ c, negb (is_space c)) ds = true) as Hds'.
  { clear -Hds. induction ds as [|c ds IH]; [done|]. simpl in *.
    apply andb_true_iff in Hds as [Hc Hds]. by rewrite (digit_not_space _ Hc), IH. }
  replace ("https://github.com/" +:+ repo +:+ "/issues/" +:+ ds +:+ String "010" "")
    with ("" +:+ "https://github.com/" +:+ (repo +:+ "/issues/" +:+ ds) +:+ String "010" "")
    by (by rewrite app_empty, !app_assoc_str).
  rewrite extract_url_found.
  - change (extract_issue_number_from_url
              ("https://github.com/" +:+ repo +:+ "/issues/" +:+ ds) = Some ds).
    replace ("https://github.com/" +:+ repo +:+ "/issues/" +:+ ds)
      with (("https://github.com/" +:+ repo) +:+ "/issues/" +:+ ds +:+ "")
      by (by rewrite app_empty_r, app_assoc_str).
    by apply issue_number_after_base.
  - done.
  - rewrite !string_forall_app, Hrepo, Hds'. reflexivity.
  - by destruct repo.
  - reflexivity.
Qed.

Lemma created_issue_number_from_output_witness :
  extract_url_from_output
    ("https://github.com/" +:+ "okd-project/okd" +:+ "/issues/" +:+ "17" +:+ String "010" "")
  ≫= extract_issue_number_from_url = Some "17".
Proof.
  apply (created_issue_number_from_output "okd-project/okd" "17");
    first [reflexivity|discriminate].
Defined.

(* ===================================================================== *)
(** * The repository name from a git remote *)
(* ===================================================================== *)

Lemma at_end_length (s : string) : at_end s = true → String.length s ≤ 1.
Proof.
  unfold at_end. intros [H|H]%orb_true_iff; apply String.eqb_eq in H; subst; simpl; lia.
Qed.

Lemma opt_git_end_after_stem (x : string) : x ≠ "" → opt_git_end (x +:+ ".git") = false.
Proof.
  intros Hx. unfold opt_git_end.
  assert (at_end (x +:+ ".git") = false) as Hend.
  { apply not_true_is_false. intros Hl%at_end_length.
    rewrite length_app_str in Hl. simpl in Hl. lia. }
  rewrite Hend. destruct (strip_prefix ".git" (x +:+ ".git")) as [r|] eqn:Hr; [|done].
  rewrite orb_false_r. apply not_true_is_false. intros Hl%at_end_length.
  apply strip_prefix_Some in Hr. pose proof (f_equal String.length Hr) as Hlen.
  rewrite !length_app_str in Hlen. simpl in Hlen.
  destruct x as [|a [|b x]]; [done| |simpl in Hlen; lia].
  rewrite app_cons, app_empty in Hr. destruct r as [|d [|e r]]; simpl in Hl; [..|lia].
  - discriminate Hr.
  - discriminate Hr.
Qed.

Lemma repo_name_lazy_shape (s name : string) :
  repo_name_lazy s = Some name →
  name ≠ "" ∧ string_forall (λ c, negb (Ascii.eqb c "/")) name = true.
Proof.
  revert name. induction s as [|c s IH]; intros name; [done|]. simpl.
  destruct (Ascii.eqb c "/") eqn:Hc; [done|].
  destruct (opt_git_end s).
  - intros [= <-]. simpl. by rewrite Hc.
  - destruct (repo_name_lazy s) as [n|]; [|done].
    intros [= <-]. destruct (IH n eq_refl) as [_ Hn]. simpl. by rewrite Hc, Hn.
Qed.

Lemma owner_and_name_shape (s r : string) :
  owner_and_name s = Some r →
  ∃ owner name, r = owner +:+ "/" +:+ name ∧ owner ≠ "" ∧ name ≠ ""
                ∧ string_forall (λ c, negb (Ascii.eqb c "/")) owner = true
                ∧ string_forall (λ c, negb (Ascii.eqb c "/")) name = true.
Proof.
  revert r. induction s as [|c s IH]; intros r; [done|]. cbn [owner_and_name].
  destruct (Ascii.eqb c "/") eqn:Hc; [done|].
  destruct (owner_and_name s) as [r'|].
  - intros [= <-]. destruct (IH r' eq_refl) as (owner & name & -> & Ho & Hn & Hos & Hns).
    exists (String c owner), name. rewrite app_cons. simpl. by rewrite Hc, Hos.
  - destruct (strip_prefix "/" s) as [s''|]; [|done].
    destruct (repo_name_lazy s'') as [n|] eqn:Hn; [|done].
    intros [= <-]. apply repo_name_lazy_shape in Hn as [Hne Hns].
    exists (String c ""), n. simpl. by rewrite Hc.
Qed.

Lemma owner_and_name_split (owner rest : string) :
  owner ≠ "" → string_forall (λ c, negb (Ascii.eqb c "/")) owner = true →
  owner_and_name (owner +:+ "/" +:+ rest)
  = (λ name, owner +:+ "/" +:+ name) <$> repo_name_lazy rest.
Proof.
  intros Hne Ho. induction owner as [|c owner IH]; [done|].
  simpl in Ho. apply andb_true_iff in Ho as [Hc Ho]. apply negb_true_iff in Hc.
  rewrite app_cons. cbn [owner_and_name]. rewrite Hc.
  destruct owner as [|c' owner'].
  - rewrite app_empty. change ("/" +:+ rest) with (String "/" rest).
    cbn [owner_and_name strip_prefix]. rewrite !Ascii.eqb_refl.
    by destruct (repo_name_lazy rest).
  - rewrite IH by done. destruct (repo_name_lazy rest) as [n|]; [done|].
    simpl in Ho. apply andb_true_iff in Ho as [Hc' _]. apply negb_true_iff in Hc'.
    rewrite app_cons. cbn [fmap option_fmap option_map strip_prefix].
    rewrite Ascii.eqb_sym, Hc'. reflexivity.
Qed.

Lemma repo_name_lazy_git (name : string) :
  name ≠ "" → string_forall (λ c, negb (Ascii.eqb c "/")) name = true →
  repo_name_lazy (name +:+ ".git") = Some name.
Proof.
  intros Hne Hn. induction name as [|c name IH]; [done|].
  simpl in Hn. apply andb_true_iff in Hn as [Hc Hn]. apply negb_true_iff in Hc.
  rewrite app_cons. cbn [repo_name_lazy]. rewrite Hc.
  destruct name as [|c' name'].
  - reflexivity.
  - rewrite opt_git_end_after_stem, IH by done. reflexivity.
Qed.

Lemma opt_git_end_cases (s : string) :
  opt_git_end s = true →
  s = "" ∨ s = ".git" ∨ ∃ v, s = v +:+ String "010" "".
Proof.
  unfold opt_git_end, at_end.
  assert (∀ x, (String.eqb x "" || String.eqb x (String "010" "")) = true →
               x = "" ∨ x = String "010" "") as Hend.
  { intros x [H|H]%orb_true_iff; apply String.eqb_eq in H; auto. }
  destruct (strip_prefix ".git" s) as [r|] eqn:Hr.
  - apply strip_prefix_Some in Hr as ->.
    intros [[->| ->]%Hend|H]%orb_true_iff.
    + auto.
    + right. right. by exists ".git".
    + apply Hend in H as [H|H]; [discriminate H|]. right. right. exists "". by rewrite H.
  - intros [->|H]%Hend; [auto|]. right. right. exists "". by rewrite H.
Qed.

Lemma no_space_no_newline_end (v : string) :
  string_forall (λ c, negb (is_space c)) (v +:+ String "010" "") = false.
Proof. rewrite string_forall_app. simpl. by rewrite andb_false_r. Qed.

Lemma repo_name_lazy_plain (name : string) :
  name ≠ "" → string_forall (λ c, negb (Ascii.eqb c "/")) name = true →
  string_forall (λ c, negb (is_space c)) name = true →
  (∀ stem, stem ≠ "" → name ≠ stem +:+ ".git") →
  repo_name_lazy name = Some name.
Proof.
  intros Hne Hn Hsp Hgit. induction name as [|c name IH]; [done|].
  simpl in Hn, Hsp. apply andb_true_iff in Hn as [Hc Hn].
  apply andb_true_iff in Hsp as [_ Hsp]. apply negb_true_iff in Hc.
  cbn [repo_name_lazy]. rewrite Hc.
  destruct (opt_git_end name) eqn:Hend.
  - apply opt_git_end_cases in Hend as [->|[->|[v ->]]].
    + reflexivity.
    + destruct (Hgit (String c "")); done.
    + by rewrite no_space_no_newline_end in Hsp.
  - destruct name as [|c' name']; [done|]. rewrite IH; [done..|].
    intros stem Hstem Heq. apply (Hgit (String c stem)); [done|].
    by rewrite app_cons, Heq.
Qed.

Lemma rstrip_spaces (ws : string) : string_forall is_space ws = true → rstrip ws = "".
Proof.
  induction ws as [|c ws IH]; [done|]. simpl.
  intros [Hc Hws]%andb_true_iff. by rewrite IH, Hc.
Qed.

Lemma rstrip_app_spaces (s ws : string) :
  string_forall is_space ws = true → rstrip (s +:+ ws) = rstrip s.
Proof.
  intros Hws. induction s as [|c s IH].
  - rewrite app_empty. by apply rstrip_spaces.
  - rewrite app_cons. simpl. by rewrite IH.
Qed.

Lemma rstrip_snoc (s : string) (c : ascii) :
  is_space c = false → rstrip (s +:+ String c "") = s +:+ String c "".
Proof.
  intros Hc. induction s as [|a s IH].
  - rewrite app_empty. simpl. by rewrite Hc.
  - rewrite app_cons. simpl. rewrite IH. by destruct s.
Qed.

(** [strip] removes the white space around a text that starts and ends with
    other characters, and nothing else. *)
Lemma strip_keep (a c : ascii) (s ws : string) :
  is_space a = false → is_space c = false → string_forall is_space ws = true →
  strip (String a s +:+ String c "" +:+ ws) = String a s +:+ String c "".
Proof.
  intros Ha Hc Hws. unfold strip.
  rewrite <- app_assoc_str, rstrip_app_spaces, rstrip_snoc by done.
  rewrite app_cons. simpl. by rewrite Ha.
Qed.

Lemma snoc_decompose (s : string) :
  s ≠ "" → ∃ v c, s = v +:+ String c "".
Proof.
  induction s as [|a s IH]; [done|]. intros _. destruct s as [|b s].
  - by exists "", a.
  - destruct IH as (v & c & ->); [done|]. exists (String a v), c. by rewrite app_cons.
Qed.

Lemma search_repo_shape (s r : string) :
  search_repo s = Some r →
  ∃ owner name, r = owner +:+ "/" +:+ name ∧ owner ≠ "" ∧ name ≠ ""
                ∧ string_forall (λ c, negb (Ascii.eqb c "/")) owner = true
                ∧ string_forall (λ c, negb (Ascii.eqb c "/")) name = true.
Proof.
  assert (∀ x, repo_here x = Some r →
            ∃ owner name, r = owner +:+ "/" +:+ name ∧ owner ≠ "" ∧ name ≠ ""
                          ∧ string_forall (λ c, negb (Ascii.eqb c "/")) owner = true
                          ∧ string_forall (λ c, negb (Ascii.eqb c "/")) name = true)
    as Hhere.
  2: { induction s as [|c s IH]; cbn [search_repo].
       - destruct (repo_here "") eqn:H; [|done]. intros [= ->]. by apply Hhere in H.
       - destruct (repo_here (String c s)) eqn:H; [|exact IH].
         intros [= ->]. by apply Hhere in H. }
  intros x. unfold repo_here.
  destruct (strip_prefix "github.com" x) as [[|c rest]|]; [done| |done].
  destruct (Ascii.eqb c ":" || Ascii.eqb c "/"); [|done].
  apply owner_and_name_shape.
Qed.

Ltac norm_str :=
  repeat first [rewrite app_assoc_str | rewrite app_cons | rewrite app_empty].

(** X6. What [extract_repo_from_git_url] returns is always of the form
    owner/name, both parts non-empty and without a slash; an empty or blank
    remote gives nothing. *)
Theorem extract_repo_shape (git_url : string) :
  (∀ r, extract_repo_from_git_url git_url = Some r →
     ∃ owner name, r = owner +:+ "/" +:+ name ∧ owner ≠ "" ∧ name ≠ ""
                   ∧ string_forall (λ c, negb (Ascii.eqb c "/")) owner = true
                   ∧ string_forall (λ c, negb (Ascii.eqb c "/")) name = true)
  ∧ (string_forall is_space git_url = true → extract_repo_from_git_url git_url = None).
Proof.
  unfold extract_repo_from_git_url. split.
  - intros r. destruct (String.eqb git_url ""); [done|]. apply search_repo_shape.
  - intros Hblank. destruct (String.eqb git_url ""); [done|].
    unfold strip. by rewrite rstrip_spaces.
Qed.

Lemma extract_repo_shape_witness :
  extract_repo_from_git_url (String "010" "  ") = None.
Proof. exact (proj2 (extract_repo_shape (String "010" "  ")) eq_refl). Defined.

(** X7. The remotes git prints: for the HTTPS and SSH forms of a GitHub
    remote, with a non-empty owner and name without slash and any white space
    after the URL (the newline of [git remote get-url]), the result is
    owner/name when the URL ends in [.git]; the same holds without the
    suffix when the name has no white space and does not itself end in
    [.git]. *)
Theorem extract_repo_from_remote (pre owner name ws : string) :
  pre = "https://github.com/" ∨ pre = "git@github.com:" ∨ pre = "ssh://git@github.com/" →
  owner ≠ "" → string_forall (λ c, negb (Ascii.eqb c "/")) owner = true →
  name ≠ "" → string_forall (λ c, negb (Ascii.eqb c "/")) name = true →
  string_forall is_space ws = true →
  extract_repo_from_git_url (pre +:+ owner +:+ "/" +:+ name +:+ ".git" +:+ ws)
  = Some (owner +:+ "/" +:+ name)
  ∧ (string_forall (λ c, negb (is_space c)) name = true →
     (∀ stem, stem ≠ "" → name ≠ stem +:+ ".git") →
     extract_repo_from_git_url (pre +:+ owner +:+ "/" +:+ name +:+ ws)
     = Some (owner +:+ "/" +:+ name)).
Proof.
  intros Hpre Ho Hos Hn Hns Hws.
  assert (∀ rest r, owner_and_name rest = Some r → search_repo (pre +:+ rest) = Some r)
    as Hsearch.
  { intros rest r Hr.
    assert (∀ sep, sep = ":"%char ∨ sep = "/"%char →
              search_repo ("github.com" +:+ String sep rest) = Some r) as Hat.
    { intros sep Hsep.
      change (search_repo ("github.com" +:+ String sep rest))
        with (match (if Ascii.eqb sep ":" || Ascii.eqb sep "/"
                     then owner_and_name rest else None) with
              | Some r0 => Some r0
              | None => search_repo ("ithub.com" +:+ String sep rest)
              end).
      destruct Hsep as [->| ->]; simpl; by rewrite Hr. }
    destruct Hpre as [->|[->| ->]].
    - change (search_repo ("https://github.com/" +:+ rest))
        with (search_repo ("github.com" +:+ String "/" rest)). apply Hat. by right.
    - change (search_repo ("git@github.com:" +:+ rest))
        with (search_repo ("github.com" +:+ String ":" rest)). apply Hat. by left.
    - change (search_repo ("ssh://git@github.com/" +:+ rest))
        with (search_repo ("github.com" +:+ String "/" rest)). apply Hat. by right. }
  assert (∃ a p, pre = String a p ∧ is_space a = false) as (a & p & Hp & Ha).
  { destruct Hpre as [->|[->| ->]]; by eexists _, _. }
  assert (∀ x, String.eqb (pre +:+ x) "" = false) as Hnonempty.
  { intros x. rewrite Hp. reflexivity. }
  unfold extract_repo_from_git_url. rewrite !Hnonempty. split.
  - replace (pre +:+ owner +:+ "/" +:+ name +:+ ".git" +:+ ws)
      with (String a (p +:+ owner +:+ "/" +:+ name +:+ ".gi") +:+ String "t" "" +:+ ws)
      by (rewrite Hp; norm_str; reflexivity).
    rewrite strip_keep by done.
    replace (String a (p +:+ owner +:+ "/" +:+ name +:+ ".gi") +:+ String "t" "")
      with (pre +:+ owner +:+ "/" +:+ name +:+ ".git")
      by (rewrite Hp; norm_str; reflexivity).
    apply Hsearch. by rewrite owner_and_name_split, repo_name_lazy_git.
  - intros Hnsp Hgit.
    destruct (snoc_decompose name Hn) as (v & c & Hv).
    assert (is_space c = false) as Hc.
    { rewrite Hv, string_forall_app in Hnsp. simpl in Hnsp.
      apply andb_true_iff in Hnsp as [_ Hnsp]. rewrite andb_true_r in Hnsp.
      by apply negb_true_iff. }
    replace (pre +:+ owner +:+ "/" +:+ name +:+ ws)
      with (String a (p +:+ owner +:+ "/" +:+ v) +:+ String c "" +:+ ws)
      by (rewrite Hp, Hv; norm_str; reflexivity).
    rewrite strip_keep by done.
    replace (String a (p +:+ owner +:+ "/" +:+ v) +:+ String c "")
      with (pre +:+ owner +:+ "/" +:+ name)
      by (rewrite Hp, Hv; norm_str; reflexivity).
    apply Hsearch. by rewrite owner_and_name_split, repo_name_lazy_plain.
Qed.

Lemma extract_repo_from_remote_witness :
  extract_repo_from_git_url
    ("git@github.com:" +:+ "okd-project" +:+ "/" +:+ "okd" +:+ ".git" +:+ String "010" "")
  = Some ("okd-project" +:+ "/" +:+ "okd")
  ∧ extract_repo_from_git_url
      ("git@github.com:" +:+ "okd-project" +:+ "/" +:+ "okd" +:+ String "010" "")
    = Some ("okd-project" +:+ "/" +:+ "okd").
Proof.
  assert ("git@github.com:" = "https://github.com/" ∨ "git@github.com:" = "git@github.com:"
          ∨ "git@github.com:" = "ssh://git@github.com/") as Hpre by (right; left; reflexivity).
  destruct (extract_repo_from_remote "git@github.com:" "okd-project" "okd" (String "010" "")
              Hpre) as [Hgit Hplain]; try first [reflexivity|discriminate].
  split; [exact Hgit|]. apply Hplain; [reflexivity|].
  intros stem Hstem Heq.
  destruct stem as [|? [|? [|? [|? ?]]]]; discriminate Heq.
Defined.

Example repo_name_ending_in_git :
  extract_repo_from_git_url "https://github.com/libgit2/pygit.git" = Some "libgit2/pygit"
  ∧ extract_repo_from_git_url "https://github.com/a/b.git.git" = Some "a/b.git".
Proof. split; reflexivity. Qed.

(* ===================================================================== *)
(** * The shell side: repository, verification, creation *)
(* ===================================================================== *)

Lemma extract_repo_truthy (git_url repo : string) :
  extract_repo_from_git_url git_url = Some repo → git_url ≠ "" ∧ truthy (Some repo) = true.
Proof.
  intros Hrepo. split.
  - intros ->. discriminate Hrepo.
  - unfold extract_repo_from_git_url in Hrepo.
    destruct (String.eqb git_url ""); [done|].
    apply search_repo_shape in Hrepo as (owner & name & -> & Ho & _).
    destruct owner; [done|]. reflexivity.
Qed.

(** X8. [get_repository] asks git first: when [git remote get-url origin]
    succeeds and its output holds a GitHub remote, that repository is the
    answer and [gh] is not run. When git fails or its output holds no GitHub
    remote, [gh repo view] is run, and the answer is its output without the
    surrounding white space, or nothing when it fails or prints nothing. *)
Theorem get_repository_git_first (sh : Shell) (h : history)
    (exit_code : Z) (stdout stderr : string) :
  command_result sh h cmd_git_remote = (exit_code, stdout, stderr) →
  (∀ repo, exit_code = 0%Z → extract_repo_from_git_url stdout = Some repo →
     get_repository sh h = (Some repo, h ++ [cmd_git_remote]))
  ∧ (exit_code ≠ 0%Z ∨ extract_repo_from_git_url stdout = None →
     ∀ exit_code2 stdout2 stderr2,
       command_result sh (h ++ [cmd_git_remote]) cmd_gh_repo_view
       = (exit_code2, stdout2, stderr2) →
       get_repository sh h =
       (if Z.eqb exit_code2 0 && nonempty stdout2 then Some (strip stdout2) else None,
        h ++ [cmd_git_remote; cmd_gh_repo_view])).
Proof.
  intros Hgit. unfold get_repository, run_command. rewrite Hgit. split.
  - intros repo -> Hrepo. destruct (extract_repo_truthy _ _ Hrepo) as [Hne Htr].
    unfold nonempty at 1. apply String.eqb_neq in Hne. rewrite Hne, Hrepo, Htr. reflexivity.
  - intros Hfail exit_code2 stdout2 stderr2 Hgh.
    destruct Hfail as [Hne|Hnone].
    + apply Z.eqb_neq in Hne. rewrite Hne. cbn [andb]. rewrite Hgh, snoc2.
      by destruct (Z.eqb exit_code2 0 && nonempty stdout2).
    + rewrite Hnone. cbn [truthy from_option].
      destruct (Z.eqb exit_code 0 && nonempty stdout); rewrite Hgh, snoc2;
        by destruct (Z.eqb exit_code2 0 && nonempty stdout2).
Qed.

Lemma get_repository_git_first_witness :
  get_repository shell_git_ok [] = (Some "okd-project/okd", [cmd_git_remote])
  ∧ get_repository shell_git_fails []
    = (Some "okd-project/okd", [cmd_git_remote; cmd_gh_repo_view]).
Proof.
  split.
  - refine (proj1 (get_repository_git_first shell_git_ok [] 0
              ("git@github.com:okd-project/okd.git" +:+ String "010" "") "" eq_refl)
              "okd-project/okd" eq_refl eq_refl).
  - refine (proj2 (get_repository_git_first shell_git_fails [] 128 ""
              "fatal: not a git repository" eq_refl)
              _ 0%Z ("okd-project/okd" +:+ String "010" "") "" eq_refl).
    left. discriminate.
Defined.

(** X9. What [verify_issue] accepts: the fetched issue must not be the
    empty answer of a failed [get_issue], its title must be the expected
    one, its body must equal the expected body up to white space at the end,
    and its labels must be the expected ones as a set (order and repetition
    do not count). *)
Theorem verify_fetched_issue_spec (issue : Issue) (expected_title expected_body : string)
    (expected_labels : list string) :
  verify_fetched_issue issue expected_title expected_body expected_labels = true ↔
  issue ≠ no_issue
  ∧ issue_title issue = Some expected_title
  ∧ rstrip (default "" (issue_body issue)) = rstrip expected_body
  ∧ ∀ label, label ∈ default [] (issue_label_names issue) ↔ label ∈ expected_labels.
Proof.
  unfold verify_fetched_issue.
  assert (is_no_issue issue = true ↔ issue = no_issue) as Hempty.
  { unfold is_no_issue. destruct issue as [[?|] [?|] [?|]]; simpl; split; done. }
  assert ((list_to_set (default [] (issue_label_names issue)) : gset string)
          = list_to_set expected_labels
          ↔ ∀ label, label ∈ default [] (issue_label_names issue) ↔ label ∈ expected_labels)
    as Hset.
  { rewrite set_eq. by setoid_rewrite elem_of_list_to_set. }
  destruct (is_no_issue issue) eqn:He.
  - assert (issue = no_issue) as Heq by (by apply Hempty).
    split; [done|]. by intros [? _].
  - assert (issue ≠ no_issue) as Hne by (intros Heq%Hempty; discriminate Heq).
    clear Hempty.
    cbv zeta. repeat case_bool_decide; destruct (String.eqb_spec
      (rstrip (default "" (issue_body issue))) (rstrip expected_body)); simpl;
      rewrite <- ?Hset; split; try done; try (intros (? & ? & ? & ?); done);
      try (by intros (? & ? & ? & ?%Hset)).
Qed.

Lemma verify_fetched_issue_spec_witness :
  verify_fetched_issue fetched_issue_sample "[TEST] Scenario 5: Incomplete Bug Report"
    "My cluster doesn't work. Help!" ["kind/bug"; "ai:bug-triage:medium-coreapi"] = true.
Proof.
  apply (proj2 (verify_fetched_issue_spec fetched_issue_sample _ _ _)).
  split_and!; [discriminate|reflexivity|reflexivity|].
  intros label. simpl. rewrite !elem_of_cons, !elem_of_nil. tauto.
Defined.

Lemma extract_url_truthy (output : string) (url : string) :
  extract_url_from_output output = Some url → truthy (Some url) = true.
Proof.
  intros (path & -> & _)%extract_url_shape. reflexivity.
Qed.

Lemma extract_issue_number_truthy (url n : string) :
  extract_issue_number_from_url url = Some n → truthy (Some n) = true.
Proof.
  intros [Hne _]%extract_issue_number_digits. simpl. unfold nonempty.
  apply String.eqb_neq in Hne. by rewrite Hne.
Qed.

(** [verify_issue] runs one command, whatever it finds. *)
Lemma verify_issue_history (sh : Shell) (json_loads : string → option Issue)
    (repo issue_number title body : string) (labels : list string) (h : history) :
  (verify_issue sh json_loads repo issue_number title body labels h).2
  = h ++ [cmd_issue_view repo issue_number].
Proof.
  unfold verify_issue, get_issue, run_command.
  destruct (command_result sh h (cmd_issue_view repo issue_number)) as [[e o] r].
  destruct (negb (Z.eqb e 0)); [reflexivity|]. by destruct (nonempty o).
Qed.

(** The URL [create_test_issue] finds in the answer of [gh issue create]:
    stdout first, stderr otherwise. *)
Lemma create_test_issue_run (sh : Shell) (json_loads : string → option Issue)
    (repo title body : string) (labels : list string) (scen : string)
    (h : history) (t : trace) (exit_code : Z) (stdout stderr : string) :
  command_result sh h (cmd_issue_create repo title body labels)
  = (exit_code, stdout, stderr) →
  create_test_issue sh json_loads repo title body labels scen h t =
  match (if Z.eqb exit_code 0
         then match extract_url_from_output stdout with
              | Some url => Some url
              | None => extract_url_from_output stderr
              end
         else None) with
  | None => (Ok (None, h ++ [cmd_issue_create repo title body labels]), t)
  | Some url =>
      (Ok (Some url,
           match extract_issue_number_from_url url with
           | Some n => h ++ [cmd_issue_create repo title body labels; cmd_issue_view repo n]
           | None => h ++ [cmd_issue_create repo title body labels]
           end),
       t ++ [Sleep WORKFLOW_WAIT_SECONDS])
  end.
Proof.
  intros Hcmd. unfold create_test_issue, run_command. rewrite Hcmd.
  destruct (Z.eqb exit_code 0); [|reflexivity]. cbn [negb]. cbv zeta.
  assert (∀ url, truthy (Some url) = true →
            (if negb (truthy (Some url)) then
               (mret (None, h ++ [cmd_issue_create repo title body labels])
                  : M (option string * history))
             else
               sleep WORKFLOW_WAIT_SECONDS;;
               mret (Some url,
                     if truthy (extract_issue_number_from_url (default "" (Some url)))
                     then (verify_issue sh json_loads repo
                             (default "" (extract_issue_number_from_url (default "" (Some url))))
                             title body labels
                             (h ++ [cmd_issue_create repo title body labels])).2
                     else h ++ [cmd_issue_create repo title body labels])) t
            = (Ok (Some url,
                   match extract_issue_number_from_url url with
                   | Some n =>
                       h ++ [cmd_issue_create repo title body labels; cmd_issue_view repo n]
                   | None => h ++ [cmd_issue_create repo title body labels]
                   end),
               t ++ [Sleep WORKFLOW_WAIT_SECONDS])) as Hfound.
  { intros url ->. cbn [negb default]. rewrite bind_run. unfold sleep at 1.
    cbv beta iota. unfold mret, M_ret. change (id url) with url.
    destruct (extract_issue_number_from_url url) as [n|] eqn:Hn.
    - rewrite (extract_issue_number_truthy _ _ Hn). cbn [default].
      by rewrite verify_issue_history, snoc2.
    - reflexivity. }
  destruct (extract_url_from_output stdout) as [url|] eqn:Hout.
  - rewrite (extract_url_truthy _ _ Hout). cbn [negb].
    apply Hfound. by apply extract_url_truthy with stdout.
  - cbn [truthy from_option negb].
    destruct (extract_url_from_output stderr) as [url|] eqn:Herr; [|reflexivity].
    apply Hfound. by apply extract_url_truthy with stderr.
Qed.

(** X10. [create_test_issue]: a failing [gh issue create], or an answer
    without a GitHub URL on stdout and stderr, gives no issue and no wait.
    Otherwise the URL is the first one on stdout, or else on stderr; the
    function waits [WORKFLOW_WAIT_SECONDS] once and runs at most one more
    command, the verification, whose answer has no influence on the
    result. *)
Theorem create_test_issue_outcome (sh : Shell) (json_loads : string → option Issue)
    (repo title body : string) (labels : list string) (scen : string)
    (h : history) (t : trace) (exit_code : Z) (stdout stderr : string) :
  command_result sh h (cmd_issue_create repo title body labels)
  = (exit_code, stdout, stderr) →
  (exit_code ≠ 0%Z
   ∨ (extract_url_from_output stdout = None ∧ extract_url_from_output stderr = None) →
   create_test_issue sh json_loads repo title body labels scen h t
   = (Ok (None, h ++ [cmd_issue_create repo title body labels]), t))
  ∧ (∀ url, exit_code = 0%Z →
       extract_url_from_output stdout = Some url
       ∨ (extract_url_from_output stdout = None ∧ extract_url_from_output stderr = Some url) →
       ∃ h', create_test_issue sh json_loads repo title body labels scen h t
             = (Ok (Some url, h'), t ++ [Sleep 10])
             ∧ (h' = h ++ [cmd_issue_create repo title body labels]
                ∨ ∃ n, h' = h ++ [cmd_issue_create repo title body labels;
                                  cmd_issue_view repo n]))
  ∧ (∀ sh' json_loads',
       command_result sh' h (cmd_issue_create repo title body labels)
       = (exit_code, stdout, stderr) →
       create_test_issue sh' json_loads' repo title body labels scen h t
       = create_test_issue sh json_loads repo title body labels scen h t).
Proof.
  intros Hcmd. split_and!.
  - intros Hfail. rewrite (create_test_issue_run _ _ _ _ _ _ _ _ _ _ _ _ Hcmd).
    destruct Hfail as [Hne|[Hout Herr]].
    + apply Z.eqb_neq in Hne. by rewrite Hne.
    + rewrite Hout, Herr. by destruct (Z.eqb exit_code 0).
  - intros url -> Hurl. rewrite (create_test_issue_run _ _ _ _ _ _ _ _ _ _ _ _ Hcmd).
    assert (match extract_url_from_output stdout with
            | Some u => Some u
            | None => extract_url_from_output stderr
            end = Some url) as Hfound.
    { destruct Hurl as [Hout|[Hout Herr]]; by rewrite Hout. }
    cbn [Z.eqb]. rewrite Hfound. eexists. split; [reflexivity|].
    destruct (extract_issue_number_from_url url); eauto.
  - intros sh' json_loads' Hcmd'.
    by rewrite (create_test_issue_run _ _ _ _ _ _ _ _ _ _ _ _ Hcmd),
               (create_test_issue_run _ _ _ _ _ _ _ _ _ _ _ _ Hcmd').
Qed.

Lemma create_test_issue_outcome_witness :
  (∃ h', create_test_issue shell_creates_17 (λ _, None) "okd-project/okd"
           (test_title test_scenario_5) (test_body test_scenario_5)
           (test_labels test_scenario_5) (test_scenario test_scenario_5) [] []
         = (Ok (Some "https://github.com/okd-project/okd/issues/17", h'), [Sleep 10]))
  ∧ create_test_issue shell_down (λ _, None) "okd-project/okd"
      (test_title test_scenario_5) (test_body test_scenario_5) (test_labels test_scenario_5)
      (test_scenario test_scenario_5) [] []
    = (Ok (None, [cmd_issue_create "okd-project/okd" (test_title test_scenario_5)
                    (test_body test_scenario_5) (test_labels test_scenario_5)]), []).
Proof.
  split.
  - destruct (proj1 (proj2 (create_test_issue_outcome shell_creates_17 (λ _, None)
                "okd-project/okd" (test_title test_scenario_5) (test_body test_scenario_5)
                (test_labels test_scenario_5) (test_scenario test_scenario_5) [] []
                0 ("https://github.com/okd-project/okd/issues/17" +:+ String "010" "") ""
                eq_refl))
              "https://github.com/okd-project/okd/issues/17" eq_refl
              (or_introl eq_refl)) as (h' & Hrun & _).
    exists h'. exact Hrun.
  - refine (proj1 (create_test_issue_outcome shell_down (λ _, None)
              "okd-project/okd" (test_title test_scenario_5) (test_body test_scenario_5)
              (test_labels test_scenario_5) (test_scenario test_scenario_5) [] []
              1 "" "gh: command not found" eq_refl) _).
    left. discriminate.
Defined.

Example create_then_verify :
  create_test_issue shell_creates_17 (λ _, None) "okd-project/okd"
    (test_title test_scenario_5) (test_body test_scenario_5) (test_labels test_scenario_5)
    (test_scenario test_scenario_5) [] []
  = (Ok (Some "https://github.com/okd-project/okd/issues/17",
         [cmd_issue_create "okd-project/okd" (test_title test_scenario_5)
            (test_body test_scenario_5) (test_labels test_scenario_5);
          cmd_issue_view "okd-project/okd" "17"]),
     [Sleep 10]).
Proof. reflexivity. Qed.

Lemma create_test_issue_cases (sh : Shell) (json_loads : string → option Issue)
    (repo title body : string) (labels : list string) (scen : string)
    (h : history) (t : trace) :
  (∃ h', create_test_issue sh json_loads repo title body labels scen h t
         = (Ok (None, h'), t))
  ∨ (∃ url h', create_test_issue sh json_loads repo title body labels scen h t
               = (Ok (Some url, h'), t ++ [Sleep 10])
               ∧ truthy (Some url) = true).
Proof.
  destruct (command_result sh h (cmd_issue_create repo title body labels))
    as [[exit_code stdout] stderr] eqn:Hcmd.
  rewrite (create_test_issue_run _ _ _ _ _ _ _ _ _ _ _ _ Hcmd).
  destruct (Z.eqb exit_code 0); [|by left; eexists].
  destruct (extract_url_from_output stdout) as [url|] eqn:Hout.
  - right. eexists _, _. split; [reflexivity|]. by apply extract_url_truthy with stdout.
  - destruct (extract_url_from_output stderr) as [url|] eqn:Herr; [|by left; eexists].
    right. eexists _, _. split; [reflexivity|]. by apply extract_url_truthy with stderr.
Qed.

Lemma issue_numbers_of_cons (url : string) (urls : list string) :
  issue_numbers_of (url :: urls)
  = option_list (extract_issue_number_from_url url) ++ issue_numbers_of urls.
Proof.
  rewrite !issue_numbers_of_omap. cbn [omap list_omap].
  by destruct (extract_issue_number_from_url url).
Qed.

(** The creation loop keeps the bookkeeping in step: what is appended to
    the created issues, what is waited, and what the dictionary holds. *)
Lemma create_issues_bookkeeping (sh : Shell) (json_loads : string → option Issue)
    (repo : string) (test_scenarios : list Test) :
  ∀ (created0 : list string) (md0 : gmap string Metadata) (h : history) (t : trace),
  ∃ new md h',
    create_issues sh json_loads repo test_scenarios created0 md0 h t
    = (Ok (created0 ++ new, md, h'), t ++ replicate (length new) (Sleep 10))
    ∧ length new ≤ length test_scenarios
    ∧ (∀ n, n ∈ issue_numbers_of new →
         ∃ test, test ∈ test_scenarios ∧ md !! n = Some (metadata_of_test test))
    ∧ (∀ n, n ∉ issue_numbers_of new → md !! n = md0 !! n).
Proof.
  induction test_scenarios as [|test rest IH]; intros created0 md0 h t.
  - exists [], md0, h. rewrite !app_nil_r. split_and!; [done|done| |done].
    intros n Hn. by apply elem_of_nil in Hn.
  - cbn [create_issues]. rewrite bind_run.
    destruct (create_test_issue_cases sh json_loads repo (test_title test) (test_body test)
                (test_labels test) (test_scenario test) h t)
      as [(h1 & ->)|(url & h1 & -> & Hurl)].
    + cbn [truthy from_option].
      destruct (IH created0 md0 h1 t) as (new & md & h' & -> & Hlen & Hin & Hout).
      exists new, md, h'. split_and!; [done|simpl; lia| |done].
      intros n Hn. destruct (Hin n Hn) as (test' & Htest & Hmd).
      exists test'. split; [by right|done].
    + rewrite Hurl. cbn [default].
      set (md1 := if truthy (extract_issue_number_from_url (id url))
                  then <[default "" (extract_issue_number_from_url (id url))
                         := metadata_of_test test]> md0
                  else md0).
      destruct (IH (created0 ++ [id url]) md1 h1 (t ++ [Sleep 10]))
        as (new & md & h' & -> & Hlen & Hin & Hout).
      change (id url) with url in *.
      exists (url :: new), md, h'. rewrite <- !app_assoc.
      cbn [app length replicate]. split_and!; [done|lia| |].
      * intros n. rewrite issue_numbers_of_cons, elem_of_app. intros Hn.
        destruct (decide (n ∈ issue_numbers_of new)) as [Hnew|Hnew].
        { destruct (Hin n Hnew) as (test' & Htest & Hmd).
          exists test'. split; [by right|done]. }
        destruct Hn as [Hn|Hn]; [|done].
        destruct (extract_issue_number_from_url url) as [k|] eqn:Hk;
          [|by apply elem_of_nil in Hn].
        apply list_elem_of_singleton in Hn as ->.
        exists test. split; [by left|]. rewrite (Hout k Hnew). unfold md1.
        rewrite (extract_issue_number_truthy _ _ Hk). cbn [default].
        apply lookup_insert_eq.
      * intros n. rewrite issue_numbers_of_cons, elem_of_app. intros Hn.
        rewrite Hout by tauto. unfold md1.
        destruct (extract_issue_number_from_url url) as [k|] eqn:Hk; [|done].
        rewrite (extract_issue_number_truthy _ _ Hk). cbn [default].
        change (id k) with k.
        apply lookup_insert_ne. intros ->. apply Hn. left. by left.
Qed.

(** X11. The bookkeeping of [test_workflow]: the creation loop never
    fails; it waits ten seconds for each issue created and for no other
    reason; at most one issue is created per scenario; the dictionary of
    metadata has an entry for exactly the issue numbers that
    [validate_test_issues] will read off the created URLs, and each entry is
    the metadata of one of the scenarios. The validation then runs on these
    lists, and its failure is the failure of the test. *)
Theorem test_workflow_bookkeeping (sh : Shell) (json_loads : string → option Issue)
    (w : World) (repo : string) (test_scenarios : list Test) (h : history) (t : trace) :
  ∃ created_issues scenario_metadata h',
    create_issues sh json_loads repo test_scenarios [] ∅ h t
    = (Ok (created_issues, scenario_metadata, h'),
       t ++ replicate (length created_issues) (Sleep 10))
    ∧ length created_issues ≤ length test_scenarios
    ∧ (∀ n, n ∈ issue_numbers_of created_issues ↔ is_Some (scenario_metadata !! n))
    ∧ (∀ n metadata, scenario_metadata !! n = Some metadata →
         ∃ test, test ∈ test_scenarios ∧ metadata = metadata_of_test test)
    ∧ test_workflow sh json_loads w repo test_scenarios h t
      = match validate_test_issues w repo created_issues scenario_metadata
                (t ++ replicate (length created_issues) (Sleep 10)) with
        | (Ok _, t') => (Ok h', t')
        | (Raise f, t') => (Raise f, t')
        end.
Proof.
  destruct (create_issues_bookkeeping sh json_loads repo test_scenarios [] ∅ h t)
    as (created & md & h' & Hrun & Hlen & Hin & Hout).
  rewrite app_nil_l in Hrun.
  exists created, md, h'. split_and!; [done|done| | |].
  - intros n. split.
    + intros Hn. destruct (Hin n Hn) as (test & _ & ->). by eexists.
    + intros [metadata Hmd]. destruct (decide (n ∈ issue_numbers_of created)); [done|].
      rewrite Hout, lookup_empty in Hmd by done. discriminate Hmd.
  - intros n metadata Hmd. destruct (decide (n ∈ issue_numbers_of created)) as [Hn|Hn].
    + destruct (Hin n Hn) as (test & Htest & Hmd'). exists test. split; [done|congruence].
    + rewrite Hout, lookup_empty in Hmd by done. discriminate Hmd.
  - unfold test_workflow. rewrite bind_run, Hrun, bind_run.
    by destruct (validate_test_issues w repo created md _) as [[[]|f] t'].
Qed.

Lemma create_issues_none (sh : Shell) (json_loads : string → option Issue)
    (repo : string) (test_scenarios : list Test) :
  (∀ h0 cmd, (command_result sh h0 cmd).1.1 ≠ 0%Z) →
  ∀ created0 md0 h t,
  ∃ h', create_issues sh json_loads repo test_scenarios created0 md0 h t
        = (Ok (created0, md0, h'), t).
Proof.
  intros Hdown. induction test_scenarios as [|test rest IH]; intros created0 md0 h t.
  - by exists h.
  - cbn [create_issues]. rewrite bind_run.
    destruct (command_result sh h (cmd_issue_create repo (test_title test) (test_body test)
                                     (test_labels test))) as [[e o] r] eqn:Hcmd.
    rewrite (create_test_issue_run _ _ _ _ _ _ _ _ _ _ _ _ Hcmd).
    pose proof (Hdown h (cmd_issue_create repo (test_title test) (test_body test)
                           (test_labels test))) as Hne.
    rewrite Hcmd in Hne. simpl in Hne. apply Z.eqb_neq in Hne. rewrite Hne.
    cbn [truthy from_option]. apply IH.
Qed.

(** X12. When no command succeeds (so no issue can be created),
    [test_workflow] validates nothing, waits for nothing and ends without a
    failure. *)
Theorem test_workflow_passes_without_issues (sh : Shell)
    (json_loads : string → option Issue) (w : World) (repo : string)
    (test_scenarios : list Test) (h : history) (t : trace) :
  (∀ h0 cmd, (command_result sh h0 cmd).1.1 ≠ 0%Z) →
  ∃ h', test_workflow sh json_loads w repo test_scenarios h t = (Ok h', t).
Proof.
  intros Hdown.
  destruct (create_issues_none sh json_loads repo test_scenarios Hdown [] ∅ h t)
    as [h' Hrun].
  exists h'. unfold test_workflow. by rewrite bind_run, Hrun.
Qed.

Lemma test_workflow_passes_without_issues_witness :
  (∀ h0 cmd, (command_result shell_down h0 cmd).1.1 ≠ 0%Z)
  ∧ ∃ h', test_workflow shell_down (λ _, None) world_only_11 "okd-project/okd"
            [test_scenario_5; test_scenario_5] [] [] = (Ok h', []).
Proof.
  assert (∀ h0 cmd, (command_result shell_down h0 cmd).1.1 ≠ 0%Z) as Hdown
    by (intros h0 cmd; discriminate).
  split; [exact Hdown|].
  exact (test_workflow_passes_without_issues shell_down (λ _, None) world_only_11
           "okd-project/okd" [test_scenario_5; test_scenario_5] [] [] Hdown).
Defined.

Example test_workflow_one_issue :
  test_workflow shell_creates_17 (λ _, None)
    (constant_world [sample_run "AI Triage for Issue #17" "completed" "success"]
       ["kind/bug"; "ai:bug-triage:high-coreapi"]
       [mkComment "AI Assessment: medium-CoreAPI"])
    "okd-project/okd" [test_scenario_5] [] []
  = (Ok [cmd_issue_create "okd-project/okd" (test_title test_scenario_5)
           (test_body test_scenario_5) (test_labels test_scenario_5);
         cmd_issue_view "okd-project/okd" "17"],
     [Sleep 10; GetWorkflowRuns "okd-project/okd"; Sleep 2;
      GetIssueLabels "okd-project/okd" "17"; Sleep 2;
      GetIssueComments "okd-project/okd" "17"]).
Proof. vm_compute. reflexivity. Qed.

Lemma test_workflow_bookkeeping_witness :
  ∃ created_issues scenario_metadata h',
    create_issues shell_creates_17 (λ _, None) "okd-project/okd" [test_scenario_5] [] ∅ [] []
    = (Ok (created_issues, scenario_metadata, h'),
       [] ++ replicate (length created_issues) (Sleep 10))
    ∧ length created_issues ≤ 1.
Proof.
  destruct (test_workflow_bookkeeping shell_creates_17 (λ _, None) world_only_11
              "okd-project/okd" [test_scenario_5] [] [])
    as (created & md & h' & Hrun & Hlen & _).
  exists created, md, h'. split; [exact Hrun|exact Hlen].
Defined.

(* ===================================================================== *)
(** * The label validator in general *)
(* ===================================================================== *)

Lemma validate_ai_label_satisfied (issue_number scen : string) (actual : list string)
    (e : string) (t : trace) :
  (validate_ai_label issue_number scen actual e t).1 = Ok tt ↔ label_satisfied actual e.
Proof.
  unfold label_satisfied, validate_ai_label, mem.
  destruct (startswith "ai:bug-triage:" e); cbn [negb].
  - destruct (label_component e) as [comp|].
    + destruct (existsb (component_matches comp) actual) eqn:Hex.
      * split; [|done]. intros _.
        apply existsb_exists in Hex as (a & Ha%list_elem_of_In & Hm).
        unfold component_matches in Hm. apply andb_true_iff in Hm as [Hp Hc].
        apply bool_decide_eq_true in Hc. eauto.
      * split; [done|]. intros (a & Ha & Hp & Hc).
        assert (existsb (component_matches comp) actual = true) as Hex'; [|congruence].
        apply existsb_exists. exists a. split; [by apply list_elem_of_In|].
        unfold component_matches. rewrite Hp. by apply bool_decide_eq_true.
    + by case_bool_decide.
  - by case_bool_decide.
Qed.

Lemma for_each_ai_labels (issue_number scen : string) (actual es : list string)
    (t : trace) :
  (for_each (validate_ai_label issue_number scen actual) es t).1 = Ok tt
  ↔ ∀ e, e ∈ es → label_satisfied actual e.
Proof.
  induction es as [|e es IH].
  - split; [|done]. intros _ e He. by apply elem_of_nil in He.
  - rewrite for_each_cons.
    pose proof (validate_ai_label_satisfied issue_number scen actual e t) as Hone.
    pose proof (validate_ai_label_trace issue_number scen actual e t) as Htr.
    destruct (validate_ai_label issue_number scen actual e t) as [[[]|f] t'];
      simpl in Hone, Htr; subst t'.
    + rewrite IH. split.
      * intros Hall e' [->|He']%elem_of_cons; [by apply Hone|by apply Hall].
      * intros Hall e' He'. apply Hall. by right.
    + split; [done|]. intros Hall.
      assert (label_satisfied actual e) as Hs by (apply Hall; left).
      apply Hone in Hs. discriminate Hs.
Qed.

Lemma mem_true (x : string) (l : list string) : mem x l = true ↔ x ∈ l.
Proof. unfold mem. apply bool_decide_eq_true. Qed.

Lemma labels_pass (w : World) (repo issue_number : string) (expected : list string)
    (scen : string) (t : trace) :
  (_validate_issue_labels w repo issue_number expected scen t).1 = Ok tt
  ↔ ("kind/bug" ∈ expected → "kind/bug" ∈ issue_labels w (t ++ [Sleep 2]) repo issue_number)
    ∧ ∀ e, e ∈ expected → startswith "ai:" e = true →
           label_satisfied (issue_labels w (t ++ [Sleep 2]) repo issue_number) e.
Proof.
  rewrite labels_run. cbv zeta. unfold py_set.
  set (actual := issue_labels w (t ++ [Sleep 2]) repo issue_number).
  assert ((∀ e, e ∈ filter (λ label, startswith "ai:" label = true) (remove_dups expected)
                → label_satisfied actual e)
          ↔ ∀ e, e ∈ expected → startswith "ai:" e = true → label_satisfied actual e)
    as Hfilter.
  { split.
    - intros H e He Hai. apply H. apply list_elem_of_filter. split; [done|].
      by rewrite elem_of_remove_dups.
    - intros H e [Hai He]%list_elem_of_filter. rewrite elem_of_remove_dups in He.
      by apply H. }
  destruct (mem "kind/bug" (remove_dups expected)) eqn:Hexp.
  - apply mem_true in Hexp. rewrite elem_of_remove_dups in Hexp.
    destruct (mem "kind/bug" actual) eqn:Hact; cbn [negb andb].
    + apply mem_true in Hact. rewrite for_each_ai_labels, Hfilter. tauto.
    + split; [done|]. intros [Hkb _]. apply Hkb, mem_true in Hexp. congruence.
  - cbn [andb]. rewrite for_each_ai_labels, Hfilter.
    assert ("kind/bug" ∉ expected) as Hno.
    { intros Hin. rewrite <- elem_of_remove_dups in Hin. apply mem_true in Hin.
      congruence. }
    tauto.
Qed.

(** X13. When the label validator passes, for any expected labels and any
    labels of the issue: [kind/bug], if expected, is on the issue, and every
    expected label that starts with [ai:] is satisfied: one of the shape
    [ai:bug-triage:severity-component] by some [ai:bug-triage:] label of the
    issue with the same component, any other by itself. Nothing else counts,
    so the verdict does not depend on the order or repetition of the
    expected labels. *)
Theorem labels_pass_iff (w : World) (repo issue_number : string) (expected : list string)
    (scen : string) (t : trace) :
  ((_validate_issue_labels w repo issue_number expected scen t).1 = Ok tt
   ↔ ("kind/bug" ∈ expected
      → "kind/bug" ∈ issue_labels w (t ++ [Sleep 2]) repo issue_number)
     ∧ ∀ e, e ∈ expected → startswith "ai:" e = true →
            label_satisfied (issue_labels w (t ++ [Sleep 2]) repo issue_number) e)
  ∧ ∀ expected', (∀ x, x ∈ expected ↔ x ∈ expected') →
      ((_validate_issue_labels w repo issue_number expected scen t).1 = Ok tt
       ↔ (_validate_issue_labels w repo issue_number expected' scen t).1 = Ok tt).
Proof.
  split; [apply labels_pass|].
  intros expected' Hsame. rewrite !labels_pass. by setoid_rewrite Hsame.
Qed.

Lemma labels_pass_iff_witness :
  (_validate_issue_labels (constant_world [] labels_coreapi []) "okd/okd" "7"
     ["ai:bug-triage:critical-coreapi"; "kind/bug"; "kind/bug"] "S1" []).1 = Ok tt.
Proof.
  apply (proj1 (labels_pass_iff (constant_world [] labels_coreapi []) "okd/okd" "7"
                  ["ai:bug-triage:critical-coreapi"; "kind/bug"; "kind/bug"] "S1" [])).
  split.
  - intros _. right. left.
  - intros e He Hai. simpl in He.
    apply elem_of_cons in He as [->|He].
    + exists "ai:bug-triage:high-coreapi". split_and!; [left|reflexivity|reflexivity].
    + apply elem_of_cons in He as [->|He]; [discriminate Hai|].
      apply elem_of_cons in He as [->|He]; [discriminate Hai|].
      by apply elem_of_nil in He.
Defined.



Lemma startswith_true (p s : string) : startswith p s = true ↔ is_Some (strip_prefix p s).
Proof. unfold startswith. apply bool_decide_eq_true. Qed.

Lemma startswith_app (p s : string) : startswith p (p +:+ s) = true.
Proof. apply startswith_true. rewrite strip_prefix_app. by eexists. Qed.

Lemma ai_prefix_has_colon (s : string) :
  string_forall (λ c, negb (Ascii.eqb c ":")) s = true →
  startswith "ai:bug-triage:" s = false.
Proof.
  intros Hs. apply not_true_is_false. intros [r Hr]%startswith_true.
  apply strip_prefix_Some in Hr as ->. rewrite string_forall_app in Hs.
  discriminate Hs.
Qed.

Lemma remove_all_no_colon (s : string) :
  string_forall (λ c, negb (Ascii.eqb c ":")) s = true →
  remove_all_from "ai:bug-triage:" 0 s = s.
Proof.
  induction s as [|c s IH]; [done|]. intros Hs.
  cbn [remove_all_from]. rewrite (ai_prefix_has_colon _ Hs).
  simpl in Hs. apply andb_true_iff in Hs as [_ Hs]. by rewrite IH.
Qed.

Lemma remove_all_ai_prefix (rest : string) :
  remove_all "ai:bug-triage:" ("ai:bug-triage:" +:+ rest)
  = remove_all_from "ai:bug-triage:" 0 rest.
Proof.
  unfold remove_all.
  change ("ai:bug-triage:" +:+ rest) with (String "a" ("i:bug-triage:" +:+ rest)).
  cbn [remove_all_from].
  change (String "a" ("i:bug-triage:" +:+ rest)) with ("ai:bug-triage:" +:+ rest).
  rewrite startswith_app. reflexivity.
Qed.

Lemma split1_at_dash (sev comp : string) :
  string_forall (λ c, negb (Ascii.eqb c "-")) sev = true →
  split1 "-" (sev +:+ "-" +:+ comp) = (sev, Some comp).
Proof.
  intros Hsev. induction sev as [|c sev IH]; [reflexivity|].
  simpl in Hsev. apply andb_true_iff in Hsev as [Hc Hsev]. apply negb_true_iff in Hc.
  rewrite app_cons. cbn [split1]. rewrite Hc, IH by done. reflexivity.
Qed.

(** The component of a label of the shape
    [ai:bug-triage:severity-component]. *)
Lemma label_component_shaped (sev comp : string) :
  string_forall (λ c, negb (Ascii.eqb c ":")) sev = true →
  string_forall (λ c, negb (Ascii.eqb c "-")) sev = true →
  string_forall (λ c, negb (Ascii.eqb c ":")) comp = true →
  label_component ("ai:bug-triage:" +:+ sev +:+ "-" +:+ comp) = Some comp.
Proof.
  intros Hsc Hsd Hcc. unfold label_component.
  rewrite remove_all_ai_prefix, remove_all_no_colon.
  - by rewrite split1_at_dash.
  - rewrite !string_forall_app, Hsc, Hcc. reflexivity.
Qed.

(** X15. The severity of an expected label is not compared. For an
    expected label [ai:bug-triage:sev1-comp] alone (severity without dash,
    neither part with a colon), the label validator passes exactly when
    the issue has an [ai:bug-triage:] label whose component is [comp]; in
    particular it passes on [ai:bug-triage:sev2-comp] for every severity
    [sev2], in the vocabulary or not. *)
Theorem severity_is_not_compared (w : World) (repo issue_number scen : string) (t : trace)
    (sev1 sev2 comp : string) :
  string_forall (λ c, negb (Ascii.eqb c ":")) sev1 = true →
  string_forall (λ c, negb (Ascii.eqb c "-")) sev1 = true →
  string_forall (λ c, negb (Ascii.eqb c ":")) sev2 = true →
  string_forall (λ c, negb (Ascii.eqb c "-")) sev2 = true →
  string_forall (λ c, negb (Ascii.eqb c ":")) comp = true →
  ((_validate_issue_labels w repo issue_number
      ["ai:bug-triage:" +:+ sev1 +:+ "-" +:+ comp] scen t).1 = Ok tt
   ↔ ∃ actual_label,
       actual_label ∈ issue_labels w (t ++ [Sleep 2]) repo issue_number
       ∧ startswith "ai:bug-triage:" actual_label = true
       ∧ label_component actual_label = Some comp)
  ∧ ("ai:bug-triage:" +:+ sev2 +:+ "-" +:+ comp
     ∈ issue_labels w (t ++ [Sleep 2]) repo issue_number →
     _validate_issue_labels w repo issue_number
       ["ai:bug-triage:" +:+ sev1 +:+ "-" +:+ comp] scen t
     = (Ok tt, t ++ [Sleep 2; GetIssueLabels repo issue_number])).
Proof.
  intros Hs1c Hs1d Hs2c Hs2d Hcc.
  set (e := "ai:bug-triage:" +:+ sev1 +:+ "-" +:+ comp).
  assert (label_satisfied (issue_labels w (t ++ [Sleep 2]) repo issue_number) e
          ↔ ∃ actual_label,
              actual_label ∈ issue_labels w (t ++ [Sleep 2]) repo issue_number
              ∧ startswith "ai:bug-triage:" actual_label = true
              ∧ label_component actual_label = Some comp) as Hsat.
  { unfold label_satisfied, e. by rewrite startswith_app, label_component_shaped. }
  assert ((_validate_issue_labels w repo issue_number [e] scen t).1 = Ok tt
          ↔ label_satisfied (issue_labels w (t ++ [Sleep 2]) repo issue_number) e) as Hpass.
  { rewrite labels_pass. split.
    - intros [_ Hall]. apply Hall; [left|reflexivity].
    - intros Hs. split.
      + intros Hkb%list_elem_of_singleton. discriminate Hkb.
      + by intros e' ->%list_elem_of_singleton _. }
  split; [by rewrite Hpass, Hsat|].
  intros Hin.
  assert ((_validate_issue_labels w repo issue_number [e] scen t).1 = Ok tt) as Hok.
  { apply Hpass, Hsat. exists ("ai:bug-triage:" +:+ sev2 +:+ "-" +:+ comp).
    split_and!; [done|apply startswith_app|by apply label_component_shaped]. }
  pose proof (labels_trace w repo issue_number [e] scen t) as Htr.
  destruct (_validate_issue_labels w repo issue_number [e] scen t) as [[[]|f] t'];
    simpl in Hok, Htr; [by subst|discriminate Hok].
Qed.

Lemma severity_is_not_compared_witness :
  _validate_issue_labels (constant_world [] ["kind/bug"; "ai:bug-triage:urgent-storage"] [])
    "okd/okd" "7" ["ai:bug-triage:" +:+ "low" +:+ "-" +:+ "storage"] "S1" []
  = (Ok tt, [Sleep 2; GetIssueLabels "okd/okd" "7"]).
Proof.
  apply (proj2 (severity_is_not_compared
                  (constant_world [] ["kind/bug"; "ai:bug-triage:urgent-storage"] [])
                  "okd/okd" "7" "S1" [] "low" "urgent" "storage"
                  eq_refl eq_refl eq_refl eq_refl eq_refl)).
  right. left.
Defined.

(* ===================================================================== *)
(** * The completion validator in general *)
(* ===================================================================== *)

Lemma other_status_raise (w : World) (repo issue_number : string)
    (metadata : Metadata) (attempt : nat) (t : trace) (run : Run) (s : string) :
  find_run issue_number (workflow_runs w t repo) = Some run →
  has_required_fields run = true →
  default "unknown" (status run) = s →
  s ≠ "in_progress" → s ≠ "completed" →
  _validate_issue_with_retry_body w repo issue_number metadata attempt t
  = (Raise (NotEqual s "completed"
              (msg_not_completed issue_number (default "Unknown" (scenario metadata)))),
     t ++ [GetWorkflowRuns repo]).
Proof.
  intros Hrun Hreq Hs Hnp Hnc.
  unfold _validate_issue_with_retry_body, get_workflow_runs.
  rewrite bind_run, Hrun. unfold has_required_fields in Hreq.
  apply andb_true_iff in Hreq as [[-> ->]%andb_true_iff ->]. cbn [negb]. rewrite Hs.
  apply String.eqb_neq in Hnp, Hnc. rewrite Hnp. cbn [andb].
  unfold assertEqual. rewrite Hnc. reflexivity.
Qed.

(** X16. Only [in_progress] is waited for. A correlated run with its
    required fields and any other status than [in_progress] and [completed]
    ([queued], or no status at all, read as [unknown]) fails the validator at
    once, at whatever attempt, with the failure of
    [assertEqual(status, "completed")]: nothing is waited for and no further
    probe is made. *)
Theorem other_status_fails_at_once (w : World) (repo issue_number : string)
    (metadata : Metadata) (attempt : nat) (rest : list nat) (t : trace) (run : Run)
    (s : string) :
  find_run issue_number (workflow_runs w t repo) = Some run →
  has_required_fields run = true →
  default "unknown" (status run) = s →
  s ≠ "in_progress" → s ≠ "completed" →
  for_attempts (_validate_issue_with_retry_body w repo issue_number metadata)
    (attempt :: rest) t
  = (Raise (NotEqual s "completed"
              (issue_tag issue_number (default "Unknown" (scenario metadata))
               +:+ " did not complete")),
     t ++ [GetWorkflowRuns repo]).
Proof.
  intros Hrun Hreq Hs Hnp Hnc.
  by apply for_attempts_raise, other_status_raise with run.
Qed.

Lemma other_status_fails_at_once_witness :
  for_attempts
    (_validate_issue_with_retry_body (constant_world [run_17_queued] [] [])
       "okd/okd" "17" no_metadata) [0; 1; 2; 3] []
  = (Raise (NotEqual "queued" "completed" "Issue 17 (Unknown) did not complete"),
     [GetWorkflowRuns "okd/okd"]).
Proof.
  apply (other_status_fails_at_once (constant_world [run_17_queued] [] []) "okd/okd" "17"
           no_metadata 0 [1; 2; 3] [] run_17_queued "queued");
    first [reflexivity|discriminate].
Defined.

Lemma attempt_pending (w : World) (repo issue_number : string) (metadata : Metadata)
    (attempt : nat) (t : trace) :
  probe_pending w repo issue_number t → attempt < max_retries →
  _validate_issue_with_retry_body w repo issue_number metadata attempt t
  = (Ok Continue, t ++ [GetWorkflowRuns repo; Sleep (base_wait_seconds * 2 ^ attempt)]).
Proof.
  intros Hpend Hlt. apply Nat.ltb_lt in Hlt.
  destruct Hpend as [Hnone|(run & Hrun & Hreq & Hst)].
  - by rewrite attempt_no_run, Hlt.
  - by rewrite (attempt_in_progress _ _ _ _ _ _ run), Hlt.
Qed.

(** X17. A run that turns up late is still found. When the first [k]
    probes ([k] at most 3) find no run for the issue, or only a run still in
    progress, and probe [k] finds a run completed with success and with its
    required fields, the completion is validated at that probe, after the
    waits 10, 20, ... between the probes, and the validator goes on to the
    label and assessment checks. *)
Theorem late_run_is_validated (w : World) (repo issue_number : string)
    (metadata : Metadata) (t : trace) (k : nat) (run : Run) :
  k ≤ 3 →
  (∀ j, j < k → probe_pending w repo issue_number (before_probe repo t j)) →
  find_run issue_number (workflow_runs w (before_probe repo t k) repo) = Some run →
  has_required_fields run = true →
  status run = Some "completed" → conclusion run = Some "success" →
  _validate_issue_with_retry w repo issue_number metadata t
  = validate_side_effects w repo issue_number metadata
      (default "Unknown" (scenario metadata))
      (before_probe repo t k ++ [GetWorkflowRuns repo]).
Proof.
  intros Hk Hpend Hrun Hreq Hst Hc.
  unfold _validate_issue_with_retry. change (seq 0 (max_retries + 1)) with [0; 1; 2; 3].
  assert (∀ j, before_probe repo t (S j)
               = before_probe repo t j
                 ++ [GetWorkflowRuns repo; Sleep (base_wait_seconds * 2 ^ j)]) as Hnext.
  { intros j. unfold before_probe. rewrite seq_S, flat_map_app.
    cbn [flat_map Nat.add]. by rewrite app_nil_r, app_assoc. }
  assert (before_probe repo t 0 = t) as H0 by apply app_nil_r.
  assert (∀ j attempts, j < k → j < max_retries →
            for_attempts (_validate_issue_with_retry_body w repo issue_number metadata)
              (j :: attempts) (before_probe repo t j)
            = for_attempts (_validate_issue_with_retry_body w repo issue_number metadata)
                attempts (before_probe repo t (S j))) as Hstep.
  { intros j attempts Hj Hj3. apply for_attempts_continue.
    rewrite attempt_pending by auto. by rewrite Hnext. }
  assert (∀ attempts,
            for_attempts (_validate_issue_with_retry_body w repo issue_number metadata)
              (k :: attempts) (before_probe repo t k)
            = validate_side_effects w repo issue_number metadata
                (default "Unknown" (scenario metadata))
                (before_probe repo t k ++ [GetWorkflowRuns repo])) as Hdone.
  { intros attempts. by apply validated_then_side_effects with run. }
  rewrite <- H0 at 1. unfold max_retries in Hstep.
  destruct k as [|[|[|[|k]]]]; [| | | |lia].
  - apply Hdone.
  - rewrite Hstep by lia. apply Hdone.
  - rewrite !Hstep by lia. apply Hdone.
  - rewrite !Hstep by lia. apply Hdone.
Qed.

Lemma late_run_is_validated_witness :
  _validate_issue_with_retry world_late_run "okd/okd" "17" no_metadata []
  = (Ok tt, [GetWorkflowRuns "okd/okd"; Sleep 10; GetWorkflowRuns "okd/okd"; Sleep 20;
             GetWorkflowRuns "okd/okd"]).
Proof.
  refine (eq_trans (late_run_is_validated world_late_run "okd/okd" "17" no_metadata [] 2
                      run_17_success _ _ eq_refl eq_refl eq_refl eq_refl) eq_refl).
  - lia.
  - intros j Hj. left. destruct j as [|[|j]]; [reflexivity|reflexivity|lia].
Defined.

(* ===================================================================== *)
(** * Bounds on waiting and on gateway calls *)
(* ===================================================================== *)

Lemma total_sleep_app (k1 k2 : trace) :
  total_sleep (k1 ++ k2) = total_sleep k1 + total_sleep k2.
Proof. induction k1 as [|[] k1 IH]; simpl; lia. Qed.

Lemma gateway_calls_app (k1 k2 : trace) :
  gateway_calls (k1 ++ k2) = gateway_calls k1 + gateway_calls k2.
Proof. induction k1 as [|[] k1 IH]; simpl; lia. Qed.

Lemma within_refl (t : trace) (s c : nat) : within t t s c.
Proof. exists []. rewrite app_nil_r. simpl. split_and!; [done|lia|lia]. Qed.

Lemma within_trans (t t1 t2 : trace) (s1 c1 s2 c2 s c : nat) :
  within t t1 s1 c1 → within t1 t2 s2 c2 → s1 + s2 ≤ s → c1 + c2 ≤ c →
  within t t2 s c.
Proof.
  intros (k1 & -> & Hs1 & Hc1) (k2 & -> & Hs2 & Hc2) Hs Hc.
  exists (k1 ++ k2). rewrite app_assoc, total_sleep_app, gateway_calls_app.
  split_and!; [done|lia|lia].
Qed.

Lemma within_events (t k : trace) (s c : nat) :
  total_sleep k ≤ s → gateway_calls k ≤ c → within t (t ++ k) s c.
Proof. intros Hs Hc. by exists k. Qed.

Lemma assessment_within (w : World) (repo issue_number : string) (ea : option string)
    (scen : string) (t : trace) :
  within t (_validate_ai_assessment_comment w repo issue_number ea scen t).2 23 4.
Proof.
  rewrite assessment_run.
  assert (∀ attempt t0,
            (∃ o, _validate_ai_assessment_comment_body w repo issue_number scen attempt t0
                  = (o, t0 ++ [GetIssueComments repo issue_number])
                  ∧ o ≠ Ok Continue)
            ∨ (attempt < 3
               ∧ _validate_ai_assessment_comment_body w repo issue_number scen attempt t0
                 = (Ok Continue, t0 ++ [GetIssueComments repo issue_number;
                                        Sleep (3 * 2 ^ attempt)]))) as Hbody.
  { intros attempt t0. rewrite assessment_attempt. cbv zeta.
    destruct (valid_assessment_found _); [left; by eexists|].
    destruct (attempt <? max_comment_retries) eqn:Hlt; [|left; by eexists].
    right. apply Nat.ltb_lt in Hlt. done. }
  assert (∀ attempt attempts t0 s c,
            (∀ t1, within t1
                     (for_attempts (_validate_ai_assessment_comment_body w repo
                                      issue_number scen) attempts t1).2 s c) →
            within t0
              (for_attempts (_validate_ai_assessment_comment_body w repo issue_number scen)
                 (attempt :: attempts) t0).2
              (3 * 2 ^ attempt + s) (S c)) as Hloop.
  { intros attempt attempts t0 s c Hrest. rewrite for_attempts_cons.
    destruct (Hbody attempt t0) as [(o & -> & Ho)|[Hlt ->]].
    - destruct o as [[]|f]; [done| |]; (apply within_events; simpl; lia).
    - eapply within_trans; [|apply Hrest| |].
      + apply (within_events t0 _ (3 * 2 ^ attempt) 1); simpl; lia.
      + lia.
      + lia. }
  assert (∀ t1, within t1
            (for_attempts (_validate_ai_assessment_comment_body w repo issue_number scen)
               [3] t1).2 0 1) as H3.
  { intros t1. rewrite for_attempts_cons.
    destruct (Hbody 3 t1) as [(o & -> & Ho)|[Hlt _]]; [|lia].
    destruct o as [[]|f]; [done| |]; (apply within_events; simpl; lia). }
  pose proof (λ t1, Hloop 2 [3] t1 0 1 H3) as H2.
  pose proof (λ t1, Hloop 1 [2; 3] t1 _ _ H2) as H1.
  pose proof (λ t1, Hloop 0 [1; 2; 3] t1 _ _ H1) as H0.
  eapply within_trans; [|apply H0| |].
  - apply (within_events t [Sleep 2] 2 0); simpl; lia.
  - simpl. lia.
  - lia.
Qed.

Lemma side_effects_within (w : World) (repo issue_number : string) (metadata : Metadata)
    (scen : string) (t : trace) :
  within t (validate_side_effects w repo issue_number metadata scen t).2 25 5.
Proof.
  unfold validate_side_effects. rewrite bind_run.
  assert (∀ t1, within t1
            ((if from_option id false (is_positive metadata)
                 || from_option nonempty false (expected_assessment metadata)
              then _validate_ai_assessment_comment w repo issue_number
                     (expected_assessment metadata) scen
              else mret tt) t1).2 23 4) as Hassess.
  { intros t1. destruct (_ || _); [apply assessment_within|apply within_refl]. }
  destruct (expected_labels metadata) as [[|l ls]|].
  - eapply within_trans; [apply (within_refl _ 0 0)|apply Hassess| |]; lia.
  - pose proof (labels_trace w repo issue_number (l :: ls) scen t) as Htr.
    destruct (_validate_issue_labels w repo issue_number (l :: ls) scen t) as [[[]|f] t'];
      simpl in Htr; subst t'.
    + eapply within_trans; [|apply Hassess| |].
      * apply (within_events t _ 2 1); simpl; lia.
      * lia.
      * lia.
    + apply within_events; simpl; lia.
  - eapply within_trans; [apply (within_refl _ 0 0)|apply Hassess| |]; lia.
Qed.

Lemma completion_attempt_cases (w : World) (repo issue_number : string)
    (metadata : Metadata) (attempt : nat) (t : trace) :
  (attempt < 3
   ∧ _validate_issue_with_retry_body w repo issue_number metadata attempt t
     = (Ok Continue, t ++ [GetWorkflowRuns repo; Sleep (10 * 2 ^ attempt)]))
  ∨ (∃ f, _validate_issue_with_retry_body w repo issue_number metadata attempt t
          = (Raise f, t ++ [GetWorkflowRuns repo]))
  ∨ _validate_issue_with_retry_body w repo issue_number metadata attempt t
    = (validate_side_effects w repo issue_number metadata
         (default "Unknown" (scenario metadata));; mret Return)
        (t ++ [GetWorkflowRuns repo]).
Proof.
  destruct (find_run issue_number (workflow_runs w t repo)) as [run|] eqn:Hrun.
  - destruct (has_required_fields run) eqn:Hreq.
    + destruct (String.eqb_spec (default "unknown" (status run)) "in_progress") as [Hs|Hs].
      * assert (status run = Some "in_progress") as Hst.
        { destruct (status run); simpl in Hs; [by subst|discriminate Hs]. }
        rewrite (attempt_in_progress _ _ _ _ _ _ run) by done.
        destruct (attempt <? max_retries) eqn:Hlt.
        -- left. apply Nat.ltb_lt in Hlt. done.
        -- right. left. by eexists.
      * destruct (String.eqb_spec (default "unknown" (status run)) "completed") as [Hc|Hc].
        -- assert (status run = Some "completed") as Hst.
           { destruct (status run); simpl in Hc; [by subst|discriminate Hc]. }
           rewrite (attempt_completed _ _ _ _ _ _ run) by done.
           destruct (String.eqb_spec (default "unknown" (conclusion run)) "success")
             as [Hok|Hbad].
           ++ right. right. rewrite Hok. reflexivity.
           ++ right. left. unfold assertEqual. apply String.eqb_neq in Hbad.
              rewrite bind_run, Hbad. by eexists.
        -- right. left. eexists.
           pose proof (other_status_raise w repo issue_number metadata attempt t run
                         _ Hrun Hreq eq_refl Hs Hc) as Hraise.
           exact Hraise.
    + right. left. eexists. by apply attempt_missing_field.
  - rewrite attempt_no_run by done. destruct (attempt <? max_retries) eqn:Hlt.
    + left. apply Nat.ltb_lt in Hlt. done.
    + right. left. by eexists.
Qed.

Lemma completion_within (w : World) (repo issue_number : string) (metadata : Metadata)
    (t : trace) :
  within t (_validate_issue_with_retry w repo issue_number metadata t).2 95 9.
Proof.
  unfold _validate_issue_with_retry. change (seq 0 (max_retries + 1)) with [0; 1; 2; 3].
  assert (∀ attempt attempts t0 s c,
            (attempt < 3 → ∀ t1,
               within t1 (for_attempts (_validate_issue_with_retry_body w repo issue_number
                                          metadata) attempts t1).2 s c) →
            within t0
              (for_attempts (_validate_issue_with_retry_body w repo issue_number metadata)
                 (attempt :: attempts) t0).2
              (Nat.max 25 (10 * 2 ^ attempt + s)) (Nat.max 6 (1 + c))) as Hloop.
  { intros attempt attempts t0 s c Hrest. rewrite for_attempts_cons.
    destruct (completion_attempt_cases w repo issue_number metadata attempt t0)
      as [[Hlt ->]|[[f ->]| ->]].
    - eapply within_trans; [|apply (Hrest Hlt)| |].
      + apply (within_events t0 _ (10 * 2 ^ attempt) 1); cbn [total_sleep gateway_calls]; lia.
      + lia.
      + lia.
    - apply within_events; cbn [total_sleep gateway_calls]; lia.
    - rewrite then_return.
      pose proof (side_effects_within w repo issue_number metadata
                    (default "Unknown" (scenario metadata))
                    (t0 ++ [GetWorkflowRuns repo])) as Hside.
      destruct (validate_side_effects _ _ _ _ _ _) as [[[]|f] t']; simpl in Hside |- *;
        (eapply within_trans; [|exact Hside| |];
           [apply (within_events t0 _ 0 1); cbn [total_sleep gateway_calls]; lia|lia|lia]). }
  assert (∀ attempt attempts t0,
            ¬ attempt < 3 →
            within t0
              (for_attempts (_validate_issue_with_retry_body w repo issue_number metadata)
                 (attempt :: attempts) t0).2 25 6) as Hlast.
  { intros attempt attempts t0 Hge. rewrite for_attempts_cons.
    destruct (completion_attempt_cases w repo issue_number metadata attempt t0)
      as [[Hlt _]|[[f ->]| ->]]; [done| |].
    - apply within_events; cbn [total_sleep gateway_calls]; lia.
    - rewrite then_return.
      pose proof (side_effects_within w repo issue_number metadata
                    (default "Unknown" (scenario metadata))
                    (t0 ++ [GetWorkflowRuns repo])) as Hside.
      destruct (validate_side_effects _ _ _ _ _ _) as [[[]|f] t']; simpl in Hside |- *;
        (eapply within_trans; [|exact Hside| |];
           [apply (within_events t0 _ 0 1); cbn [total_sleep gateway_calls]; lia|lia|lia]). }
  pose proof (λ t1, Hlast 3 [] t1 (Nat.lt_irrefl 3)) as H3.
  pose proof (λ t1, Hloop 2 [3] t1 25 6 (λ _, H3)) as H2.
  pose proof (λ t1, Hloop 1 [2; 3] t1 _ _ (λ _, H2)) as H1.
  pose proof (Hloop 0 [1; 2; 3] t _ _ (λ _, H1)) as H0.
  exact H0.
Qed.

(** X18. Whatever the tracker answers, the validation of one issue only
    adds to the trace, sleeps at most 95 seconds in all (10+20+40 for the
    run, 2 for the labels, 2+3+6+12 for the comment) and calls the gateway
    at most 9 times; the validation of all created issues stays within as
    many times these bounds as there are issue numbers. *)
Theorem validation_is_bounded (w : World) (repo : string) (t : trace) :
  (∀ issue_number metadata,
     within t (_validate_issue_with_retry w repo issue_number metadata t).2 95 9)
  ∧ (∀ created_issues scenario_metadata,
       within t (validate_test_issues w repo created_issues scenario_metadata t).2
         (95 * length (issue_numbers_of created_issues))
         (9 * length (issue_numbers_of created_issues))).
Proof.
  split; [intros; apply completion_within|].
  intros created_issues scenario_metadata. unfold validate_test_issues. cbv zeta.
  generalize (issue_numbers_of created_issues) as issue_numbers. intros issue_numbers.
  revert t. induction issue_numbers as [|n ns IH]; intros t.
  - apply within_refl.
  - rewrite for_each_cons.
    pose proof (completion_within w repo n (default no_metadata (scenario_metadata !! n)) t)
      as Hone.
    destruct (_validate_issue_with_retry w repo n _ t) as [[[]|f] t1]; simpl in Hone.
    + eapply within_trans; [exact Hone|apply IH| |]; simpl; lia.
    + eapply within_trans; [exact Hone|apply (within_refl _ 0 0)| |]; simpl; lia.
Qed.

(* ===================================================================== *)
(** * The assessment validator in general *)
(* ===================================================================== *)

(** X19. The assessment validator succeeds exactly when one of its four
    fetches (after the waits 2, then 3, 6 and 12 seconds) shows a comment
    that has the marker in its exact spelling and a token of the
    vocabulary; a comment that arrives late, within the four fetches, is
    enough, and what the earlier fetches showed does not count. *)
Theorem assessment_passes_iff (w : World) (repo issue_number : string)
    (ea : option string) (scen : string) (t : trace) :
  (_validate_ai_assessment_comment w repo issue_number ea scen t).1 = Ok tt
  ↔ ∃ k, k < 4
         ∧ valid_assessment_found
             (issue_comments w (before_fetch repo issue_number t k) repo issue_number)
           = true.
Proof.
  rewrite assessment_run.
  assert (∀ j, before_fetch repo issue_number t (S j)
               = before_fetch repo issue_number t j
                 ++ [GetIssueComments repo issue_number;
                     Sleep (comment_base_wait_seconds * 2 ^ j)]) as Hnext.
  { intros j. unfold before_fetch. rewrite seq_S, flat_map_app.
    cbn [flat_map Nat.add]. by rewrite app_nil_r, !app_assoc. }
  assert (before_fetch repo issue_number t 0 = t ++ [Sleep 2]) as H0.
  { unfold before_fetch. simpl. reflexivity. }
  rewrite <- H0.
  assert (∀ j attempts,
            valid_assessment_found
              (issue_comments w (before_fetch repo issue_number t j) repo issue_number)
            = true →
            (for_attempts (_validate_ai_assessment_comment_body w repo issue_number scen)
               (j :: attempts) (before_fetch repo issue_number t j)).1 = Ok tt) as Hfound.
  { intros j attempts Hv.
    erewrite for_attempts_return; [done|].
    rewrite assessment_attempt. cbv zeta. by rewrite Hv. }
  assert (∀ j attempts, j < 3 →
            valid_assessment_found
              (issue_comments w (before_fetch repo issue_number t j) repo issue_number)
            = false →
            for_attempts (_validate_ai_assessment_comment_body w repo issue_number scen)
              (j :: attempts) (before_fetch repo issue_number t j)
            = for_attempts (_validate_ai_assessment_comment_body w repo issue_number scen)
                attempts (before_fetch repo issue_number t (S j))) as Hskip.
  { intros j attempts Hj Hv. apply for_attempts_continue.
    rewrite assessment_attempt. cbv zeta. rewrite Hv.
    apply Nat.ltb_lt in Hj. unfold max_comment_retries. by rewrite Hj, Hnext. }
  destruct (valid_assessment_found
              (issue_comments w (before_fetch repo issue_number t 0) repo issue_number))
    eqn:Hv0.
  { split; [|by intros; apply Hfound]. intros _. exists 0. split; [lia|done]. }
  rewrite Hskip by (done || lia).
  destruct (valid_assessment_found
              (issue_comments w (before_fetch repo issue_number t 1) repo issue_number))
    eqn:Hv1.
  { split; [|by intros; apply Hfound]. intros _. exists 1. split; [lia|done]. }
  rewrite Hskip by (done || lia).
  destruct (valid_assessment_found
              (issue_comments w (before_fetch repo issue_number t 2) repo issue_number))
    eqn:Hv2.
  { split; [|by intros; apply Hfound]. intros _. exists 2. split; [lia|done]. }
  rewrite Hskip by (done || lia).
  destruct (valid_assessment_found
              (issue_comments w (before_fetch repo issue_number t 3) repo issue_number))
    eqn:Hv3.
  { split; [|by intros; apply Hfound]. intros _. exists 3. split; [lia|done]. }
  erewrite for_attempts_raise;
    [|rewrite assessment_attempt; cbv zeta; rewrite Hv3; reflexivity].
  split; [done|]. intros (k & Hk & Hv).
  destruct k as [|[|[|[|k]]]]; [congruence..|lia].
Qed.

Lemma assessment_passes_iff_witness :
  (_validate_ai_assessment_comment world_late_comment "okd/okd" "7" None "S1" []).1 = Ok tt.
Proof.
  apply (proj2 (assessment_passes_iff world_late_comment "okd/okd" "7" None "S1" [])).
  exists 1. split; [lia|reflexivity].
Defined.

Example late_comment_trace :
  _validate_ai_assessment_comment world_late_comment "okd/okd" "7" None "S1" []
  = (Ok tt, [Sleep 2; GetIssueComments "okd/okd" "7"; Sleep 3;
             GetIssueComments "okd/okd" "7"]).
Proof. reflexivity. Qed.

(* ===================================================================== *)
(** * The vocabulary *)
(* ===================================================================== *)

Lemma lower_app (s1 s2 : string) : lower (s1 +:+ s2) = lower s1 +:+ lower s2.
Proof. induction s1 as [|c s1 IH]; [reflexivity|]. rewrite app_cons. simpl. by rewrite IH. Qed.

Lemma eqb_ci_true (a b : ascii) : eqb_ci a b = true ↔ to_lower a = to_lower b.
Proof. unfold eqb_ci. apply Ascii.eqb_eq. Qed.

Lemma to_lower_idem (c : ascii) : to_lower (to_lower c) = to_lower c.
Proof. destruct c as [[] [] [] [] [] [] [] []]; reflexivity. Qed.

Lemma to_lower_dash (c : ascii) : to_lower c = "-"%char → c = "-"%char.
Proof. destruct c as [[] [] [] [] [] [] [] []]; vm_compute; congruence. Qed.

Lemma to_lower_newline (c : ascii) : to_lower c = "010"%char → c = "010"%char.
Proof. destruct c as [[] [] [] [] [] [] [] []]; vm_compute; congruence. Qed.

(** A literal in lower case matched under [re.IGNORECASE]: the text starts
    with the literal up to letter case. *)
Lemma strip_prefix_ci_lower (p s r : string) :
  lower p = p →
  strip_prefix_ci p s = Some r ↔ ∃ q, s = q +:+ r ∧ lower q = p.
Proof.
  revert s. induction p as [|a p IH]; intros s Hp.
  - split.
    + destruct s; intros [= <-]; by exists "".
    + intros (q & -> & Hq). destruct q; [by destruct r|discriminate Hq].
  - simpl in Hp. injection Hp as Ha Hp. destruct s as [|b s].
    + split; [done|]. intros ([|c q] & Hs & Hq); [discriminate Hq|discriminate Hs].
    + cbn [strip_prefix_ci]. destruct (eqb_ci a b) eqn:Hab.
      * apply eqb_ci_true in Hab. rewrite IH by done. split.
        -- intros (q & -> & Hq). exists (String b q). rewrite app_cons. split; [done|].
           simpl. by rewrite <- Hab, Ha, Hq.
        -- intros ([|c q] & Hs & Hq); [discriminate Hq|].
           rewrite app_cons in Hs. injection Hs as -> ->. simpl in Hq.
           injection Hq as _ Hq. by exists q.
      * split; [done|]. intros ([|c q] & Hs & Hq); [discriminate Hq|].
        rewrite app_cons in Hs. injection Hs as -> ->. simpl in Hq.
        injection Hq as Hc _. apply not_true_iff_false in Hab. destruct Hab.
        apply eqb_ci_true. by rewrite Hc, Ha.
Qed.

Lemma lower_split (s p r' : string) :
  lower s = p +:+ r' → ∃ q r, s = q +:+ r ∧ lower q = p ∧ lower r = r'.
Proof.
  revert s. induction p as [|a p IH]; intros s Hs.
  - by exists "", s.
  - destruct s as [|b s]; [discriminate Hs|]. rewrite app_cons in Hs. simpl in Hs.
    injection Hs as Hb Hs. destruct (IH s Hs) as (q & r & -> & Hq & Hr).
    exists (String b q), r. rewrite app_cons. simpl. by rewrite Hb, Hq.
Qed.

Lemma lower_empty (s : string) : lower s = "" → s = "".
Proof. by destruct s. Qed.

Lemma at_end_iff (e : string) : at_end e = true ↔ e = "" ∨ e = String "010" "".
Proof.
  unfold at_end. rewrite orb_true_iff, !String.eqb_eq. done.
Qed.

Lemma vocabulary_lower :
  Forall (λ p, lower p = p) severities ∧ Forall (λ p, lower p = p) components.
Proof. split; repeat constructor. Qed.

(** X20. The vocabulary of the assessment: a token is accepted exactly when,
    letter case apart, it is one of the four severities, a dash, and one of
    the six components (a single newline after it would be let through by
    the [$] of the pattern). *)
Theorem matches_vocabulary_iff (found_assessment : string) :
  matches_vocabulary found_assessment = true
  ↔ ∃ severity component,
      severity ∈ severities ∧ component ∈ components
      ∧ (lower found_assessment = severity +:+ "-" +:+ component
         ∨ lower found_assessment = severity +:+ "-" +:+ component +:+ String "010" "").
Proof.
  destruct vocabulary_lower as [Hsev Hcomp]. rewrite Forall_forall in Hsev, Hcomp.
  unfold matches_vocabulary. rewrite existsb_exists. split.
  - intros (sev & Hs%list_elem_of_In & Hm).
    destruct (strip_prefix_ci sev found_assessment) as [rest|] eqn:H1; [|done].
    apply strip_prefix_ci_lower in H1 as (q & -> & Hq); [|by apply Hsev].
    destruct (strip_prefix "-" rest) as [rest'|] eqn:H2; [|done].
    apply strip_prefix_Some in H2 as ->.
    apply existsb_exists in Hm as (comp & Hc%list_elem_of_In & Hm).
    destruct (strip_prefix_ci comp rest') as [e|] eqn:H3; [|done].
    apply strip_prefix_ci_lower in H3 as (q' & -> & Hq'); [|by apply Hcomp].
    exists sev, comp. split_and!; [done..|].
    rewrite !lower_app, Hq, Hq'. apply at_end_iff in Hm as [-> | ->]; [left|right].
    + by rewrite app_empty_r.
    + reflexivity.
  - intros (sev & comp & Hs & Hc & Hl). exists sev. split; [by apply list_elem_of_In|].
    assert (∃ e, lower found_assessment = sev +:+ "-" +:+ comp +:+ e
                 ∧ (e = "" ∨ e = String "010" "")) as (e & He & Hend).
    { destruct Hl as [Hl|Hl]; [exists ""|exists (String "010" "")]; split; auto.
      by rewrite app_empty_r. }
    apply lower_split in He as (q & r & -> & Hq & Hr).
    assert (strip_prefix_ci sev (q +:+ r) = Some r) as ->.
    { apply strip_prefix_ci_lower; [by apply Hsev|]. by exists q. }
    destruct r as [|d r]; [discriminate Hr|]. simpl in Hr. rewrite app_cons in Hr.
    injection Hr as Hd%to_lower_dash Hr. subst d. rewrite app_empty in Hr.
    cbn [strip_prefix]. rewrite Ascii.eqb_refl.
    apply existsb_exists. exists comp. split; [by apply list_elem_of_In|].
    apply lower_split in Hr as (q' & r' & -> & Hq' & Hr').
    assert (strip_prefix_ci comp (q' +:+ r') = Some r') as ->.
    { apply strip_prefix_ci_lower; [by apply Hcomp|]. by exists q'. }
    apply at_end_iff. destruct Hend as [-> | ->].
    + left. by apply lower_empty.
    + right. destruct r' as [|c [|c' r']]; [discriminate Hr'| |discriminate Hr'].
      simpl in Hr'. injection Hr' as Hc'%to_lower_newline. by subst.
Qed.

Lemma matches_vocabulary_iff_witness : matches_vocabulary "MeDiUm-WebConsole" = true.
Proof.
  apply (proj2 (matches_vocabulary_iff "MeDiUm-WebConsole")).
  exists "medium", "webconsole". split_and!.
  - do 2 right. left.
  - do 4 right. left.
  - left. reflexivity.
Defined.

(* ===================================================================== *)
(** * The token of a comment *)
(* ===================================================================== *)

Lemma strip_prefix_ci_whole (p m r : string) :
  strip_prefix_ci p m = Some "" → strip_prefix_ci p (m +:+ r) = Some r.
Proof.
  revert m. induction p as [|a p IH]; intros m.
  - destruct m; [|done]. intros _. by destruct r.
  - destruct m as [|b m]; [done|]. rewrite app_cons. cbn [strip_prefix_ci].
    destruct (eqb_ci a b); [apply IH|done].
Qed.

Lemma spaces_token_run (ws tok rest : string) :
  string_forall is_space ws = true →
  string_forall (λ c, negb (is_space c)) tok = true → tok ≠ "" →
  match rest with String c _ => is_space c | EmptyString => true end = true →
  spaces_token (ws +:+ tok +:+ rest) = Some tok.
Proof.
  intros Hws Htok Hne Hrest. induction ws as [|c ws IH].
  - rewrite app_empty. destruct tok as [|d tok]; [done|].
    pose proof (nonspaces1_run (String d tok) rest Htok Hne Hrest) as Hrun.
    rewrite app_cons in *. simpl in Htok. apply andb_true_iff in Htok as [Hd _].
    apply negb_true_iff in Hd. cbn [spaces_token]. by rewrite Hd.
  - simpl in Hws. apply andb_true_iff in Hws as [Hc Hws].
    rewrite app_cons. cbn [spaces_token]. by rewrite Hc, IH.
Qed.

Lemma rstrip_nonspace (s : string) :
  string_forall (λ c, negb (is_space c)) s = true → rstrip s = s.
Proof.
  induction s as [|c s IH]; [done|]. simpl.
  intros [Hc Hs]%andb_true_iff. apply negb_true_iff in Hc. rewrite IH by done.
  destruct s; by rewrite ?Hc.
Qed.

Lemma strip_nonspace (s : string) :
  string_forall (λ c, negb (is_space c)) s = true → strip s = s.
Proof.
  intros Hs. unfold strip. rewrite rstrip_nonspace by done.
  destruct s as [|c s]; [done|]. simpl in *.
  apply andb_true_iff in Hs as [Hc _]. apply negb_true_iff in Hc. by rewrite Hc.
Qed.

Lemma search_assessment_here (body tok : string) :
  match strip_prefix_ci "AI Assessment:" body with
  | Some rest => spaces_token rest
  | None => None
  end = Some tok →
  search_assessment body = Some tok.
Proof. intros Hhere. destruct body; cbn [search_assessment]; by rewrite Hhere. Qed.

Lemma contains_app (needle pre post : string) :
  contains needle (pre +:+ needle +:+ post) = true.
Proof.
  induction pre as [|c pre IH].
  - rewrite app_empty. destruct (needle +:+ post) eqn:Heq;
      cbn [contains]; rewrite <- ?Heq, strip_prefix_app; done.
  - rewrite app_cons. cbn [contains]. rewrite IH. by destruct (strip_prefix _ _).
Qed.

(** X21. Which token is read from a comment. The marker is looked for in
    its exact spelling, but the token is taken after the first marker in any
    letter case. So for a comment that starts with the marker in some
    letter case, white space, a token and more text: the token read is that
    first token when the exact marker occurs somewhere in the comment, and
    none otherwise; a valid assessment further down in the same comment is
    not seen. *)
Theorem token_follows_first_marker (m ws tok rest : string) (c : ascii) :
  strip_prefix_ci "AI Assessment:" m = Some "" →
  string_forall is_space ws = true →
  string_forall (λ c, negb (is_space c)) tok = true → tok ≠ "" →
  is_space c = true →
  comment_assessment (mkComment (m +:+ ws +:+ tok +:+ String c rest))
  = (if contains "AI Assessment:" (m +:+ ws +:+ tok +:+ String c rest)
     then Some tok else None)
  ∧ (∀ pre post, rest = pre +:+ "AI Assessment:" +:+ post →
       comment_assessment (mkComment (m +:+ ws +:+ tok +:+ String c rest)) = Some tok
       ∧ valid_assessment_found [mkComment (m +:+ ws +:+ tok +:+ String c rest)]
         = matches_vocabulary tok).
Proof.
  intros Hm Hws Htok Hne Hc.
  assert (search_assessment (m +:+ ws +:+ tok +:+ String c rest) = Some tok) as Hsearch.
  { apply search_assessment_here. rewrite strip_prefix_ci_whole by done.
    by apply spaces_token_run. }
  assert (comment_assessment (mkComment (m +:+ ws +:+ tok +:+ String c rest))
          = (if contains "AI Assessment:" (m +:+ ws +:+ tok +:+ String c rest)
             then Some tok else None)) as Hcomment.
  { unfold comment_assessment. cbn [body]. rewrite Hsearch. cbn [fmap option_fmap option_map].
    by rewrite strip_nonspace. }
  split; [done|]. intros pre post ->.
  assert (contains "AI Assessment:"
            (m +:+ ws +:+ tok +:+ String c (pre +:+ "AI Assessment:" +:+ post)) = true)
    as Hin.
  { replace (m +:+ ws +:+ tok +:+ String c (pre +:+ "AI Assessment:" +:+ post))
      with ((m +:+ ws +:+ tok +:+ String c pre) +:+ "AI Assessment:" +:+ post)
      by (norm_str; reflexivity).
    apply contains_app. }
  rewrite Hin in Hcomment. split; [done|].
  unfold valid_assessment_found. cbn [existsb]. rewrite Hcomment. by rewrite orb_false_r.
Qed.

Lemma token_follows_first_marker_witness :
  valid_assessment_found
    [mkComment ("ai assessment:" +:+ " " +:+ "pending"
                +:+ String "010" ("" +:+ "AI Assessment:" +:+ " critical-CoreAPI"))]
  = matches_vocabulary "pending".
Proof.
  refine (proj2 (proj2 (token_follows_first_marker "ai assessment:" " " "pending"
                          ("" +:+ "AI Assessment:" +:+ " critical-CoreAPI") "010"
                          eq_refl eq_refl eq_refl _ eq_refl)
                   "" " critical-CoreAPI" eq_refl)).
  discriminate.
Defined.

(* ===================================================================== *)
(** * Failing closed *)
(* ===================================================================== *)

(** X22. [verify_issue] fails closed: when [gh issue view] fails, prints
    nothing, prints what [json.loads] rejects or prints an empty object,
    the verification is negative, whatever was expected (even an empty
    title, body and label list), and exactly one command has been run. *)
Theorem verify_issue_fails_closed (sh : Shell) (json_loads : string → option Issue)
    (repo issue_number expected_title expected_body : string)
    (expected_labels : list string) (h : history)
    (exit_code : Z) (stdout stderr : string) :
  command_result sh h (cmd_issue_view repo issue_number) = (exit_code, stdout, stderr) →
  exit_code ≠ 0%Z ∨ stdout = "" ∨ json_loads stdout = None
  ∨ json_loads stdout = Some no_issue →
  get_issue sh json_loads repo issue_number h
  = (no_issue, h ++ [cmd_issue_view repo issue_number])
  ∧ verify_issue sh json_loads repo issue_number expected_title expected_body
      expected_labels h
    = (false, h ++ [cmd_issue_view repo issue_number]).
Proof.
  intros Hcmd Hfail.
  assert (get_issue sh json_loads repo issue_number h
          = (no_issue, h ++ [cmd_issue_view repo issue_number])) as Hget.
  { unfold get_issue, run_command. rewrite Hcmd.
    destruct Hfail as [Hne|[->|[Hnone|Hempty]]].
    - apply Z.eqb_neq in Hne. by rewrite Hne.
    - by destruct (negb (Z.eqb exit_code 0)).
    - rewrite Hnone. destruct (negb (Z.eqb exit_code 0)); [done|]. by destruct (nonempty stdout).
    - rewrite Hempty. destruct (negb (Z.eqb exit_code 0)); [done|]. by destruct (nonempty stdout). }
  split; [done|]. unfold verify_issue. rewrite Hget. reflexivity.
Qed.

Lemma verify_issue_fails_closed_witness :
  verify_issue shell_down (λ _, Some fetched_issue_sample) "okd-project/okd" "17" "" "" [] []
  = (false, [cmd_issue_view "okd-project/okd" "17"]).
Proof.
  refine (proj2 (verify_issue_fails_closed shell_down (λ _, Some fetched_issue_sample)
                   "okd-project/okd" "17" "" "" [] [] 1 "" "gh: command not found"
                   eq_refl _)).
  left. discriminate.
Defined.

Lemma get_repository_history (sh : Shell) (h : history) :
  ∃ k, (get_repository sh h).2 = h ++ cmd_git_remote :: k.
Proof.
  unfold get_repository, run_command.
  destruct (command_result sh h cmd_git_remote) as [[e o] r].
  destruct (if Z.eqb e 0 && nonempty o then _ else None) as [repo|].
  - by exists [].
  - destruct (command_result sh (h ++ [cmd_git_remote]) cmd_gh_repo_view) as [[e2 o2] r2].
    exists [cmd_gh_repo_view]. rewrite <- app_assoc. by destruct (Z.eqb e2 0 && nonempty o2).
Qed.

(** X23. When [setUpClass] lets the test run, [gh --version] and
    [gh auth status] have succeeded, in this order and before anything else,
    and the repository stored is not the empty string (the blank answer
    that [get_repository] can take from [gh repo view] is refused). When
    [gh --version] fails, no other command is run. *)
Theorem setUpClass_repository (sh : Shell) (h : history) :
  (∀ repo h', setUpClass sh h = (Some repo, h') →
     repo ≠ ""
     ∧ (command_result sh h ["gh"; "--version"]).1.1 = 0%Z
     ∧ (command_result sh (h ++ [["gh"; "--version"]]) ["gh"; "auth"; "status"]).1.1 = 0%Z
     ∧ ∃ k, h' = h ++ [["gh"; "--version"]; ["gh"; "auth"; "status"]; cmd_git_remote] ++ k)
  ∧ ((command_result sh h ["gh"; "--version"]).1.1 ≠ 0%Z →
     setUpClass sh h = (None, h ++ [["gh"; "--version"]])).
Proof.
  unfold setUpClass, check_gh_cli, check_gh_auth, run_command.
  destruct (command_result sh h ["gh"; "--version"]) as [[e1 o1] r1]. cbn [fst snd].
  split.
  - intros repo h'. destruct (Z.eqb_spec e1 0) as [->|]; [|done]. cbn [negb].
    destruct (command_result sh (h ++ [["gh"; "--version"]]) ["gh"; "auth"; "status"])
      as [[e2 o2] r2]. cbn [fst snd].
    destruct (Z.eqb_spec e2 0) as [->|]; [|done]. cbn [negb].
    destruct (get_repository_history sh
                ((h ++ [["gh"; "--version"]]) ++ [["gh"; "auth"; "status"]])) as [k Hk].
    destruct (get_repository sh _) as [[r|] h3]; cbn [truthy from_option negb]; [|done].
    destruct (nonempty r) eqn:Hr; [|done]. cbn [negb]. intros [= -> ->].
    split_and!; [|done|done|].
    + intros ->. discriminate Hr.
    + exists k. simpl in Hk. rewrite Hk, <- !app_assoc. reflexivity.
  - intros Hne. apply Z.eqb_neq in Hne. by rewrite Hne.
Qed.

Lemma setUpClass_repository_witness :
  setUpClass shell_down [] = (None, [["gh"; "--version"]]).
Proof.
  apply (proj2 (setUpClass_repository shell_down [])). discriminate.
Defined.

Example blank_repository_refused :
  get_repository shell_blank_repo [] = (Some "", [cmd_git_remote; cmd_gh_repo_view])
  ∧ (setUpClass shell_blank_repo []).1 = None.
Proof. split; reflexivity. Qed.
